(** * Financial-document transaction engine of [public/api.php]

    A shallow embedding of the four actions of [public/api.php] that make up
    the engine: [get_next_document_number] / [getNextDocumentNumberInternal]
    (sequence allocator), [create_receipt_with_items_transaction] (creation
    of invoice + items + payment + allocation + receipt + receipt items),
    [delete_invoice_with_cascade] and [delete_receipt_with_cascade].

    Modelling choices.
    - The MySQL connection is an explicit state [Conn]: the tables, the
      AUTO_INCREMENT counters, the snapshot taken by [begin_transaction]
      (rows are restored from it by [rollback]; AUTO_INCREMENT counters are
      not transactional) and a log of the statements sent.
    - Every [$conn->query] may fail: a fault oracle [fault : Stmt -> bool]
      decides which statements return [false].
    - PHP exceptions are the [Err] result of a small state-and-error monad;
      [try_catch] is PHP's [try { } catch (Exception $e) { }].
    - Amounts are PHP floats in the source.  The engine carries them as
      exact rationals [Q], the numbers that the decimal literals of the
      request and the columns of the store denote, and equalities between
      amounts are stated with [==].  What the handler computes in binary64
      and prints into the SQL text is modelled apart, in [Binary64] below;
      the properties of the engine that mention amounts are those that do
      not depend on rounding.
    - [NOW()] timestamps and the [notes] literals are not modelled: no
      statement of the engine reads them.  Authorization
      ([requireAuthForModification]) is taken as granted; only the actor id
      it yields ([auth_id]) is kept.  The connection itself is always there
      (the [$conn] null checks and [ping()] are not modelled), statements run
      in autocommit mode outside a transaction, and logging ([error_log]) and
      HTTP status codes are left out.
    - The year and the receipt id, which the code tests for truth before it
      casts them with [(int)], are values of the request ([Php.value]).  An
      amount, cast with [(float)] and never tested, is modelled by the
      number it denotes, and a string by itself, [None] standing for an
      absent key.  The invoice id goes into the SQL text uncast: it is the
      integer that the literal denotes. *)

From Stdlib Require Import ZArith QArith Qminmax List String Ascii Bool Lia Lqa.
From Stdlib Require Import DecimalString.
From Stdlib Require Floats.SpecFloat.
Import ListNotations.

Local Open Scope string_scope.

(** ** PHP values *)

Module Php.

(** [(bool)$s] for a string: only the empty string and ["0"] are falsy. *)
Definition truthy_str (s : string) : bool :=
  negb (String.eqb s "" || String.eqb s "0").

(** [(bool)$v] for a value that may be [null]. *)
Definition truthy (v : option string) : bool :=
  match v with
  | None => false
  | Some s => truthy_str s
  end.

(** [(bool)$n] for an integer that may be [null]. *)
Definition truthy_int (v : option Z) : bool :=
  match v with
  | None => false
  | Some n => negb (n =? 0)%Z
  end.

Definition isset {A} (v : option A) : bool :=
  match v with
  | None => false
  | Some _ => true
  end.

(** [$v ?? $d] *)
Definition coalesce {A} (v : option A) (d : A) : A :=
  match v with
  | None => d
  | Some a => a
  end.

Definition in_array (s : string) (l : list string) : bool :=
  existsb (String.eqb s) l.

(** [%d] *)
Definition fmt_d (n : Z) : string := NilZero.string_of_int (Z.to_int n).

Fixpoint zeros (k : nat) : string :=
  match k with
  | O => ""
  | S k' => String "0" (zeros k')
  end.

(** [%0wd]: the sign comes first, then zeros up to the width [w]; a number
    that is already [w] characters or longer is printed whole. *)
Definition fmt_0d (w : nat) (n : Z) : string :=
  if (n <? 0)%Z then
    let d := fmt_d (- n) in
    String "-" (zeros (w - 1 - String.length d) ++ d)
  else
    let d := fmt_d n in
    zeros (w - String.length d) ++ d.

(** [max(0, $x)] on floats. *)
Definition max0 (x : Q) : Q := Qmax 0 x.

(** *** Floats: IEEE 754 binary64 *)

Definition float := SpecFloat.spec_float.
Definition prec := 53%Z.
Definition emax := 1024%Z.

(** The double nearest to [n / d], ties to even: what [strtod] and
    [json_decode] read from a decimal literal of that value. *)
Definition float_of_ratio (n : Z) (d : positive) : float :=
  let round s m :=
    let '(mz, ez, lz) := SpecFloat.SFdiv_core_binary prec emax (Zpos m) 0 (Zpos d) 0 in
    SpecFloat.binary_round_aux prec emax s mz ez lz in
  match n with
  | Z0 => SpecFloat.S754_zero false
  | Zpos m => round false m
  | Zneg m => round true m
  end.

Definition float_of_Q (q : Q) : float := float_of_ratio (Qnum q) (Qden q).

(** The integer part of a finite double, towards zero. *)
Definition float_trunc (f : float) : Z :=
  match f with
  | SpecFloat.S754_finite s m e =>
      let t := Z.shiftl (Zpos m) e in
      if s then (- t)%Z else t
  | _ => 0%Z
  end.

Definition int_min : Z := (- 2 ^ 63)%Z.
Definition int_max : Z := (2 ^ 63 - 1)%Z.

(** [(int)$f]: towards zero; a value out of the range of a 64-bit integer
    wraps modulo 2^64; [NAN] and [INF] give 0. *)
Definition float_to_int (f : float) : Z :=
  ((float_trunc f + 2 ^ 63) mod 2 ^ 64 - 2 ^ 63)%Z.

(** The saturating conversion, which PHP applies to a numeric string that
    reads as a float. *)
Definition float_to_int_cap (f : float) : Z :=
  match f with
  | SpecFloat.S754_infinity s => if s then int_min else int_max
  | _ => Z.max int_min (Z.min int_max (float_trunc f))
  end.

(** *** Numeric strings *)

(** Space, [\t], [\n], [\v], [\f], [\r]. *)
Definition is_space (a : ascii) : bool :=
  let n := nat_of_ascii a in
  (n =? 32)%nat || ((9 <=? n)%nat && (n <=? 13)%nat).

Definition digit (a : ascii) : option Z :=
  let n := nat_of_ascii a in
  if ((48 <=? n) && (n <=? 57))%nat then Some (Z.of_nat (n - 48)) else None.

Fixpoint skip_spaces (s : string) : string :=
  match s with
  | String a rest => if is_space a then skip_spaces rest else s
  | EmptyString => s
  end.

(** The leading digits of [s]: their value after [acc], how many they are,
    and what follows them. *)
Fixpoint digits (s : string) (acc : Z) (count : nat) : Z * nat * string :=
  match s with
  | String a rest =>
      match digit a with
      | Some d => digits rest (acc * 10 + d)%Z (S count)
      | None => (acc, count, s)
      end
  | EmptyString => (acc, count, s)
  end.

Definition sign (s : string) : bool * string :=
  match s with
  | String "-" rest => (true, rest)
  | String "+" rest => (false, rest)
  | _ => (false, s)
  end.

(** [[eE][+-]?[0-9]+] at the head of [s]. *)
Definition exponent (s : string) : option Z :=
  match s with
  | String a rest =>
      if (Ascii.eqb a "e" || Ascii.eqb a "E")%bool then
        let '(negative, rest) := sign rest in
        let '(e, count, _) := digits rest 0 0 in
        if (count =? 0)%nat then None
        else Some (if negative then (- e)%Z else e)
      else None
  | EmptyString => None
  end.

Definition power_of_ten (e : Z) : Q :=
  match e with
  | Z0 => 1
  | Zpos p => inject_Z (10 ^ Zpos p)
  | Zneg p => 1 # (10 ^ p)
  end.

(** What a string starts with, after leading white space: an integer, a
    number written with a point or an exponent (by its decimal value), or
    no number.  What follows the number is ignored, as a cast does. *)
Inductive numeric :=
| NotNumeric
| Long (n : Z)
| Double (q : Q).

Definition numeric_prefix (s : string) : numeric :=
  let '(negative, s) := sign (skip_spaces s) in
  let '(whole, whole_count, rest) := digits s 0 0 in
  let scaled (mantissa : Q) (rest : string) : Q :=
    let q := (mantissa * power_of_ten (match exponent rest with Some e => e | None => 0%Z end))%Q in
    if negative then (- q)%Q else q in
  match rest with
  | String "." after_point =>
      let '(fraction, fraction_count, rest) := digits after_point 0 0 in
      if ((whole_count =? 0) && (fraction_count =? 0))%nat then NotNumeric
      else Double (scaled (inject_Z whole
                           + inject_Z fraction * power_of_ten (- Z.of_nat fraction_count))%Q
                     rest)
  | _ =>
      if (whole_count =? 0)%nat then NotNumeric
      else match exponent rest with
           | Some _ => Double (scaled (inject_Z whole) rest)
           | None => Long (if negative then (- whole)%Z else whole)
           end
  end.

(** *** Request values *)

(** A value of the request, as [json_decode] or [$_POST] hands it over;
    [Null] also stands for an absent key, and an array is kept by its number
    of elements.  An [Int] is a 64-bit integer: [json_decode] reads a longer
    integer literal as a float. *)
Inductive value :=
| Null
| Bool (b : bool)
| Int (n : Z)
| Float (f : float)
| Str (s : string)
| Arr (count : nat).

(** [(bool)$v] *)
Definition truthy_value (v : value) : bool :=
  match v with
  | Null => false
  | Bool b => b
  | Int n => negb (n =? 0)%Z
  | Float (SpecFloat.S754_zero _) => false
  | Float _ => true
  | Str s => truthy_str s
  | Arr count => negb (count =? 0)%nat
  end.

(** [(int)$v], as PHP 8 defines it. *)
Definition intval (v : value) : Z :=
  match v with
  | Null => 0%Z
  | Bool b => if b then 1%Z else 0%Z
  | Int n => n
  | Float f => float_to_int f
  | Str s =>
      match numeric_prefix s with
      | NotNumeric => 0%Z
      | Long n => Z.max int_min (Z.min int_max n)
      | Double q => float_to_int_cap (float_of_Q q)
      end
  | Arr count => if (count =? 0)%nat then 0%Z else 1%Z
  end.

(** *** Floats as decimal text *)

(** The absolute value of a finite double. *)
Definition float_magnitude (f : float) : Q :=
  match f with
  | SpecFloat.S754_finite _ m e =>
      match e with
      | Zneg p => Zpos m # (2 ^ p)
      | _ => inject_Z (Zpos m * 2 ^ e)
      end
  | _ => 0
  end.

(** The integer nearest to a non-negative [q], ties to even. *)
Definition round_half_even (q : Q) : Z :=
  let d := Zpos (Qden q) in
  let floor := (Qnum q / d)%Z in
  match (2 * (Qnum q mod d) ?= d)%Z with
  | Lt => floor
  | Gt => (floor + 1)%Z
  | Eq => if Z.even floor then floor else (floor + 1)%Z
  end.

Definition decimal_digits (n : positive) : Z :=
  Z.of_nat (Decimal.nb_digits (Pos.to_uint n)).

(** A positive [x] rounded to [precision] significant decimal digits. *)
Definition round_significant (precision : Z) (x : Q) : Q :=
  let estimate := (decimal_digits (Z.to_pos (Qnum x)) - decimal_digits (Qden x))%Z in
  (* [x] has [e] digits before the point: 10^(e-1) <= x < 10^e *)
  let e := if Qle_bool (power_of_ten estimate) x then (estimate + 1)%Z else estimate in
  let scale := power_of_ten (precision - e) in
  Qred (inject_Z (round_half_even (x * scale)) / scale).

(** The [precision] setting of PHP, by default. *)
Definition precision : Z := 14.

(** The number that ["$f"] writes: the double rounded to [precision]
    significant digits.  [INF] and [NAN] are written by their names, not as
    numbers. *)
Definition printed (f : float) : option Q :=
  match f with
  | SpecFloat.S754_zero _ => Some 0
  | SpecFloat.S754_finite s _ _ =>
      let x := round_significant precision (float_magnitude f) in
      Some (if s then (- x)%Q else x)
  | _ => None
  end.

End Php.

(** ** Rows of the relational store *)

Inductive Status := draft | partial | paid.

Record Invoice := {
  inv_id : Z;
  inv_company_id : string;
  inv_customer_id : string;
  inv_invoice_number : string;
  inv_invoice_date : string;
  inv_due_date : string;
  inv_status : Status;
  inv_subtotal : Q;
  inv_tax_amount : Q;
  inv_total_amount : Q;
  inv_paid_amount : Q;
  inv_balance_due : Q;
  inv_created_by : option string
}.

Record InvoiceItem := {
  ii_invoice_id : Z;
  ii_description : string;
  ii_quantity : Q;
  ii_unit_price : Q;
  ii_tax_percentage : Q;
  ii_tax_amount : Q;
  ii_line_total : Q;
  ii_sort_order : nat
}.

Record Payment := {
  pay_id : Z;
  pay_company_id : string;
  pay_invoice_id : option Z;
  pay_payment_date : string;
  pay_payment_method : string;
  pay_amount : Q;
  pay_payment_number : string;
  pay_reference_number : option string;
  pay_created_by : option string
}.

Record Allocation := {
  pa_id : Z;
  pa_payment_id : Z;
  pa_invoice_id : Z;
  pa_amount : Q
}.

Record Receipt := {
  rc_id : Z;
  rc_company_id : string;
  rc_payment_id : option Z;
  rc_invoice_id : option Z;
  rc_receipt_number : string;
  rc_receipt_date : string;
  rc_receipt_type : string;
  rc_total_amount : Q;
  rc_excess_amount : Q;
  rc_excess_handling : string;
  rc_created_by : option string
}.

Record ReceiptItem := {
  ri_receipt_id : Z;
  ri_description : string;
  ri_quantity : Q;
  ri_unit_price : Q;
  ri_tax_percentage : Q;
  ri_tax_amount : Q;
  ri_line_total : Q;
  ri_sort_order : nat
}.

Record AuditRow := {
  al_payment_id : Z;
  al_invoice_id : option Z
}.

Record CreditNoteAllocation := {
  cna_invoice_id : Z
}.

Record StockMovement := {
  sm_reference_type : string;
  sm_reference_id : Z
}.

Record SeqRow := {
  sq_document_type : string;
  sq_year : Z;
  sq_sequence_number : Z
}.

(** The tables.  [document_sequences] is [None] while the table has not been
    created yet (both allocators create it on demand). *)
Record Tables := {
  invoices : list Invoice;
  invoice_items : list InvoiceItem;
  payments : list Payment;
  payment_allocations : list Allocation;
  receipts : list Receipt;
  receipt_items : list ReceiptItem;
  payment_audit_log : list AuditRow;
  credit_note_allocations : list CreditNoteAllocation;
  stock_movements : list StockMovement;
  document_sequences : option (list SeqRow)
}.

(** AUTO_INCREMENT counters of the tables whose [insert_id] the code reads. *)
Record AutoInc := {
  next_invoice_id : positive;
  next_payment_id : positive;
  next_allocation_id : positive;
  next_receipt_id : positive
}.

(** ** The connection *)

(** The SQL statements the engine sends, one constructor per query site. *)
Inductive Stmt :=
| BeginTransaction
| CommitTransaction
| Rollback
| SeqTableCheck
| SeqCreateTable
| SeqSelect (type : string) (year : Z)
| SeqInsert (type : string) (year : Z)
| SeqUpdate (type : string) (year : Z)
| SeqFetch (type : string) (year : Z)
| InsertInvoice
| InsertInvoiceItem (sort_order : nat)
| InsertPayment
| InsertAllocation
| InsertReceipt
| InsertReceiptItem (sort_order : nat)
| RereadInvoice (id : Z)
| RereadPayment (id : Z)
| RereadReceipt (id : Z)
| SelectReceipt (id : Z)
| DeleteReceiptItems (receipt_id : Z)
| DeleteAuditOfPayment (payment_id : Z)
| DeleteAllocationsOfPayment (payment_id : Z)
| DeletePayment (payment_id : Z)
| SelectInvoiceTotal (invoice_id : Z)
| SumAllocations (invoice_id : Z)
| UpdateInvoice (invoice_id : Z) (status : Status) (paid_amount balance_due : Q)
| DeleteReceipt (receipt_id : Z)
| SelectInvoice (invoice_id : Z)
| SelectRelatedPayments (invoice_id : Z)
| DeleteAudit (payment_ids : list Z) (invoice_id : Z)
| DeleteReceiptItemsOfPayments (payment_ids : list Z)
| DeleteReceiptsOfPayments (payment_ids : list Z)
| DeleteAllocationsOfInvoice (invoice_id : Z)
| DeletePaymentsOfInvoice (invoice_id : Z)
| DeleteCreditNoteAllocations (invoice_id : Z)
| DeleteStockMovements (invoice_id : Z)
| DeleteInvoiceItems (invoice_id : Z)
| DeleteInvoice (invoice_id : Z).

(** Statements that change rows (INSERT, UPDATE, DELETE, CREATE TABLE). *)
Definition is_write (s : Stmt) : bool :=
  match s with
  | BeginTransaction | CommitTransaction | Rollback
  | SeqTableCheck | SeqSelect _ _ | SeqFetch _ _
  | RereadInvoice _ | RereadPayment _ | RereadReceipt _
  | SelectReceipt _ | SelectInvoiceTotal _ | SumAllocations _
  | SelectInvoice _ | SelectRelatedPayments _ => false
  | _ => true
  end.

Record Conn := {
  tables : Tables;
  autoinc : AutoInc;
  txn : option Tables;     (* rows as they were at [begin_transaction] *)
  log : list Stmt          (* statements sent so far, oldest first *)
}.

(** What the handlers read from outside the request and the store. *)
Record Env := {
  fault : Stmt -> bool;            (* [true]: the statement fails *)
  current_year : Z;                (* [date('Y')] *)
  today : string;                  (* [date('Y-m-d')] *)
  fresh_receipt_number : string;   (* ['REC-' . time/md5(uniqid()) digits] *)
  auth_id : option string          (* [$auth['id']] *)
}.

Module TablesUpd.

Definition with_invoices (v : list Invoice) (t : Tables) : Tables :=
  {| invoices := v; invoice_items := invoice_items t; payments := payments t;
     payment_allocations := payment_allocations t; receipts := receipts t;
     receipt_items := receipt_items t; payment_audit_log := payment_audit_log t;
     credit_note_allocations := credit_note_allocations t;
     stock_movements := stock_movements t;
     document_sequences := document_sequences t |}.

Definition with_invoice_items (v : list InvoiceItem) (t : Tables) : Tables :=
  {| invoices := invoices t; invoice_items := v; payments := payments t;
     payment_allocations := payment_allocations t; receipts := receipts t;
     receipt_items := receipt_items t; payment_audit_log := payment_audit_log t;
     credit_note_allocations := credit_note_allocations t;
     stock_movements := stock_movements t;
     document_sequences := document_sequences t |}.

Definition with_payments (v : list Payment) (t : Tables) : Tables :=
  {| invoices := invoices t; invoice_items := invoice_items t; payments := v;
     payment_allocations := payment_allocations t; receipts := receipts t;
     receipt_items := receipt_items t; payment_audit_log := payment_audit_log t;
     credit_note_allocations := credit_note_allocations t;
     stock_movements := stock_movements t;
     document_sequences := document_sequences t |}.

Definition with_payment_allocations (v : list Allocation) (t : Tables) : Tables :=
  {| invoices := invoices t; invoice_items := invoice_items t; payments := payments t;
     payment_allocations := v; receipts := receipts t;
     receipt_items := receipt_items t; payment_audit_log := payment_audit_log t;
     credit_note_allocations := credit_note_allocations t;
     stock_movements := stock_movements t;
     document_sequences := document_sequences t |}.

Definition with_receipts (v : list Receipt) (t : Tables) : Tables :=
  {| invoices := invoices t; invoice_items := invoice_items t; payments := payments t;
     payment_allocations := payment_allocations t; receipts := v;
     receipt_items := receipt_items t; payment_audit_log := payment_audit_log t;
     credit_note_allocations := credit_note_allocations t;
     stock_movements := stock_movements t;
     document_sequences := document_sequences t |}.

Definition with_receipt_items (v : list ReceiptItem) (t : Tables) : Tables :=
  {| invoices := invoices t; invoice_items := invoice_items t; payments := payments t;
     payment_allocations := payment_allocations t; receipts := receipts t;
     receipt_items := v; payment_audit_log := payment_audit_log t;
     credit_note_allocations := credit_note_allocations t;
     stock_movements := stock_movements t;
     document_sequences := document_sequences t |}.

Definition with_payment_audit_log (v : list AuditRow) (t : Tables) : Tables :=
  {| invoices := invoices t; invoice_items := invoice_items t; payments := payments t;
     payment_allocations := payment_allocations t; receipts := receipts t;
     receipt_items := receipt_items t; payment_audit_log := v;
     credit_note_allocations := credit_note_allocations t;
     stock_movements := stock_movements t;
     document_sequences := document_sequences t |}.

Definition with_credit_note_allocations (v : list CreditNoteAllocation) (t : Tables) : Tables :=
  {| invoices := invoices t; invoice_items := invoice_items t; payments := payments t;
     payment_allocations := payment_allocations t; receipts := receipts t;
     receipt_items := receipt_items t; payment_audit_log := payment_audit_log t;
     credit_note_allocations := v;
     stock_movements := stock_movements t;
     document_sequences := document_sequences t |}.

Definition with_stock_movements (v : list StockMovement) (t : Tables) : Tables :=
  {| invoices := invoices t; invoice_items := invoice_items t; payments := payments t;
     payment_allocations := payment_allocations t; receipts := receipts t;
     receipt_items := receipt_items t; payment_audit_log := payment_audit_log t;
     credit_note_allocations := credit_note_allocations t;
     stock_movements := v;
     document_sequences := document_sequences t |}.

Definition with_document_sequences (v : option (list SeqRow)) (t : Tables) : Tables :=
  {| invoices := invoices t; invoice_items := invoice_items t; payments := payments t;
     payment_allocations := payment_allocations t; receipts := receipts t;
     receipt_items := receipt_items t; payment_audit_log := payment_audit_log t;
     credit_note_allocations := credit_note_allocations t;
     stock_movements := stock_movements t;
     document_sequences := v |}.

End TablesUpd.
Import TablesUpd.

(** ** Exceptions and the connection monad *)

(** A handler either returns a value or throws [new Exception($message)];
    either way the connection is left in some state. *)
Inductive Res (A : Type) :=
| Ok (a : A)
| Err (message : string).
Arguments Ok {A} a.
Arguments Err {A} message.

Definition M (A : Type) : Type := Conn -> Res A * Conn.

Definition ret {A} (a : A) : M A := fun c => (Ok a, c).

Definition throw {A} (message : string) : M A := fun c => (Err message, c).

Definition bind {A B} (m : M A) (k : A -> M B) : M B :=
  fun c =>
    match m c with
    | (Ok a, c') => k a c'
    | (Err e, c') => (Err e, c')
    end.

(** [try { body } catch (Exception $e) { handler($e->getMessage()) }] *)
Definition try_catch {A} (body : M A) (handler : string -> M A) : M A :=
  fun c =>
    match body c with
    | (Ok a, c') => (Ok a, c')
    | (Err e, c') => handler e c'
    end.

Declare Scope php_scope.
Delimit Scope php_scope with php.
Notation "x <- m ;; k" := (bind m (fun x => k))
  (at level 61, m at next level, right associativity) : php_scope.
Notation "m ;;; k" := (bind m (fun _ => k))
  (at level 61, right associativity) : php_scope.

(** [if (!cond) throw new Exception(message);] *)
Definition unless_throw (cond : bool) (message : string) : M unit :=
  if cond then ret tt else throw message.

Definition logged (s : Stmt) (c : Conn) : Conn :=
  {| tables := tables c; autoinc := autoinc c; txn := txn c; log := log c ++ [s] |}.

Definition set_tables (t : Tables) (c : Conn) : Conn :=
  {| tables := t; autoinc := autoinc c; txn := txn c; log := log c |}.

Definition set_autoinc (a : AutoInc) (c : Conn) : Conn :=
  {| tables := tables c; autoinc := a; txn := txn c; log := log c |}.

Definition set_txn (x : option Tables) (c : Conn) : Conn :=
  {| tables := tables c; autoinc := autoinc c; txn := x; log := log c |}.

(** ** The engine *)

Section Engine.

Variable env : Env.

Local Open Scope php_scope.

(** *** [mysqli] primitives *)

(** [$conn->query] of a SELECT.  The result is [None] for PHP's [false]
    (the statement failed), otherwise what the rows give. *)
Definition query_select {A} (s : Stmt) (rows : Tables -> option A) : M (option A) :=
  fun c =>
    (if fault env s then Ok None else Ok (rows (tables c)), logged s c).

(** [$conn->query] of an INSERT, UPDATE, DELETE or CREATE TABLE. *)
Definition query_write (s : Stmt) (upd : Tables -> option Tables) : M bool :=
  fun c =>
    if fault env s then (Ok false, logged s c)
    else match upd (tables c) with
         | Some t => (Ok true, set_tables t (logged s c))
         | None => (Ok false, logged s c)
         end.

Definition begin_transaction : M bool :=
  fun c =>
    if fault env BeginTransaction then (Ok false, logged BeginTransaction c)
    else (Ok true, set_txn (Some (tables c)) (logged BeginTransaction c)).

Definition commit : M bool :=
  fun c =>
    if fault env CommitTransaction then (Ok false, logged CommitTransaction c)
    else (Ok true, set_txn None (logged CommitTransaction c)).

(** Outside a transaction every statement has already been committed and
    [rollback] changes nothing. *)
Definition rollback : M unit :=
  fun c =>
    (Ok tt,
     match txn c with
     | Some t => set_txn None (set_tables t (logged Rollback c))
     | None => logged Rollback c
     end).

(** *** Sequence allocator *)

Definition valid_types_http : list string :=
  ["INV"; "PRO"; "QT"; "PO"; "LPO"; "DN"; "CN"; "PAY"; "REC"].

Definition valid_types : list string :=
  ["INV"; "PRO"; "QT"; "PO"; "LPO"; "DN"; "CN"; "PAY"; "REC"; "RA"; "REM"].

Definition invalid_type_message (type : string) (valid : list string) : string :=
  "Invalid document type: " ++ type ++ ". Valid types are: " ++ String.concat ", " valid.

(** [sprintf('%s-%d-%04d', $type, $year, $sequence)] *)
Definition document_number (type : string) (year sequence : Z) : string :=
  type ++ "-" ++ Php.fmt_d year ++ "-" ++ Php.fmt_0d 4 sequence.

(** "Default to current year if not provided": the test is on the value of
    the request, the cast comes after it. *)
Definition resolve_year (year : Php.value) : M Z :=
  if negb (Php.truthy_value year) then ret (current_year env)
  else
    let year := Php.intval year in
    if ((year <? 2000) || (year >? current_year env + 10))%Z
    then throw ("Invalid year: " ++ Php.fmt_d year)
    else ret year.

Definition seq_match (type : string) (year : Z) (r : SeqRow) : bool :=
  String.eqb (sq_document_type r) type && (sq_year r =? year)%Z.

Definition seq_bump (type : string) (year : Z) (r : SeqRow) : SeqRow :=
  if seq_match type year r
  then {| sq_document_type := sq_document_type r; sq_year := sq_year r;
          sq_sequence_number := sq_sequence_number r + 1 |}
  else r.

(** "Ensure document_sequences table exists" *)
Definition ensure_sequences_table : M unit :=
  table_check <- query_select SeqTableCheck
                   (fun t => Some (Php.isset (document_sequences t))) ;;
  match table_check with
  | Some true => ret tt
  | _ =>
      ok <- query_write SeqCreateTable
              (fun t => match document_sequences t with
                        | None => Some (with_document_sequences (Some []) t)
                        | Some _ => Some t   (* IF NOT EXISTS *)
                        end) ;;
      unless_throw ok "Failed to create document_sequences table"
  end.

(** Check / insert with 0 / increment / fetch, as both allocators do. *)
Definition next_sequence (type : string) (year : Z) : M Z :=
  result <- query_select (SeqSelect type year)
              (fun t => match document_sequences t with
                        | None => None
                        | Some rows => Some (find (seq_match type year) rows)
                        end) ;;
  match result with
  | Some (Some _) => ret tt
  | _ =>
      ok <- query_write (SeqInsert type year)
              (fun t => match document_sequences t with
                        | None => None
                        | Some rows =>
                            (* UNIQUE KEY unique_type_year *)
                            if existsb (seq_match type year) rows then None
                            else Some (with_document_sequences
                                         (Some (rows ++ [{| sq_document_type := type;
                                                            sq_year := year;
                                                            sq_sequence_number := 0 |}])%list) t)
                        end) ;;
      unless_throw ok "Failed to initialize sequence"
  end ;;;
  ok <- query_write (SeqUpdate type year)
          (fun t => match document_sequences t with
                    | None => None
                    | Some rows =>
                        Some (with_document_sequences
                                (Some (map (seq_bump type year) rows)) t)
                    end) ;;
  unless_throw ok "Failed to increment sequence" ;;;
  result <- query_select (SeqFetch type year)
              (fun t => match document_sequences t with
                        | None => None
                        | Some rows => Some (find (seq_match type year) rows)
                        end) ;;
  match result with
  | Some (Some row) => ret (sq_sequence_number row)
  | _ => throw "Failed to fetch sequence number"
  end.

(** [getNextDocumentNumberInternal($type, $year)]: no transaction of its
    own, every statement is committed as it is executed. *)
Definition getNextDocumentNumberInternal (type : string) (year : Php.value) : M string :=
  unless_throw (Php.in_array type valid_types)
    (invalid_type_message type valid_types) ;;;
  year <- resolve_year year ;;
  ensure_sequences_table ;;;
  sequence <- next_sequence type year ;;
  ret (document_number type year sequence).

Record NumberResponse := {
  nr_number : string;
  nr_type : string;
  nr_year : Z;
  nr_sequence : Z
}.

(** Action [get_next_document_number]. *)
Definition get_next_document_number (type : option string) (year : Php.value)
  : M NumberResponse :=
  unless_throw (Php.truthy type) "Missing document type" ;;;
  let type := Php.coalesce type "" in
  unless_throw (Php.in_array type valid_types_http)
    (invalid_type_message type valid_types_http) ;;;
  year <- resolve_year year ;;
  ensure_sequences_table ;;;
  begin_transaction ;;;
  try_catch
    (sequence <- next_sequence type year ;;
     commit ;;;
     ret {| nr_number := document_number type year sequence;
            nr_type := type; nr_year := year; nr_sequence := sequence |})
    (fun e => rollback ;;; throw e).

(** *** Creation: action [create_receipt_with_items_transaction] *)

(** Request fields carry [None] when the key is absent (or [null]). *)
Record ItemInput := {
  item_description : option string;
  item_quantity : option Q;
  item_unit_price : option Q;
  item_tax_amount : option Q;
  item_tax_percentage : option Q
}.

Record PaymentInput := {
  p_amount : option Q;
  p_payment_date : option string;
  p_payment_method : option string;
  p_payment_number : option string;
  p_reference_number : option string
}.

Record InvoiceInput := {
  i_invoice_number : option string;
  i_total_amount : option Q
}.

Record CreateRequest := {
  req_company_id : option string;
  req_customer_id : option string;
  req_payment : PaymentInput;
  req_invoice : InvoiceInput;
  req_items : list ItemInput
}.

Record CreateResponse := {
  resp_receipt : option Receipt;
  resp_payment : option Payment;
  resp_invoice : option Invoice;
  resp_allocation_id : Z;
  resp_excess_amount : Q
}.

(** [empty($payment)]: no key at all. *)
Definition payment_empty (p : PaymentInput) : bool :=
  negb (Php.isset (p_amount p) || Php.isset (p_payment_date p)
        || Php.isset (p_payment_method p) || Php.isset (p_payment_number p)
        || Php.isset (p_reference_number p)).

Definition Qgeb (x y : Q) : bool := Qle_bool y x.
Definition Qgtb (x y : Q) : bool := negb (Qle_bool x y).

(** [($itemQuantity * $itemPrice) + $itemTax], on the numbers that the
    literals denote; [Binary64.item_line_total] is the same expression in
    PHP's floats. *)
Definition item_line_total (item : ItemInput) : Q :=
  (Php.coalesce (item_quantity item) 0 * Php.coalesce (item_unit_price item) 0)
  + Php.coalesce (item_tax_amount item) 0.

(** "Calculate invoice amount from items" (in PHP's floats:
    [Binary64.invoice_amount]) *)
Definition invoice_amount (items : list ItemInput) (invoiceData : InvoiceInput) : Q :=
  match items with
  | _ :: _ => fold_left (fun invoiceAmount item => invoiceAmount + item_line_total item) items 0
  | [] => Php.coalesce (i_total_amount invoiceData) 0
  end.

(** "Determine invoice status": [(status, paidAmount, balanceDue)]. *)
Definition determine_invoice_status (paymentAmount invoiceAmount : Q) : Status * Q * Q :=
  if Qgeb paymentAmount invoiceAmount then (paid, invoiceAmount, 0)
  else if Qgtb paymentAmount 0 then (partial, paymentAmount, invoiceAmount - paymentAmount)
  else (draft, 0, invoiceAmount).

Definition created_by : option string :=
  if Php.truthy (auth_id env) then auth_id env else None.

(** An INSERT into a table with an AUTO_INCREMENT key: [Some insert_id] on
    success, [None] when the statement fails. *)
Definition insert_invoice (row : Z -> Invoice) : M (option Z) :=
  fun c =>
    if fault env InsertInvoice then (Ok None, logged InsertInvoice c)
    else
      let a := autoinc c in
      let id := Z.pos (next_invoice_id a) in
      (Ok (Some id),
       set_autoinc {| next_invoice_id := Pos.succ (next_invoice_id a);
                      next_payment_id := next_payment_id a;
                      next_allocation_id := next_allocation_id a;
                      next_receipt_id := next_receipt_id a |}
         (set_tables (with_invoices (invoices (tables c) ++ [row id]) (tables c))
            (logged InsertInvoice c))).

Definition insert_payment (row : Z -> Payment) : M (option Z) :=
  fun c =>
    if fault env InsertPayment then (Ok None, logged InsertPayment c)
    else
      let a := autoinc c in
      let id := Z.pos (next_payment_id a) in
      (Ok (Some id),
       set_autoinc {| next_invoice_id := next_invoice_id a;
                      next_payment_id := Pos.succ (next_payment_id a);
                      next_allocation_id := next_allocation_id a;
                      next_receipt_id := next_receipt_id a |}
         (set_tables (with_payments (payments (tables c) ++ [row id]) (tables c))
            (logged InsertPayment c))).

Definition insert_allocation (row : Z -> Allocation) : M (option Z) :=
  fun c =>
    if fault env InsertAllocation then (Ok None, logged InsertAllocation c)
    else
      let a := autoinc c in
      let id := Z.pos (next_allocation_id a) in
      (Ok (Some id),
       set_autoinc {| next_invoice_id := next_invoice_id a;
                      next_payment_id := next_payment_id a;
                      next_allocation_id := Pos.succ (next_allocation_id a);
                      next_receipt_id := next_receipt_id a |}
         (set_tables (with_payment_allocations
                        (payment_allocations (tables c) ++ [row id]) (tables c))
            (logged InsertAllocation c))).

Definition insert_receipt (row : Z -> Receipt) : M (option Z) :=
  fun c =>
    if fault env InsertReceipt then (Ok None, logged InsertReceipt c)
    else
      let a := autoinc c in
      let id := Z.pos (next_receipt_id a) in
      (Ok (Some id),
       set_autoinc {| next_invoice_id := next_invoice_id a;
                      next_payment_id := next_payment_id a;
                      next_allocation_id := next_allocation_id a;
                      next_receipt_id := Pos.succ (next_receipt_id a) |}
         (set_tables (with_receipts (receipts (tables c) ++ [row id]) (tables c))
            (logged InsertReceipt c))).

Definition invoice_item_row (invoiceId : Z) (index : nat) (item : ItemInput) : InvoiceItem :=
  {| ii_invoice_id := invoiceId;
     ii_description := Php.coalesce (item_description item) "";
     ii_quantity := Php.coalesce (item_quantity item) 0;
     ii_unit_price := Php.coalesce (item_unit_price item) 0;
     ii_tax_percentage := Php.coalesce (item_tax_percentage item) 0;
     ii_tax_amount := Php.coalesce (item_tax_amount item) 0;
     ii_line_total := item_line_total item;
     ii_sort_order := index + 1 |}.

Definition receipt_item_row (receiptId : Z) (index : nat) (item : ItemInput) : ReceiptItem :=
  {| ri_receipt_id := receiptId;
     ri_description := Php.coalesce (item_description item) "";
     ri_quantity := Php.coalesce (item_quantity item) 0;
     ri_unit_price := Php.coalesce (item_unit_price item) 0;
     ri_tax_percentage := Php.coalesce (item_tax_percentage item) 0;
     ri_tax_amount := Php.coalesce (item_tax_amount item) 0;
     ri_line_total := item_line_total item;
     ri_sort_order := index + 1 |}.

(** "Step 2: Create invoice items": [foreach ($items as $index => $item)]. *)
Fixpoint insert_invoice_items (invoiceId : Z) (index : nat) (items : list ItemInput)
  : M unit :=
  match items with
  | [] => ret tt
  | item :: rest =>
      ok <- query_write (InsertInvoiceItem (index + 1))
              (fun t => Some (with_invoice_items
                                (invoice_items t ++ [invoice_item_row invoiceId index item]) t)) ;;
      unless_throw ok "Failed to create invoice item" ;;;
      insert_invoice_items invoiceId (S index) rest
  end.

(** "Step 6: Create receipt items snapshot". *)
Fixpoint insert_receipt_items (receiptId : Z) (index : nat) (items : list ItemInput)
  : M unit :=
  match items with
  | [] => ret tt
  | item :: rest =>
      ok <- query_write (InsertReceiptItem (index + 1))
              (fun t => Some (with_receipt_items
                                (receipt_items t ++ [receipt_item_row receiptId index item]) t)) ;;
      unless_throw ok "Failed to create receipt item" ;;;
      insert_receipt_items receiptId (S index) rest
  end.

(** [$r = $conn->query("SELECT * ... LIMIT 1"); $r ? $r->fetch_assoc() : null] *)
Definition reread {A} (s : Stmt) (row : Tables -> option A) : M (option A) :=
  r <- query_select s (fun t => Some (row t)) ;;
  ret (match r with
       | Some (Some a) => Some a
       | _ => None
       end).

(** The body of the [try] block. *)
Definition create_in_transaction (companyId customerId : string)
    (payment : PaymentInput) (invoiceData : InvoiceInput) (items : list ItemInput)
    (invoiceNumber paymentNumber : string) : M CreateResponse :=
  let paymentAmount := Php.coalesce (p_amount payment) 0 in
  let paymentDate := Php.coalesce (p_payment_date payment) (today env) in
  let invoiceAmount := invoice_amount items invoiceData in
  let '(invoiceStatus, paidAmount, balanceDue) :=
    determine_invoice_status paymentAmount invoiceAmount in
  (* Step 1: Create invoice *)
  r <- insert_invoice
         (fun id => {| inv_id := id;
                       inv_company_id := companyId;
                       inv_customer_id := customerId;
                       inv_invoice_number := invoiceNumber;
                       inv_invoice_date := paymentDate;
                       inv_due_date := paymentDate;
                       inv_status := invoiceStatus;
                       inv_subtotal := 0;
                       inv_tax_amount := 0;
                       inv_total_amount := invoiceAmount;
                       inv_paid_amount := paidAmount;
                       inv_balance_due := balanceDue;
                       inv_created_by := created_by |}) ;;
  unless_throw (Php.isset r) "Failed to create invoice" ;;;
  let invoiceId := Php.coalesce r 0%Z in
  unless_throw (negb (invoiceId =? 0)%Z) "Failed to get invoice ID" ;;;
  (* Step 2: Create invoice items (if any) *)
  insert_invoice_items invoiceId 0 items ;;;
  (* Step 3: Create payment *)
  let paymentMethod := Php.coalesce (p_payment_method payment) "cash" in
  let referenceNumber :=
    if Php.truthy (p_reference_number payment) then p_reference_number payment else None in
  r <- insert_payment
         (fun id => {| pay_id := id;
                       pay_company_id := companyId;
                       pay_invoice_id := Some invoiceId;
                       pay_payment_date := paymentDate;
                       pay_payment_method := paymentMethod;
                       pay_amount := paymentAmount;
                       pay_payment_number := paymentNumber;
                       pay_reference_number := referenceNumber;
                       pay_created_by := created_by |}) ;;
  unless_throw (Php.isset r) "Failed to create payment" ;;;
  let paymentId := Php.coalesce r 0%Z in
  unless_throw (negb (paymentId =? 0)%Z) "Failed to get payment ID" ;;;
  (* Step 4: Create payment allocation *)
  r <- insert_allocation
         (fun id => {| pa_id := id;
                       pa_payment_id := paymentId;
                       pa_invoice_id := invoiceId;
                       pa_amount := paymentAmount |}) ;;
  unless_throw (Php.isset r) "Failed to create payment allocation" ;;;
  let allocationId := Php.coalesce r 0%Z in
  (* Step 5: Create receipt record *)
  let excessAmount := Php.max0 (paymentAmount - invoiceAmount) in
  r <- insert_receipt
         (fun id => {| rc_id := id;
                       rc_company_id := companyId;
                       rc_payment_id := Some paymentId;
                       rc_invoice_id := Some invoiceId;
                       rc_receipt_number := fresh_receipt_number env;
                       rc_receipt_date := paymentDate;
                       rc_receipt_type := "direct_receipt";
                       rc_total_amount := paymentAmount;
                       rc_excess_amount := excessAmount;
                       rc_excess_handling := "pending";
                       rc_created_by := created_by |}) ;;
  unless_throw (Php.isset r) "Failed to create receipt" ;;;
  let receiptId := Php.coalesce r 0%Z in
  unless_throw (negb (receiptId =? 0)%Z) "Failed to get receipt ID" ;;;
  (* Step 6: Create receipt items snapshot *)
  insert_receipt_items receiptId 0 items ;;;
  (* Commit transaction *)
  ok <- commit ;;
  unless_throw ok "Failed to commit transaction" ;;;
  (* Fetch all created records for response *)
  invoice <- reread (RereadInvoice invoiceId)
               (fun t => find (fun i => (inv_id i =? invoiceId)%Z) (invoices t)) ;;
  payment_record <- reread (RereadPayment paymentId)
                      (fun t => find (fun p => (pay_id p =? paymentId)%Z) (payments t)) ;;
  receipt <- reread (RereadReceipt receiptId)
               (fun t => find (fun r => (rc_id r =? receiptId)%Z) (receipts t)) ;;
  ret {| resp_receipt := receipt;
         resp_payment := payment_record;
         resp_invoice := invoice;
         resp_allocation_id := allocationId;
         resp_excess_amount := excessAmount |}.

Definition create_receipt_with_items_transaction (req : CreateRequest) : M CreateResponse :=
  let companyId := req_company_id req in
  let customerId := req_customer_id req in
  let payment := req_payment req in
  let invoiceData := req_invoice req in
  let items := req_items req in
  unless_throw (Php.truthy companyId && Php.truthy customerId)
    "Missing company_id or customer_id" ;;;
  (* Validate payment data *)
  unless_throw (negb (payment_empty payment || negb (Php.isset (p_amount payment))))
    "Missing or invalid payment data" ;;;
  (* Generate document numbers BEFORE transaction *)
  invoiceNumber <-
    (if negb (Php.truthy (i_invoice_number invoiceData))
     then try_catch (getNextDocumentNumberInternal "INV" Php.Null)
            (fun e => throw ("Failed to generate invoice number: " ++ e))
     else ret (Php.coalesce (i_invoice_number invoiceData) "")) ;;
  paymentNumber <-
    (if negb (Php.truthy (p_payment_number payment))
     then try_catch (getNextDocumentNumberInternal "PAY" Php.Null)
            (fun e => throw ("Failed to generate payment number: " ++ e))
     else ret (Php.coalesce (p_payment_number payment) "")) ;;
  (* Start transaction *)
  ok <- begin_transaction ;;
  unless_throw ok "Failed to start transaction" ;;;
  try_catch
    (create_in_transaction (Php.coalesce companyId "") (Php.coalesce customerId "")
       payment invoiceData items invoiceNumber paymentNumber)
    (fun e => rollback ;;; throw ("Receipt creation failed: " ++ e)).

(** *** Receipt reversal: action [delete_receipt_with_cascade] *)

Record DeleteReceiptResponse := {
  dr_receipt_id : Z;
  dr_receipt_number : string;
  dr_invoice_id : option Z;
  dr_payment_id : option Z;
  dr_amount_reversed : Q
}.

(** A nullable integer column compared with [=]: [NULL] matches nothing. *)
Definition col_is (v : option Z) (id : Z) : bool :=
  match v with
  | Some x => (x =? id)%Z
  | None => false
  end.

(** A nullable integer column tested with [IN (...)]. *)
Definition col_in (v : option Z) (ids : list Z) : bool :=
  match v with
  | Some x => existsb (Z.eqb x) ids
  | None => false
  end.

(** [SELECT COALESCE(SUM(pa.amount), 0) FROM payment_allocations pa
     WHERE pa.invoice_id = $invoiceId] *)
Definition sum_allocations (invoiceId : Z) (t : Tables) : Q :=
  fold_left (fun acc a => acc + pa_amount a)
    (filter (fun a => (pa_invoice_id a =? invoiceId)%Z) (payment_allocations t)) 0.

(** "Determine new status based on payment state" *)
Definition new_status (paid_amount total_amount : Q) : Status :=
  if Qgeb paid_amount total_amount then paid
  else if Qgtb paid_amount 0 then partial
  else draft.

Definition update_invoice_row (invoiceId : Z) (status : Status) (paid_amount balance_due : Q)
    (i : Invoice) : Invoice :=
  if (inv_id i =? invoiceId)%Z
  then {| inv_id := inv_id i;
          inv_company_id := inv_company_id i;
          inv_customer_id := inv_customer_id i;
          inv_invoice_number := inv_invoice_number i;
          inv_invoice_date := inv_invoice_date i;
          inv_due_date := inv_due_date i;
          inv_status := status;
          inv_subtotal := inv_subtotal i;
          inv_tax_amount := inv_tax_amount i;
          inv_total_amount := inv_total_amount i;
          inv_paid_amount := paid_amount;
          inv_balance_due := balance_due;
          inv_created_by := inv_created_by i |}
  else i.

(** "Step 6: Recalculate invoice balance and status". *)
Definition recalculate_invoice (invoiceId : Z) : M unit :=
  invoice_check_result <- query_select (SelectInvoiceTotal invoiceId)
    (fun t => Some (find (fun i => (inv_id i =? invoiceId)%Z) (invoices t))) ;;
  match invoice_check_result with
  | None => throw "Failed to fetch invoice"
  | Some None => ret tt     (* warning only: invoice not found *)
  | Some (Some invoice) =>
      let total_amount := inv_total_amount invoice in
      paid_sum_result <- query_select (SumAllocations invoiceId)
                           (fun t => Some (sum_allocations invoiceId t)) ;;
      match paid_sum_result with
      | None => throw "Failed to calculate paid amount"
      | Some paid_amount =>
          let balance_due := Php.max0 (total_amount - paid_amount) in
          let status := new_status paid_amount total_amount in
          ok <- query_write (UpdateInvoice invoiceId status paid_amount balance_due)
                  (fun t => Some (with_invoices
                                    (map (update_invoice_row invoiceId status
                                            paid_amount balance_due) (invoices t)) t)) ;;
          unless_throw ok "Failed to update invoice status"
      end
  end.

(** Steps 1 to 7 and the commit, inside the transaction. *)
Definition delete_receipt_steps (receiptId : Z) : M DeleteReceiptResponse :=
  (* Step 1: Fetch receipt details before deletion *)
  receipt_result <- query_select (SelectReceipt receiptId)
    (fun t => Some (find (fun r => (rc_id r =? receiptId)%Z) (receipts t))) ;;
  match receipt_result with
  | None => throw "Database query error"
  | Some None => throw ("Receipt not found with id: " ++ Php.fmt_d receiptId)
  | Some (Some receipt) =>
      let receiptNumber := rc_receipt_number receipt in
      let invoiceId := rc_invoice_id receipt in
      let paymentId := rc_payment_id receipt in
      let receiptAmount := rc_total_amount receipt in
      (* Step 2: Delete receipt items (snapshot) *)
      ok <- query_write (DeleteReceiptItems receiptId)
              (fun t => Some (with_receipt_items
                                (filter (fun i => negb (ri_receipt_id i =? receiptId)%Z)
                                   (receipt_items t)) t)) ;;
      unless_throw ok "Failed to delete receipt items" ;;;
      (* Steps 3, 4, 5: audit log, allocations, payment *)
      (if Php.truthy_int paymentId then
         let paymentId := Php.coalesce paymentId 0%Z in
         ok <- query_write (DeleteAuditOfPayment paymentId)
                 (fun t => Some (with_payment_audit_log
                                   (filter (fun l => negb (al_payment_id l =? paymentId)%Z)
                                      (payment_audit_log t)) t)) ;;
         unless_throw ok "Failed to delete payment audit log" ;;;
         ok <- query_write (DeleteAllocationsOfPayment paymentId)
                 (fun t => Some (with_payment_allocations
                                   (filter (fun a => negb (pa_payment_id a =? paymentId)%Z)
                                      (payment_allocations t)) t)) ;;
         unless_throw ok "Failed to delete payment allocations" ;;;
         ok <- query_write (DeletePayment paymentId)
                 (fun t => Some (with_payments
                                   (filter (fun p => negb (pay_id p =? paymentId)%Z)
                                      (payments t)) t)) ;;
         unless_throw ok "Failed to delete payment"
       else ret tt) ;;;
      (* Step 6: Recalculate invoice balance and status *)
      (if Php.truthy_int invoiceId
       then recalculate_invoice (Php.coalesce invoiceId 0%Z)
       else ret tt) ;;;
      (* Step 7: Delete the receipt record itself *)
      ok <- query_write (DeleteReceipt receiptId)
              (fun t => Some (with_receipts
                                (filter (fun r => negb (rc_id r =? receiptId)%Z)
                                   (receipts t)) t)) ;;
      unless_throw ok "Failed to delete receipt" ;;;
      (* Commit transaction *)
      ok <- commit ;;
      unless_throw ok "Failed to commit transaction" ;;;
      ret {| dr_receipt_id := receiptId;
             dr_receipt_number := receiptNumber;
             dr_invoice_id := invoiceId;
             dr_payment_id := paymentId;
             dr_amount_reversed := receiptAmount |}
  end.

(** The body of the [try] block, from parameter extraction to commit. *)
Definition delete_receipt_in_transaction (receiptId : Php.value)
  : M DeleteReceiptResponse :=
  unless_throw (Php.truthy_value receiptId) "Missing receipt_id parameter" ;;;
  (* Cast receipt ID to integer *)
  let receiptId := Php.intval receiptId in
  unless_throw (negb (receiptId <=? 0)%Z)
    "Invalid receipt_id: must be a positive integer" ;;;
  (* Start transaction for atomicity *)
  ok <- begin_transaction ;;
  unless_throw ok "Failed to start transaction" ;;;
  delete_receipt_steps receiptId.

Definition delete_receipt_with_cascade (receiptId : Php.value) : M DeleteReceiptResponse :=
  try_catch (delete_receipt_in_transaction receiptId)
    (fun e => rollback ;;; throw ("Receipt deletion failed: " ++ e)).

(** *** Invoice deletion: action [delete_invoice_with_cascade] *)

Record DeleteInvoiceResponse := {
  di_invoice_id : Z;
  di_invoice_number : string;
  di_payments_count : nat
}.

(** "Step 2: Find all payments related to this invoice (directly or
    through allocations)": [SELECT DISTINCT p.id ...]. *)
Definition related_payment_ids (invoice_id : Z) (t : Tables) : list Z :=
  nodup Z.eq_dec
    (map pay_id
       (filter (fun p =>
                  col_is (pay_invoice_id p) invoice_id
                  || existsb (fun a => (pa_invoice_id a =? invoice_id)%Z
                                       && (pa_payment_id a =? pay_id p)%Z)
                       (payment_allocations t))
          (payments t))).

Definition delete_invoice_in_transaction (invoice_id : Z) : M DeleteInvoiceResponse :=
  (* Step 1: Fetch invoice details before deletion *)
  invoice_result <- query_select (SelectInvoice invoice_id)
    (fun t => Some (find (fun i => (inv_id i =? invoice_id)%Z) (invoices t))) ;;
  match invoice_result with
  | None | Some None => throw "Invoice not found"
  | Some (Some invoice) =>
      let invoice_number := inv_invoice_number invoice in
      (* Step 2 *)
      payments_result <- query_select (SelectRelatedPayments invoice_id)
                           (fun t => Some (related_payment_ids invoice_id t)) ;;
      let payment_ids := Php.coalesce payments_result [] in
      let has_payments := negb (Nat.eqb (List.length payment_ids) 0) in
      (* Step 3: Delete payment_audit_log entries for all related payments *)
      (if has_payments then
         ok <- query_write (DeleteAudit payment_ids invoice_id)
                 (fun t => Some (with_payment_audit_log
                                   (filter (fun l =>
                                              negb (existsb (Z.eqb (al_payment_id l)) payment_ids
                                                    || col_is (al_invoice_id l) invoice_id))
                                      (payment_audit_log t)) t)) ;;
         unless_throw ok "Failed to delete payment audit log"
       else ret tt) ;;;
      (* Step 4: Find and delete receipts linked to these payments *)
      (if has_payments then
         ok <- query_write (DeleteReceiptItemsOfPayments payment_ids)
                 (fun t =>
                    let receipt_ids :=
                      map rc_id (filter (fun r => col_in (rc_payment_id r) payment_ids)
                                   (receipts t)) in
                    Some (with_receipt_items
                            (filter (fun i => negb (existsb (Z.eqb (ri_receipt_id i)) receipt_ids))
                               (receipt_items t)) t)) ;;
         unless_throw ok "Failed to delete receipt items" ;;;
         ok <- query_write (DeleteReceiptsOfPayments payment_ids)
                 (fun t => Some (with_receipts
                                   (filter (fun r => negb (col_in (rc_payment_id r) payment_ids))
                                      (receipts t)) t)) ;;
         unless_throw ok "Failed to delete receipts"
       else ret tt) ;;;
      (* Step 5: Delete payment allocations related to this invoice *)
      ok <- query_write (DeleteAllocationsOfInvoice invoice_id)
              (fun t => Some (with_payment_allocations
                                (filter (fun a => negb (pa_invoice_id a =? invoice_id)%Z)
                                   (payment_allocations t)) t)) ;;
      unless_throw ok "Failed to delete payment allocations" ;;;
      (* Step 6: Delete all payments related to this invoice (directly linked) *)
      ok <- query_write (DeletePaymentsOfInvoice invoice_id)
              (fun t => Some (with_payments
                                (filter (fun p => negb (col_is (pay_invoice_id p) invoice_id))
                                   (payments t)) t)) ;;
      unless_throw ok "Failed to delete payments" ;;;
      (* Step 7: Delete credit note allocations related to this invoice *)
      ok <- query_write (DeleteCreditNoteAllocations invoice_id)
              (fun t => Some (with_credit_note_allocations
                                (filter (fun a => negb (cna_invoice_id a =? invoice_id)%Z)
                                   (credit_note_allocations t)) t)) ;;
      unless_throw ok "Failed to delete credit note allocations" ;;;
      (* Step 8: Delete stock movements related to this invoice *)
      ok <- query_write (DeleteStockMovements invoice_id)
              (fun t => Some (with_stock_movements
                                (filter (fun m => negb (String.eqb (sm_reference_type m) "INVOICE"
                                                        && (sm_reference_id m =? invoice_id)%Z))
                                   (stock_movements t)) t)) ;;
      unless_throw ok "Failed to delete stock movements" ;;;
      (* Step 9: Delete invoice items *)
      ok <- query_write (DeleteInvoiceItems invoice_id)
              (fun t => Some (with_invoice_items
                                (filter (fun i => negb (ii_invoice_id i =? invoice_id)%Z)
                                   (invoice_items t)) t)) ;;
      unless_throw ok "Failed to delete invoice items" ;;;
      (* Step 10: Delete the invoice record itself *)
      ok <- query_write (DeleteInvoice invoice_id)
              (fun t => Some (with_invoices
                                (filter (fun i => negb (inv_id i =? invoice_id)%Z)
                                   (invoices t)) t)) ;;
      unless_throw ok "Failed to delete invoice" ;;;
      (* Commit transaction *)
      ok <- commit ;;
      unless_throw ok "Failed to commit transaction" ;;;
      ret {| di_invoice_id := invoice_id;
             di_invoice_number := invoice_number;
             di_payments_count := List.length payment_ids |}
  end.

Definition delete_invoice_with_cascade (invoice_id : option Z) : M DeleteInvoiceResponse :=
  unless_throw (Php.truthy_int invoice_id) "Missing invoice_id parameter" ;;;
  let invoice_id := Php.coalesce invoice_id 0%Z in
  (* Start transaction for atomicity *)
  ok <- begin_transaction ;;
  unless_throw ok "Failed to start transaction" ;;;
  try_catch (delete_invoice_in_transaction invoice_id)
    (fun e => rollback ;;; throw ("Invoice deletion failed: " ++ e)).

End Engine.

(** ** The amounts of a creation, as PHP computes and writes them

    Lines 2283 to 2312 of the creation, and the amounts of the INSERT of step
    1, with the arithmetic of PHP floats (IEEE 754 binary64, round to nearest
    even) and the decimal text that the string interpolation writes into the
    statement.  A field of the request is the number its literal denotes;
    [(float)] reads it as the nearest double. *)

Module Binary64.

Definition zero : Php.float := SpecFloat.S754_zero false.
Definition add : Php.float -> Php.float -> Php.float := SpecFloat.SFadd Php.prec Php.emax.
Definition sub : Php.float -> Php.float -> Php.float := SpecFloat.SFsub Php.prec Php.emax.
Definition mul : Php.float -> Php.float -> Php.float := SpecFloat.SFmul Php.prec Php.emax.

(** [$x >= $y] and [$x > $y]: false when either side is [NAN]. *)
Definition geb (x y : Php.float) : bool := SpecFloat.SFleb y x.
Definition gtb (x y : Php.float) : bool := SpecFloat.SFltb y x.

(** [(float)($v ?? 0)] *)
Definition floatval (v : option Q) : Php.float := Php.float_of_Q (Php.coalesce v 0).

(** [($itemQuantity * $itemPrice) + $itemTax] *)
Definition item_line_total (item : ItemInput) : Php.float :=
  add (mul (floatval (item_quantity item)) (floatval (item_unit_price item)))
      (floatval (item_tax_amount item)).

(** "Calculate invoice amount from items" *)
Definition invoice_amount (items : list ItemInput) (invoiceData : InvoiceInput) : Php.float :=
  match items with
  | _ :: _ => fold_left (fun invoiceAmount item => add invoiceAmount (item_line_total item))
                items zero
  | [] => floatval (i_total_amount invoiceData)
  end.

(** "Determine invoice status": [(status, paidAmount, balanceDue)]. *)
Definition determine_invoice_status (paymentAmount invoiceAmount : Php.float)
  : Status * Php.float * Php.float :=
  if geb paymentAmount invoiceAmount then (paid, invoiceAmount, zero)
  else if gtb paymentAmount zero
       then (partial, paymentAmount, sub invoiceAmount paymentAmount)
       else (draft, zero, invoiceAmount).

(** The status and the three amounts in the VALUES of the INSERT into
    [invoices]. *)
Record InvoiceAmounts := {
  ia_status : Status;
  ia_total_amount : option Q;
  ia_paid_amount : option Q;
  ia_balance_due : option Q
}.

Definition invoice_amounts (req : CreateRequest) : InvoiceAmounts :=
  let paymentAmount := floatval (p_amount (req_payment req)) in
  let invoiceAmount := invoice_amount (req_items req) (req_invoice req) in
  let '(invoiceStatus, paidAmount, balanceDue) :=
    determine_invoice_status paymentAmount invoiceAmount in
  {| ia_status := invoiceStatus;
     ia_total_amount := Php.printed invoiceAmount;
     ia_paid_amount := Php.printed paidAmount;
     ia_balance_due := Php.printed balanceDue |}.


End Binary64.

(** ** Authorization: [verifyJWT], [requireAuthForModification],
       [canManageCompany]

    The engine above takes the authorization as granted.  This part models
    it, and then the two receipt actions together with it.

    The cryptography and the encodings are not modelled: an [AuthEnv] gives
    the signature that [hash_hmac] and [base64_encode] compute for a signing
    input, and the claims that [json_decode(base64_decode(...))] reads from a
    payload ([None] when the result is falsy).  A token is modelled from the
    point where the handler holds it: [bearer] is what the pattern
    [/Bearer\s+(\S+)/] captured from the Authorization header, [post_token]
    is [$_POST['token']].  Ids are modelled by their string value.  The
    SELECT on [profiles] is an oracle of the environment as well; it is not
    part of the statement log of [Conn].  As in the engine, [$conn->error] is
    left out of the messages, and neither [error_log] nor the HTTP status
    code is modelled. *)

Module Auth.

Record Claims := {
  cl_id : option string;     (* [$decoded['id']] *)
  cl_sub : option string;    (* [$decoded['sub']] *)
  cl_exp : option Z          (* [$decoded['exp']] *)
}.

(** A row of [profiles], as selected: id, email, role, status, company_id. *)
Record Profile := {
  prof_id : string;
  prof_email : string;
  prof_role : string;
  prof_status : string;
  prof_company_id : option string
}.

(** The array [requireAuthForModification] returns. *)
Record User := {
  u_id : option string;
  u_email : string;
  u_role : string;
  u_status : string;
  u_company_id : option string;
  u_bypass_mode : bool       (* [isset($user['bypass_mode']) && $user['bypass_mode']] *)
}.

Record AuthEnv := {
  sign : string -> string;              (* [base64_encode(hash_hmac('sha256', $input, $secret, true))] *)
  decode : string -> option Claims;     (* [json_decode(base64_decode($payload), true)] *)
  now : Z;                              (* [time()] *)
  prepare_fails : bool;                 (* [$conn->prepare] returned false *)
  find_profile : string -> option Profile
}.

Record AuthRequest := {
  bearer : option string;
  post_token : option string
}.

(** [explode($separator, $s)] *)
Fixpoint explode (separator : ascii) (s : string) : list string :=
  match s with
  | EmptyString => [EmptyString]
  | String a rest =>
      if Ascii.eqb a separator then EmptyString :: explode separator rest
      else match explode separator rest with
           | part :: parts => String a part :: parts
           | [] => [String a EmptyString]
           end
  end.

(** ASCII case folding, as [stripos] does. *)
Definition lower (a : ascii) : ascii :=
  let n := nat_of_ascii a in
  if ((65 <=? n) && (n <=? 90))%nat then ascii_of_nat (n + 32) else a.

Fixpoint lowercase (s : string) : string :=
  match s with
  | EmptyString => EmptyString
  | String a rest => String (lower a) (lowercase rest)
  end.

Fixpoint contains (needle haystack : string) : bool :=
  String.prefix needle haystack
  || match haystack with
     | EmptyString => false
     | String _ rest => contains needle rest
     end.

(** [stripos($haystack, $needle) !== false] *)
Definition stripos_found (haystack needle : string) : bool :=
  contains (lowercase needle) (lowercase haystack).

Definition bypass_user : User :=
  {| u_id := None; u_email := "system"; u_role := "admin"; u_status := "active";
     u_company_id := None; u_bypass_mode := true |}.

Definition user_of_profile (p : Profile) : User :=
  {| u_id := Some (prof_id p); u_email := prof_email p; u_role := prof_role p;
     u_status := prof_status p; u_company_id := prof_company_id p;
     u_bypass_mode := false |}.

(** [$action === 'update' && ($table === 'companies' || $table === 'profiles')] *)
Definition bypass_allowed (action table : string) : bool :=
  String.eqb action "update"
  && (String.eqb table "companies" || String.eqb table "profiles").

Section Authorization.

Variable aenv : AuthEnv.

(** [$decoded['exp'] < time()]; an absent [exp] is [null], which compares
    below any non-zero time. *)
Definition expired (decoded : Claims) : bool :=
  match cl_exp decoded with
  | Some exp => (exp <? now aenv)%Z
  | None => negb (now aenv =? 0)%Z
  end.

Definition verifyJWT (token : option string) : option Claims :=
  if negb (Php.truthy token) then None
  else
    match explode "."%char (Php.coalesce token "") with
    | [header; payload; signature] =>
        if negb (String.eqb signature (sign aenv (header ++ "." ++ payload))) then None
        else
          match decode aenv payload with
          | None => None
          | Some decoded => if expired decoded then None else Some decoded
          end
    | _ => None
    end.

Definition requireAuthForModification (request : AuthRequest) (action table : string)
  : Res User :=
  let token := bearer request in
  (* Fallback to POST data for compatibility *)
  let token := if negb (Php.truthy token) then post_token request else token in
  if negb (Php.truthy token) then
    if bypass_allowed action table then Ok bypass_user
    else Err "Authentication required. Missing authorization token."
  else
    (* Try to verify token first (strict validation) *)
    let decoded := verifyJWT token in
    (* lenient decode, without verifying the signature *)
    let decoded :=
      match decoded with
      | Some d => Some d
      | None =>
          match explode "."%char (Php.coalesce token "") with
          | [_; payload; _] => decode aenv payload
          | _ => None
          end
      end in
    match decoded with
    | None =>
        if bypass_allowed action table then Ok bypass_user
        else Err "Invalid or expired authentication token"
    | Some decoded =>
        let user_id := match cl_id decoded with
                       | Some id => Some id
                       | None => cl_sub decoded
                       end in
        if negb (Php.truthy user_id) then Err "Invalid token - no user ID"
        else if prepare_fails aenv then Err "Database error: "
        else
          match find_profile aenv (Php.coalesce user_id "") with
          | None => Err "User not found"
          | Some profile =>
              if negb (String.eqb (prof_status profile) "active")
              then Err ("User account is not active. Status: " ++ prof_status profile)
              else
                let is_admin := stripos_found (prof_role profile) "admin"
                                || String.eqb (prof_role profile) "super_admin" in
                if negb is_admin
                then Err ("Insufficient permissions. User role must be admin to perform "
                          ++ action ++ ".")
                else Ok (user_of_profile profile)
          end
    end.

End Authorization.

(** [canManageCompany($user, $company_id)], the target id by its string
    value. *)
Definition canManageCompany (user : User) (company_id : string) : bool :=
  if u_bypass_mode user then true
  else if String.eqb (u_role user) "super_admin" then true
  else String.eqb (Php.coalesce (u_company_id user) "") company_id.

End Auth.

(** ** The two receipt actions, with their authorization *)

Definition with_auth_id (id : option string) (env : Env) : Env :=
  {| fault := fault env; current_year := current_year env; today := today env;
     fresh_receipt_number := fresh_receipt_number env; auth_id := id |}.

(** Action [create_receipt_with_items_transaction]: the authorization comes
    first, outside any try block. *)
Definition create_receipt_action (aenv : Auth.AuthEnv) (env : Env)
    (request : Auth.AuthRequest) (req : CreateRequest) : M CreateResponse :=
  match Auth.requireAuthForModification aenv request
          "create_receipt_with_items_transaction" "receipts" with
  | Err e => throw e
  | Ok auth => create_receipt_with_items_transaction (with_auth_id (Auth.u_id auth) env) req
  end.

(** Action [delete_receipt_with_cascade]: the authorization is the first
    statement of the try block. *)
Definition delete_receipt_action (aenv : Auth.AuthEnv) (env : Env)
    (request : Auth.AuthRequest) (receipt_id : Php.value) : M DeleteReceiptResponse :=
  try_catch
    (match Auth.requireAuthForModification aenv request
             "delete_receipt_with_cascade" "receipts" with
     | Err e => throw e
     | Ok _ => delete_receipt_in_transaction env receipt_id
     end)
    (fun e => rollback ;;; throw ("Receipt deletion failed: " ++ e))%php.
(** * Vocabulary of the properties *)

(** The status written by the creation path. *)
Definition creation_status (paymentAmount invoiceAmount : Q) : Status :=
  fst (fst (determine_invoice_status paymentAmount invoiceAmount)).

Definition creation_paid_amount (paymentAmount invoiceAmount : Q) : Q :=
  snd (fst (determine_invoice_status paymentAmount invoiceAmount)).

Definition creation_balance_due (paymentAmount invoiceAmount : Q) : Q :=
  snd (determine_invoice_status paymentAmount invoiceAmount).

(** The counter value of a (type, year): the row's number, 0 without a row. *)
Definition counter (type : string) (year : Z) (t : Tables) : Z :=
  match document_sequences t with
  | Some rows =>
      match find (seq_match type year) rows with
      | Some r => sq_sequence_number r
      | None => 0%Z
      end
  | None => 0%Z
  end.

Definition has_counter_row (type : string) (year : Z) (t : Tables) : bool :=
  match document_sequences t with
  | Some rows => existsb (seq_match type year) rows
  | None => false
  end.

(** The rows of every table but [document_sequences]. *)
Definition business_rows (t : Tables) : Tables := with_document_sequences None t.

Definition is_sequence_stmt (s : Stmt) : bool :=
  match s with
  | SeqTableCheck | SeqCreateTable | SeqSelect _ _ | SeqInsert _ _
  | SeqUpdate _ _ | SeqFetch _ _ => true
  | _ => false
  end.

(** The table [document_sequences] after one allocation for (type, year). *)
Definition sequences_after (type : string) (year : Z) (t : Tables) : list SeqRow :=
  let rows := Php.coalesce (document_sequences t) [] in
  map (seq_bump type year)
    (if existsb (seq_match type year) rows then rows
     else rows ++ [{| sq_document_type := type; sq_year := year;
                      sq_sequence_number := 0 |}]).

(** What one allocation for (type, year) leaves in the store: the counter
    row exists and holds the previous value plus one, no other counter and
    no other table changed. *)
Definition allocated (type : string) (year : Z) (before after : Tables) : Prop :=
  has_counter_row type year after = true
  /\ counter type year after = (counter type year before + 1)%Z
  /\ (forall type' year', (type', year') <> (type, year) ->
                          counter type' year' after = counter type' year' before)
  /\ business_rows after = business_rows before.

(** A state predicate [I] that no statement of a handler breaks, whatever
    fails. *)
Definition preserved (I : Conn -> Prop) {A} (m : M A) : Prop :=
  forall c, I c -> I (snd (m c)).

(** Weaker: [I] is only needed when the handler throws. *)
Definition preserved_on_error (I : Conn -> Prop) {A} (m : M A) : Prop :=
  forall c, I c -> forall e c', m c = (Err e, c') -> I c'.

(** The six tables written by the creation path hold the same rows. *)
Definition same_documents (before after : Tables) : Prop :=
  invoices after = invoices before
  /\ invoice_items after = invoice_items before
  /\ payments after = payments before
  /\ payment_allocations after = payment_allocations before
  /\ receipts after = receipts before
  /\ receipt_items after = receipt_items before.

(** The open transaction (if any) started from the rows [x]. *)
Definition txn_is (x : option Tables) (c : Conn) : Prop := txn c = x.

(** Every table but [document_sequences] holds the rows of [b]. *)
Definition rows_are (b : Tables) (c : Conn) : Prop := business_rows (tables c) = b.

(** What the sequence allocator leaves alone: the rows of the other tables,
    the AUTO_INCREMENT counters and the transaction. *)
Definition outside_sequences (b : Tables) (a : AutoInc) (x : option Tables) (c : Conn)
  : Prop :=
  rows_are b c /\ autoinc c = a /\ txn_is x c.

(** A handler that throws from every state. *)
Definition always_throws {A} (m : M A) : Prop :=
  forall c, exists e c', m c = (Err e, c').

(** A request that passes the validation of the creation handler. *)
Definition valid_request (req : CreateRequest) : Prop :=
  Php.truthy (req_company_id req) = true
  /\ Php.truthy (req_customer_id req) = true
  /\ Php.isset (p_amount (req_payment req)) = true.

(** The caller supplies neither an invoice number nor a payment number. *)
Definition numbers_to_draw (req : CreateRequest) : Prop :=
  Php.truthy (i_invoice_number (req_invoice req)) = false
  /\ Php.truthy (p_payment_number (req_payment req)) = false.

(** The connection after a call that only sent the statements [sent] and
    left every row and counter as it was, no transaction open. *)
Definition untouched (c : Conn) (sent : list Stmt) : Conn :=
  {| tables := tables c; autoinc := autoinc c; txn := None; log := log c ++ sent |}.

Definition invoice_exists (id : Z) (t : Tables) : bool :=
  Php.isset (find (fun i => (inv_id i =? id)%Z) (invoices t)).

Definition receipt_exists (id : Z) (t : Tables) : bool :=
  Php.isset (find (fun r => (rc_id r =? id)%Z) (receipts t)).

(** *** Receipt reversal, as a function of the rows before the call *)






(** *** Creation, as a function of the request *)

(** The rows of [invoice_items] written for [items], numbered from [index]. *)
Fixpoint invoice_item_rows (invoiceId : Z) (index : nat) (items : list ItemInput)
  : list InvoiceItem :=
  match items with
  | [] => []
  | item :: rest =>
      invoice_item_row invoiceId index item :: invoice_item_rows invoiceId (S index) rest
  end.

Fixpoint receipt_item_rows (receiptId : Z) (index : nat) (items : list ItemInput)
  : list ReceiptItem :=
  match items with
  | [] => []
  | item :: rest =>
      receipt_item_row receiptId index item :: receipt_item_rows receiptId (S index) rest
  end.

(** The INSERT statements of one of the item loops. *)
Fixpoint item_statements (insert : nat -> Stmt) (index : nat) (items : list ItemInput)
  : list Stmt :=
  match items with
  | [] => []
  | _ :: rest => insert (index + 1)%nat :: item_statements insert (S index) rest
  end.

(** The statements of the creation's transaction on which its rows depend,
    in the order sent: the begin, the INSERTs and the commit. *)
Definition creation_writes (req : CreateRequest) : list Stmt :=
  [BeginTransaction; InsertInvoice]
  ++ item_statements InsertInvoiceItem 0 (req_items req)
  ++ [InsertPayment; InsertAllocation; InsertReceipt]
  ++ item_statements InsertReceiptItem 0 (req_items req)
  ++ [CommitTransaction].

(** A statement that changes rows, or begins or commits a transaction. *)
Definition is_decisive (s : Stmt) : bool :=
  match s with
  | BeginTransaction | CommitTransaction => true
  | _ => is_write s
  end.

(** Whenever [m] returns, it has sent the statements [sent] after those of
    the log, and none of the decisive ones among them had failed. *)
Definition checks_its_statements (env : Env) {A} (m : M A) : Prop :=
  forall c a c',
    m c = (Ok a, c') ->
    exists sent,
      log c' = (log c ++ sent)%list
      /\ forall s, In s sent -> is_decisive s = true -> fault env s = false.

(** [m] sends the one statement [s], and when its result passes [test] the
    statement had not failed. *)
Definition checked_by (env : Env) {X} (m : M X) (s : Stmt) (test : X -> bool) : Prop :=
  forall c x c',
    m c = (Ok x, c') ->
    log c' = (log c ++ [s])%list /\ (test x = true -> fault env s = false).

(** Sum of a column of amounts, as [SUM(...)] adds it. *)
Definition total_of {A} (amount : A -> Q) (rows : list A) : Q :=
  fold_left (fun acc r => acc + amount r) rows 0.

(** What a successful creation leaves: one new row in [invoices],
    [payments], [payment_allocations] and [receipts], with the next
    AUTO_INCREMENT ids, the item rows, and an answer whose rows, when a
    re-read returned one, are the stored ones. *)
Definition created (req : CreateRequest) (before : Conn)
    (resp : CreateResponse) (after : Conn) : Prop :=
  let P := Php.coalesce (p_amount (req_payment req)) 0 in
  let T := invoice_amount (req_items req) (req_invoice req) in
  let iid := Z.pos (next_invoice_id (autoinc before)) in
  let pid := Z.pos (next_payment_id (autoinc before)) in
  let aid := Z.pos (next_allocation_id (autoinc before)) in
  let rid := Z.pos (next_receipt_id (autoinc before)) in
  exists inv pay rc,
    (invoices (tables after) = (invoices (tables before) ++ [inv])%list
     /\ inv_id inv = iid
     /\ inv_status inv = creation_status P T
     /\ inv_subtotal inv = 0
     /\ inv_tax_amount inv = 0
     /\ inv_total_amount inv = T
     /\ inv_paid_amount inv = creation_paid_amount P T
     /\ inv_balance_due inv = creation_balance_due P T)
    /\ invoice_items (tables after)
       = (invoice_items (tables before) ++ invoice_item_rows iid 0 (req_items req))%list
    /\ (payments (tables after) = (payments (tables before) ++ [pay])%list
        /\ pay_id pay = pid /\ pay_invoice_id pay = Some iid /\ pay_amount pay = P)
    /\ payment_allocations (tables after)
       = (payment_allocations (tables before)
          ++ [{| pa_id := aid; pa_payment_id := pid; pa_invoice_id := iid;
                 pa_amount := P |}])%list
    /\ (receipts (tables after) = (receipts (tables before) ++ [rc])%list
        /\ rc_id rc = rid /\ rc_payment_id rc = Some pid /\ rc_invoice_id rc = Some iid
        /\ rc_total_amount rc = P /\ rc_excess_amount rc = Php.max0 (P - T))
    /\ receipt_items (tables after)
       = (receipt_items (tables before) ++ receipt_item_rows rid 0 (req_items req))%list
    /\ ((forall i, resp_invoice resp = Some i ->
                   find (fun i => (inv_id i =? iid)%Z) (invoices (tables after)) = Some i)
        /\ (forall p, resp_payment resp = Some p ->
                      find (fun p => (pay_id p =? pid)%Z) (payments (tables after)) = Some p)
        /\ (forall r, resp_receipt resp = Some r ->
                      find (fun r => (rc_id r =? rid)%Z) (receipts (tables after)) = Some r)
        /\ resp_allocation_id resp = aid
        /\ resp_excess_amount resp = Php.max0 (P - T))
    /\ txn after = None.

(** [(float)$payment['amount']] *)
Definition payment_amount (req : CreateRequest) : Q :=
  Php.coalesce (p_amount (req_payment req)) 0.

(** ** Sample stores and requests *)

Module Sample.

Definition env_with (f : Stmt -> bool) : Env :=
  {| fault := f; current_year := 2026; today := "2026-11-03";
     fresh_receipt_number := "REC-123456ABCDEF"; auth_id := Some "7" |}.

(** No statement fails. *)
Definition env_ok : Env := env_with (fun _ => false).

(** The INSERT into [payment_allocations] fails. *)
Definition env_allocation_fails : Env :=
  env_with (fun s => match s with InsertAllocation => true | _ => false end).

(** Every INSERT into [receipt_items] fails. *)
Definition env_receipt_items_fail : Env :=
  env_with (fun s => match s with InsertReceiptItem _ => true | _ => false end).

Definition no_rows : Tables :=
  {| invoices := []; invoice_items := []; payments := []; payment_allocations := [];
     receipts := []; receipt_items := []; payment_audit_log := [];
     credit_note_allocations := []; stock_movements := []; document_sequences := None |}.

Definition fresh_conn : Conn :=
  {| tables := no_rows;
     autoinc := {| next_invoice_id := 1; next_payment_id := 1;
                   next_allocation_id := 1; next_receipt_id := 1 |};
     txn := None; log := [] |}.

Definition nails : ItemInput :=
  {| item_description := Some "nails"; item_quantity := Some (2 # 1);
     item_unit_price := Some (50 # 1); item_tax_amount := Some (16 # 1);
     item_tax_percentage := Some (16 # 1) |}.

Definition pay (amount : Q) : PaymentInput :=
  {| p_amount := Some amount; p_payment_date := None; p_payment_method := None;
     p_payment_number := None; p_reference_number := None |}.

(** One item with line total 116, paid with [amount]. *)
Definition request (amount : Q) : CreateRequest :=
  {| req_company_id := Some "1"; req_customer_id := Some "9";
     req_payment := pay amount;
     req_invoice := {| i_invoice_number := None; i_total_amount := None |};
     req_items := [nails] |}.

Definition item (quantity unit_price : Q) : ItemInput :=
  {| item_description := None; item_quantity := Some quantity;
     item_unit_price := Some unit_price; item_tax_amount := None;
     item_tax_percentage := None |}.

Definition request_for (items : list ItemInput) (amount : Q) : CreateRequest :=
  {| req_company_id := Some "1"; req_customer_id := Some "9";
     req_payment := pay amount;
     req_invoice := {| i_invoice_number := None; i_total_amount := None |};
     req_items := items |}.



(** Three units at 0.7, paid with 2.1. *)
Definition seven_tenths : CreateRequest := request_for [item 3 (7 # 10)] (21 # 10).




(** A store whose only row is receipt 4096, cash tied to no payment and no
    invoice. *)
Definition cash_receipt_4096 : Conn :=
  {| tables :=
       with_receipts
         [{| rc_id := 4096; rc_company_id := "1"; rc_payment_id := None;
             rc_invoice_id := None; rc_receipt_number := "REC-004096EEEEEE";
             rc_receipt_date := "2026-11-03"; rc_receipt_type := "direct_receipt";
             rc_total_amount := 40 # 1; rc_excess_amount := 0;
             rc_excess_handling := "pending"; rc_created_by := Some "7" |}]
         no_rows;
     autoinc := {| next_invoice_id := 1; next_payment_id := 1;
                   next_allocation_id := 1; next_receipt_id := 4097 |};
     txn := None; log := [] |}.

(** What the balance fields of the invoices are. *)
Definition balances (c : Conn) : list (Q * Q * Status) :=
  map (fun i => (inv_paid_amount i, inv_balance_due i, inv_status i))
    (invoices (tables c)).

End Sample.

(** ** Vocabulary of the further properties *)

From Stdlib Require DecimalPos.

(** *** Invoice deletion, as a function of the rows before the call *)

(** The receipts of the payments [pids]. *)
Definition receipts_of_payments (pids : list Z) (t : Tables) : list Z :=
  map rc_id (filter (fun r => col_in (rc_payment_id r) pids) (receipts t)).

(** The rows after invoice [id] has been deleted, [pids] being the payment
    ids that step 2 collected. *)
Definition invoice_deleted (id : Z) (pids : list Z) (t : Tables) : Tables :=
  let has_payments := negb (Nat.eqb (List.length pids) 0) in
  {| invoices := filter (fun i => negb (inv_id i =? id)%Z) (invoices t);
     invoice_items := filter (fun i => negb (ii_invoice_id i =? id)%Z) (invoice_items t);
     payments := filter (fun p => negb (col_is (pay_invoice_id p) id)) (payments t);
     payment_allocations :=
       filter (fun a => negb (pa_invoice_id a =? id)%Z) (payment_allocations t);
     receipts :=
       if has_payments
       then filter (fun r => negb (col_in (rc_payment_id r) pids)) (receipts t)
       else receipts t;
     receipt_items :=
       if has_payments
       then filter (fun i => negb (existsb (Z.eqb (ri_receipt_id i))
                                     (receipts_of_payments pids t)))
              (receipt_items t)
       else receipt_items t;
     payment_audit_log :=
       if has_payments
       then filter (fun l => negb (existsb (Z.eqb (al_payment_id l)) pids
                                   || col_is (al_invoice_id l) id))
              (payment_audit_log t)
       else payment_audit_log t;
     credit_note_allocations :=
       filter (fun a => negb (cna_invoice_id a =? id)%Z) (credit_note_allocations t);
     stock_movements :=
       filter (fun m => negb (String.eqb (sm_reference_type m) "INVOICE"
                              && (sm_reference_id m =? id)%Z))
         (stock_movements t);
     document_sequences := document_sequences t |}.

(** The statements of a complete invoice deletion, in the order sent. *)
Definition invoice_deletion_statements (id : Z) (pids : list Z) : list Stmt :=
  ([BeginTransaction; SelectInvoice id; SelectRelatedPayments id]
   ++ (if negb (Nat.eqb (List.length pids) 0)
       then [DeleteAudit pids id; DeleteReceiptItemsOfPayments pids;
             DeleteReceiptsOfPayments pids]
       else [])
   ++ [DeleteAllocationsOfInvoice id; DeletePaymentsOfInvoice id;
       DeleteCreditNoteAllocations id; DeleteStockMovements id;
       DeleteInvoiceItems id; DeleteInvoice id; CommitTransaction])%list.

(** The connection a complete invoice deletion leaves. *)
Definition after_invoice_deletion (id : Z) (pids : list Z) (c : Conn) : Conn :=
  {| tables := invoice_deleted id pids (tables c);
     autoinc := autoinc c;
     txn := None;
     log := (log c ++ invoice_deletion_statements id pids)%list |}.

(** Payment [p] is allocated to invoice [id]. *)
Definition allocated_to (id : Z) (p : Payment) (t : Tables) : bool :=
  existsb (fun a => (pa_invoice_id a =? id)%Z && (pa_payment_id a =? pay_id p)%Z)
    (payment_allocations t).

(** Every row of [after] is a row of [before]: nothing was added or changed. *)
Definition only_removed {A} (before after : list A) : Prop :=
  forall r, In r after -> In r before.

(** The AUTO_INCREMENT counters are [a]. *)
Definition autoinc_is (a : AutoInc) (c : Conn) : Prop := autoinc c = a.

(** Payment [p] is one of those step 2 of the invoice deletion collects. *)
Definition related_payment (id : Z) (p : Payment) (t : Tables) : bool :=
  col_is (pay_invoice_id p) id || allocated_to id p t.

(** ** A sample ledger *)

Module Ledger.

Definition invoice (id : Z) (number : string) (total paid_amount : Q) (status : Status)
  : Invoice :=
  {| inv_id := id; inv_company_id := "1"; inv_customer_id := "9";
     inv_invoice_number := number;
     inv_invoice_date := "2026-11-03"; inv_due_date := "2026-11-03";
     inv_status := status; inv_subtotal := 0; inv_tax_amount := 0;
     inv_total_amount := total; inv_paid_amount := paid_amount;
     inv_balance_due := total - paid_amount; inv_created_by := Some "7" |}.

Definition item (invoice_id : Z) (description : string) (line_total : Q) (sort_order : nat)
  : InvoiceItem :=
  {| ii_invoice_id := invoice_id; ii_description := description; ii_quantity := 1;
     ii_unit_price := line_total; ii_tax_percentage := 0; ii_tax_amount := 0;
     ii_line_total := line_total; ii_sort_order := sort_order |}.

Definition payment (id : Z) (invoice_id : option Z) (number : string) (amount : Q)
  : Payment :=
  {| pay_id := id; pay_company_id := "1"; pay_invoice_id := invoice_id;
     pay_payment_date := "2026-11-03"; pay_payment_method := "cash";
     pay_amount := amount; pay_payment_number := number;
     pay_reference_number := None; pay_created_by := Some "7" |}.

Definition receipt (id : Z) (payment_id invoice_id : option Z) (number : string)
    (amount : Q) : Receipt :=
  {| rc_id := id; rc_company_id := "1"; rc_payment_id := payment_id;
     rc_invoice_id := invoice_id; rc_receipt_number := number;
     rc_receipt_date := "2026-11-03"; rc_receipt_type := "direct_receipt";
     rc_total_amount := amount; rc_excess_amount := 0;
     rc_excess_handling := "pending"; rc_created_by := Some "7" |}.

Definition receipt_item (receipt_id : Z) (description : string) (line_total : Q)
  : ReceiptItem :=
  {| ri_receipt_id := receipt_id; ri_description := description; ri_quantity := 1;
     ri_unit_price := line_total; ri_tax_percentage := 0; ri_tax_amount := 0;
     ri_line_total := line_total; ri_sort_order := 1 |}.

(** Invoice 1 (total 1000) is paid by payment 1 (600) and by 200 of payment
    2; payment 2 (700) belongs to invoice 2 (total 500), which it pays in
    full.  Receipt 3 records cash that is tied to no payment and no invoice,
    receipt 4 a payment on an invoice that no longer exists. *)
Definition rows : Tables :=
  {| invoices := [invoice 1 "INV-2026-0001" (1000 # 1) (800 # 1) partial;
                  invoice 2 "INV-2026-0002" (500 # 1) (500 # 1) paid];
     invoice_items := [item 1 "cement" (700 # 1) 1; item 1 "sand" (300 # 1) 2;
                       item 2 "nails" (500 # 1) 1];
     payments := [payment 1 (Some 1%Z) "PAY-2026-0001" (600 # 1);
                  payment 2 (Some 2%Z) "PAY-2026-0002" (700 # 1);
                  payment 5 (Some 8%Z) "PAY-2026-0005" (50 # 1)];
     payment_allocations :=
       [{| pa_id := 1; pa_payment_id := 1; pa_invoice_id := 1; pa_amount := 600 # 1 |};
        {| pa_id := 2; pa_payment_id := 2; pa_invoice_id := 2; pa_amount := 500 # 1 |};
        {| pa_id := 3; pa_payment_id := 2; pa_invoice_id := 1; pa_amount := 200 # 1 |};
        {| pa_id := 4; pa_payment_id := 5; pa_invoice_id := 8; pa_amount := 50 # 1 |}];
     receipts := [receipt 1 (Some 1%Z) (Some 1%Z) "REC-000001AAAAAA" (600 # 1);
                  receipt 2 (Some 2%Z) (Some 2%Z) "REC-000002BBBBBB" (700 # 1);
                  receipt 3 None None "REC-000003CCCCCC" (40 # 1);
                  receipt 4 (Some 5%Z) (Some 8%Z) "REC-000004DDDDDD" (50 # 1)];
     receipt_items := [receipt_item 1 "cement" (700 # 1); receipt_item 2 "nails" (500 # 1);
                       receipt_item 3 "cash sale" (40 # 1)];
     payment_audit_log := [{| al_payment_id := 1; al_invoice_id := Some 1%Z |};
                           {| al_payment_id := 2; al_invoice_id := Some 2%Z |};
                           {| al_payment_id := 5; al_invoice_id := Some 8%Z |}];
     credit_note_allocations := [{| cna_invoice_id := 1 |}; {| cna_invoice_id := 2 |}];
     stock_movements := [{| sm_reference_type := "INVOICE"; sm_reference_id := 1 |};
                         {| sm_reference_type := "INVOICE"; sm_reference_id := 2 |};
                         {| sm_reference_type := "RESTOCK"; sm_reference_id := 1 |}];
     document_sequences :=
       Some [{| sq_document_type := "INV"; sq_year := 2026; sq_sequence_number := 2 |};
             {| sq_document_type := "PAY"; sq_year := 2026; sq_sequence_number := 5 |}] |}.

Definition conn : Conn :=
  {| tables := rows;
     autoinc := {| next_invoice_id := 9; next_payment_id := 6;
                   next_allocation_id := 5; next_receipt_id := 5 |};
     txn := None; log := [] |}.

(** The statements selected by [failing] fail, the others succeed. *)
Definition env_failing (failing : Stmt -> bool) : Env := Sample.env_with failing.

Definition is_delete_invoice (s : Stmt) : bool :=
  match s with DeleteInvoice _ => true | _ => false end.

Definition is_select_related_payments (s : Stmt) : bool :=
  match s with SelectRelatedPayments _ => true | _ => false end.

End Ledger.

(** *** Receipt deletion, for any receipt *)

(** Steps 3 to 5: the rows once the payment of the receipt is gone. *)
Definition payment_reversed (paymentId : option Z) (t : Tables) : Tables :=
  if Php.truthy_int paymentId then
    let pid := Php.coalesce paymentId 0%Z in
    {| invoices := invoices t;
       invoice_items := invoice_items t;
       payments := filter (fun p => negb (pay_id p =? pid)%Z) (payments t);
       payment_allocations :=
         filter (fun a => negb (pa_payment_id a =? pid)%Z) (payment_allocations t);
       receipts := receipts t;
       receipt_items := receipt_items t;
       payment_audit_log :=
         filter (fun l => negb (al_payment_id l =? pid)%Z) (payment_audit_log t);
       credit_note_allocations := credit_note_allocations t;
       stock_movements := stock_movements t;
       document_sequences := document_sequences t |}
  else t.

(** Step 6 on invoice [iid]: paid amount, balance and status recomputed
    from the allocations; nothing when the invoice is not in the store. *)
Definition invoice_recalculated (iid : Z) (t : Tables) : Tables :=
  match find (fun i => (inv_id i =? iid)%Z) (invoices t) with
  | Some invoice =>
      let paid_amount := sum_allocations iid t in
      let total := inv_total_amount invoice in
      with_invoices
        (map (update_invoice_row iid (new_status paid_amount total) paid_amount
                (Php.max0 (total - paid_amount))) (invoices t)) t
  | None => t
  end.

(** The rows after the deletion of the stored receipt [receipt]. *)
Definition receipt_deleted (receipt : Receipt) (t : Tables) : Tables :=
  let rid := rc_id receipt in
  let t2 := with_receipt_items
              (filter (fun i => negb (ri_receipt_id i =? rid)%Z) (receipt_items t)) t in
  let t5 := payment_reversed (rc_payment_id receipt) t2 in
  let t6 := if Php.truthy_int (rc_invoice_id receipt)
            then invoice_recalculated (Php.coalesce (rc_invoice_id receipt) 0%Z) t5
            else t5 in
  with_receipts (filter (fun r => negb (rc_id r =? rid)%Z) (receipts t6)) t6.

(** The columns of an invoice that a receipt deletion never writes. *)
Definition invoice_header (i : Invoice) : Z * string * string * string * Q :=
  (inv_id i, inv_company_id i, inv_customer_id i, inv_invoice_number i, inv_total_amount i).

(** *** Reading a sequence number back *)

(** The number that a string of decimal digits denotes. *)
Definition sequence_of_digits (s : string) : option Z :=
  option_map Z.of_uint (NilEmpty.uint_of_string s).

(** ** Sample fault oracles *)

Module Faults.

Definition is_fetch (s : Stmt) : bool :=
  match s with SeqFetch _ _ => true | _ => false end.

Definition is_commit (s : Stmt) : bool :=
  match s with CommitTransaction => true | _ => false end.

End Faults.

(** *** Creation: the rows written, column by column *)

(** [$paymentDate = $payment['payment_date'] ?? date('Y-m-d')] *)
Definition payment_date (env : Env) (req : CreateRequest) : string :=
  Php.coalesce (p_payment_date (req_payment req)) (today env).

Definition new_invoice (env : Env) (req : CreateRequest) (id : Z) (number : string)
  : Invoice :=
  let P := payment_amount req in
  let T := invoice_amount (req_items req) (req_invoice req) in
  {| inv_id := id;
     inv_company_id := Php.coalesce (req_company_id req) "";
     inv_customer_id := Php.coalesce (req_customer_id req) "";
     inv_invoice_number := number;
     inv_invoice_date := payment_date env req;
     inv_due_date := payment_date env req;
     inv_status := creation_status P T;
     inv_subtotal := 0;
     inv_tax_amount := 0;
     inv_total_amount := T;
     inv_paid_amount := creation_paid_amount P T;
     inv_balance_due := creation_balance_due P T;
     inv_created_by := created_by env |}.

Definition new_payment (env : Env) (req : CreateRequest) (id invoice_id : Z)
    (number : string) : Payment :=
  {| pay_id := id;
     pay_company_id := Php.coalesce (req_company_id req) "";
     pay_invoice_id := Some invoice_id;
     pay_payment_date := payment_date env req;
     pay_payment_method := Php.coalesce (p_payment_method (req_payment req)) "cash";
     pay_amount := payment_amount req;
     pay_payment_number := number;
     pay_reference_number :=
       if Php.truthy (p_reference_number (req_payment req))
       then p_reference_number (req_payment req) else None;
     pay_created_by := created_by env |}.

Definition new_receipt (env : Env) (req : CreateRequest) (id payment_id invoice_id : Z)
  : Receipt :=
  {| rc_id := id;
     rc_company_id := Php.coalesce (req_company_id req) "";
     rc_payment_id := Some payment_id;
     rc_invoice_id := Some invoice_id;
     rc_receipt_number := fresh_receipt_number env;
     rc_receipt_date := payment_date env req;
     rc_receipt_type := "direct_receipt";
     rc_total_amount := payment_amount req;
     rc_excess_amount :=
       Php.max0 (payment_amount req - invoice_amount (req_items req) (req_invoice req));
     rc_excess_handling := "pending";
     rc_created_by := created_by env |}.

(** How the creation comes by a document number: the caller's, when it is
    truthy, else the next one of the sequence. *)
Definition drawn_or_supplied (env : Env) (supplied : option string) (type : string)
    (c : Conn) (number : string) (c1 : Conn) : Prop :=
  (Php.truthy supplied = true /\ number = Php.coalesce supplied "" /\ c1 = c)
  \/ (Php.truthy supplied = false
      /\ getNextDocumentNumberInternal env type Php.Null c = (Ok number, c1)).

(** The AUTO_INCREMENT counters after one row went into each of invoices,
    payments, payment_allocations and receipts. *)
Definition advanced (a : AutoInc) : AutoInc :=
  {| next_invoice_id := Pos.succ (next_invoice_id a);
     next_payment_id := Pos.succ (next_payment_id a);
     next_allocation_id := Pos.succ (next_allocation_id a);
     next_receipt_id := Pos.succ (next_receipt_id a) |}.

(** The columns a receipt item shares with the invoice item it snapshots. *)
Definition invoice_item_columns (i : InvoiceItem) : string * Q * Q * Q * Q * Q * nat :=
  (ii_description i, ii_quantity i, ii_unit_price i, ii_tax_percentage i,
   ii_tax_amount i, ii_line_total i, ii_sort_order i).

Definition receipt_item_columns (i : ReceiptItem) : string * Q * Q * Q * Q * Q * nat :=
  (ri_description i, ri_quantity i, ri_unit_price i, ri_tax_percentage i,
   ri_tax_amount i, ri_line_total i, ri_sort_order i).

(** ** Sample requests *)

Module Requests.

(** The caller brings its own invoice and payment numbers. *)
Definition numbered : CreateRequest :=
  {| req_company_id := Some "1"; req_customer_id := Some "9";
     req_payment := {| p_amount := Some (150 # 1); p_payment_date := Some "2026-10-31";
                       p_payment_method := Some "mpesa";
                       p_payment_number := Some "PAY-MANUAL-7";
                       p_reference_number := Some "QX12" |};
     req_invoice := {| i_invoice_number := Some "INV-MANUAL-7"; i_total_amount := None |};
     req_items := [Sample.nails; Sample.nails] |}.

End Requests.

(** *** Creation followed by a deletion *)

(** Nothing in the store refers to the ids that AUTO_INCREMENT gives next:
    the ids of the stored rows, and the ids they refer to, were all given
    out before. *)
Definition fresh_ids (c : Conn) : Prop :=
  let t := tables c in
  let iid := Z.pos (next_invoice_id (autoinc c)) in
  let pid := Z.pos (next_payment_id (autoinc c)) in
  let rid := Z.pos (next_receipt_id (autoinc c)) in
  (forall i, In i (invoices t) -> inv_id i <> iid)
  /\ (forall i, In i (invoice_items t) -> ii_invoice_id i <> iid)
  /\ (forall p, In p (payments t) -> pay_id p <> pid /\ pay_invoice_id p <> Some iid)
  /\ (forall a, In a (payment_allocations t) ->
                pa_payment_id a <> pid /\ pa_invoice_id a <> iid)
  /\ (forall r, In r (receipts t) -> rc_id r <> rid /\ rc_payment_id r <> Some pid)
  /\ (forall i, In i (receipt_items t) -> ri_receipt_id i <> rid)
  /\ (forall l, In l (payment_audit_log t) ->
                al_payment_id l <> pid /\ al_invoice_id l <> Some iid)
  /\ (forall a, In a (credit_note_allocations t) -> cna_invoice_id a <> iid)
  /\ (forall m, In m (stock_movements t) ->
                sm_reference_type m = "INVOICE" -> sm_reference_id m <> iid).

(** ** Sample tokens and profiles *)

(** The token of a request: the one of the Authorization header, else the
    one posted. *)
Definition request_token (request : Auth.AuthRequest) : option string :=
  if negb (Php.truthy (Auth.bearer request))
  then Auth.post_token request else Auth.bearer request.

(** What the payload of [token] reads as, the signature left aside: nothing
    when the token is not made of three parts or the payload does not
    decode. *)
Definition token_claims (aenv : Auth.AuthEnv) (token : option string)
  : option Auth.Claims :=
  match Auth.explode "."%char (Php.coalesce token "") with
  | [_; payload; _] => Auth.decode aenv payload
  | _ => None
  end.

Module Tokens.

Definition admin : Auth.Profile :=
  {| Auth.prof_id := "7"; Auth.prof_email := "admin@example.com";
     Auth.prof_role := "Admin"; Auth.prof_status := "active";
     Auth.prof_company_id := Some "1" |}.

(** The payload [CLAIMS7] names user 7, with an expiry long past; the only
    signature the server would compute is [GOOD]. *)
Definition aenv : Auth.AuthEnv :=
  {| Auth.sign := fun _ => "GOOD";
     Auth.decode := fun payload =>
       if String.eqb payload "CLAIMS7"
       then Some {| Auth.cl_id := None; Auth.cl_sub := Some "7"; Auth.cl_exp := Some 1000%Z |}
       else None;
     Auth.now := 1793700000;
     Auth.prepare_fails := false;
     Auth.find_profile := fun id => if String.eqb id "7" then Some admin else None |}.

(** The same server with another secret and another clock. *)
Definition aenv_other_secret : Auth.AuthEnv :=
  {| Auth.sign := fun _ => "OTHER";
     Auth.decode := Auth.decode aenv;
     Auth.now := 500;
     Auth.prepare_fails := Auth.prepare_fails aenv;
     Auth.find_profile := Auth.find_profile aenv |}.

Definition forged : Auth.AuthRequest :=
  {| Auth.bearer := Some "HEADER.CLAIMS7.FORGED"; Auth.post_token := None |}.

Definition anonymous : Auth.AuthRequest :=
  {| Auth.bearer := None; Auth.post_token := None |}.

Definition bearing (bearer post_token : option string) : Auth.AuthRequest :=
  {| Auth.bearer := bearer; Auth.post_token := post_token |}.

End Tokens.

(** * Properties *)

Local Open Scope php_scope.

(** ** Comparisons on amounts *)

Lemma Qgeb_true (x y : Q) : Qgeb x y = true <-> y <= x.
Proof. unfold Qgeb. apply Qle_bool_iff. Qed.

Lemma Qgeb_false (x y : Q) : Qgeb x y = false <-> x < y.
Proof.
  unfold Qgeb. split; intros H.
  - apply Qnot_le_lt. intros Hle. apply Qle_bool_iff in Hle. congruence.
  - destruct (Qle_bool y x) eqn:E; [| reflexivity].
    apply Qle_bool_iff in E. lra.
Qed.

Lemma Qgtb_true (x y : Q) : Qgtb x y = true <-> y < x.
Proof.
  unfold Qgtb. split; intros H.
  - apply negb_true_iff in H. apply Qnot_le_lt. intros Hle.
    apply Qle_bool_iff in Hle. congruence.
  - apply negb_true_iff. destruct (Qle_bool x y) eqn:E; [| reflexivity].
    apply Qle_bool_iff in E. lra.
Qed.

Lemma Qgtb_false (x y : Q) : Qgtb x y = false <-> x <= y.
Proof.
  unfold Qgtb. rewrite negb_false_iff. apply Qle_bool_iff.
Qed.

Lemma creation_status_new_status (P T : Q) : creation_status P T = new_status P T.
Proof.
  unfold creation_status, determine_invoice_status, new_status.
  destruct (Qgeb P T); [reflexivity |]. destruct (Qgtb P 0); reflexivity.
Qed.

Lemma new_status_cases (P T : Q) :
  (T <= P /\ new_status P T = paid)
  \/ (0 < P /\ P < T /\ new_status P T = partial)
  \/ (P <= 0 /\ P < T /\ new_status P T = draft).
Proof.
  unfold new_status.
  destruct (Qgeb P T) eqn:E1.
  - left. apply Qgeb_true in E1. auto.
  - apply Qgeb_false in E1. destruct (Qgtb P 0) eqn:E2.
    + right; left. apply Qgtb_true in E2. auto.
    + right; right. apply Qgtb_false in E2. auto.
Qed.


(** ** C2: status derivation *)

(** C2 (as stated, refuted): for total [T = 0] and paid [P = 0] the claim's
    "draft iff P == 0" would make the status [draft]; both the creation path
    and the recompute path derive [paid], because [P >= T] is tested first. *)
Lemma C2_zero_total_is_paid :
  ~ (new_status 0 0 = draft <-> 0 == 0)
  /\ ~ (creation_status 0 0 = draft <-> 0 == 0).
Proof.
  split; intros [_ H]; specialize (H (Qeq_refl 0)); vm_compute in H; discriminate.
Qed.

(** C2 (amended): for every total [T] and paid amount [P], at creation time
    and at receipt-deletion recompute time, the status is [paid] iff
    [P >= T], [partial] iff [0 < P < T], and [draft] iff [P <= 0] and
    [P < T]; for [T = 0] and [P = 0] it is [paid], and for [P = 0] against
    [T = 100] it is [draft]. *)
Theorem C2_status_derivation (T P : Q) :
  (new_status P T = paid <-> T <= P)
  /\ (new_status P T = partial <-> 0 < P /\ P < T)
  /\ (new_status P T = draft <-> P <= 0 /\ P < T)
  /\ creation_status P T = new_status P T
  /\ new_status 0 0 = paid
  /\ new_status 0 (100 # 1) = draft.
Proof.
  assert (Hc := new_status_cases P T).
  split; [| split; [| split; [| split; [| split]]]].
  - split; intros H.
    + destruct Hc as [[H1 H2] | [[H1 [H2 H3]] | [H1 [H2 H3]]]]; [assumption | |]; congruence.
    + destruct Hc as [[H1 H2] | [[H1 [H2 H3]] | [H1 [H2 H3]]]]; [assumption | |]; lra.
  - split; intros H.
    + destruct Hc as [[H1 H2] | [[H1 [H2 H3]] | [H1 [H2 H3]]]]; [congruence | auto | congruence].
    + destruct Hc as [[H1 H2] | [[H1 [H2 H3]] | [H1 [H2 H3]]]]; [lra | assumption | lra].
  - split; intros H.
    + destruct Hc as [[H1 H2] | [[H1 [H2 H3]] | [H1 [H2 H3]]]]; [congruence | congruence | auto].
    + destruct Hc as [[H1 H2] | [[H1 [H2 H3]] | [H1 [H2 H3]]]]; [lra | lra | assumption].
  - apply creation_status_new_status.
  - reflexivity.
  - reflexivity.
Qed.

(** ** Reasoning about handlers *)

Lemma bind_ok {A B} (m : M A) (k : A -> M B) c a c1 :
  m c = (Ok a, c1) -> bind m k c = k a c1.
Proof. intros H. unfold bind. rewrite H. reflexivity. Qed.

Lemma bind_err {A B} (m : M A) (k : A -> M B) c e c1 :
  m c = (Err e, c1) -> bind m k c = (Err e, c1).
Proof. intros H. unfold bind. rewrite H. reflexivity. Qed.

(** A state predicate that no statement of a handler breaks, whatever
    fails. *)
Section Invariants.

Variable env : Env.
Variable I : Conn -> Prop.
Hypothesis I_logged : forall s c, I c -> I (logged s c).

Lemma preserved_weaken {A} (m : M A) : preserved I m -> preserved_on_error I m.
Proof. intros H c Hc e c' E. specialize (H c Hc). rewrite E in H. exact H. Qed.

Lemma preserved_ret {A} (a : A) : preserved I (ret a).
Proof. intros c Hc. exact Hc. Qed.

Lemma preserved_throw {A} (e : string) : preserved I (@throw A e).
Proof. intros c Hc. exact Hc. Qed.

Lemma preserved_unless_throw (b : bool) (e : string) : preserved I (unless_throw b e).
Proof. destruct b; intros c Hc; exact Hc. Qed.

Lemma preserved_bind {A B} (m : M A) (k : A -> M B) :
  preserved I m -> (forall a, preserved I (k a)) -> preserved I (bind m k).
Proof.
  intros Hm Hk c Hc. unfold bind. specialize (Hm c Hc).
  destruct (m c) as [[a | e] c1]; simpl in *.
  - apply Hk, Hm.
  - exact Hm.
Qed.

Lemma preserved_try_catch {A} (body : M A) (handler : string -> M A) :
  preserved I body -> (forall e, preserved I (handler e)) -> preserved I (try_catch body handler).
Proof.
  intros Hm Hk c Hc. unfold try_catch. specialize (Hm c Hc).
  destruct (body c) as [[a | e] c1]; simpl in *.
  - exact Hm.
  - apply Hk, Hm.
Qed.

Lemma preserved_on_error_bind {A B} (m : M A) (k : A -> M B) :
  preserved I m -> (forall a, preserved_on_error I (k a)) -> preserved_on_error I (bind m k).
Proof.
  intros Hm Hk c Hc e c' E. unfold bind in E. specialize (Hm c Hc).
  destruct (m c) as [[a | e1] c1]; simpl in *.
  - exact (Hk a c1 Hm e c' E).
  - inversion E; subst. exact Hm.
Qed.

Lemma preserved_query_select {A} (s : Stmt) (rows : Tables -> option A) :
  preserved I (query_select env s rows).
Proof. intros c Hc. unfold query_select. simpl. apply I_logged, Hc. Qed.

Lemma preserved_query_write (s : Stmt) (upd : Tables -> option Tables) :
  (forall c t, I c -> upd (tables c) = Some t -> I (set_tables t (logged s c))) ->
  preserved I (query_write env s upd).
Proof.
  intros H c Hc. unfold query_write.
  destruct (fault env s); simpl; [apply I_logged, Hc |].
  destruct (upd (tables c)) eqn:E; simpl; [apply H; assumption | apply I_logged, Hc].
Qed.

End Invariants.

(** ** Sequence counters *)

Lemma seq_match_bump type year type' year' r :
  seq_match type' year' (seq_bump type year r) = seq_match type' year' r.
Proof.
  unfold seq_bump. destruct (seq_match type year r); reflexivity.
Qed.

Lemma find_existsb_none {A} (f : A -> bool) (l : list A) :
  find f l = None <-> existsb f l = false.
Proof.
  induction l as [| x l IH]; simpl; [tauto |].
  destruct (f x); simpl; [split; discriminate | exact IH].
Qed.

Lemma find_existsb_none_not {A} (f : A -> bool) (l : list A) :
  find f l <> None <-> existsb f l = true.
Proof.
  rewrite find_existsb_none. destruct (existsb f l); split; congruence.
Qed.

Lemma find_bump_same type year rows :
  find (seq_match type year) (map (seq_bump type year) rows)
  = option_map (seq_bump type year) (find (seq_match type year) rows).
Proof.
  induction rows as [| r rows IH]; simpl; [reflexivity |].
  rewrite seq_match_bump. destruct (seq_match type year r); [reflexivity | exact IH].
Qed.

Lemma seq_match_exclusive type year type' year' r :
  (type', year') <> (type, year) ->
  seq_match type year r = true -> seq_match type' year' r = false.
Proof.
  unfold seq_match. intros Hne H.
  apply andb_true_iff in H. destruct H as [H1 H2].
  apply String.eqb_eq in H1. apply Z.eqb_eq in H2.
  apply andb_false_iff.
  destruct (String.eqb (sq_document_type r) type') eqn:E1; [| left; reflexivity].
  destruct (sq_year r =? year')%Z eqn:E2; [| right; reflexivity].
  apply String.eqb_eq in E1. apply Z.eqb_eq in E2. exfalso. apply Hne. congruence.
Qed.

Lemma find_bump_other type year type' year' rows :
  (type', year') <> (type, year) ->
  find (seq_match type' year') (map (seq_bump type year) rows)
  = find (seq_match type' year') rows.
Proof.
  intros Hne. induction rows as [| r rows IH]; simpl; [reflexivity |].
  rewrite seq_match_bump.
  destruct (seq_match type' year' r) eqn:E; [| exact IH].
  unfold seq_bump. destruct (seq_match type year r) eqn:E'; [| reflexivity].
  rewrite (seq_match_exclusive _ _ _ _ _ Hne E') in E. discriminate.
Qed.

Lemma find_app_l {A} (f : A -> bool) (l l' : list A) x :
  find f l = Some x -> find f (l ++ l') = Some x.
Proof.
  induction l as [| y l IH]; simpl; [discriminate |].
  destruct (f y); [trivial | exact IH].
Qed.

Lemma find_app_r {A} (f : A -> bool) (l l' : list A) :
  find f l = None -> find f (l ++ l') = find f l'.
Proof.
  induction l as [| y l IH]; simpl; [reflexivity |].
  destruct (f y); [discriminate | exact IH].
Qed.

Lemma seq_match_new_row type year :
  seq_match type year
    {| sq_document_type := type; sq_year := year; sq_sequence_number := 0 |} = true.
Proof.
  unfold seq_match. simpl. rewrite String.eqb_refl, Z.eqb_refl. reflexivity.
Qed.

Lemma counter_sequences_after type year t :
  counter type year (with_document_sequences (Some (sequences_after type year t)) t)
  = (counter type year t + 1)%Z.
Proof.
  unfold counter, sequences_after. simpl.
  rewrite find_bump_same.
  destruct (document_sequences t) as [rows |]; simpl.
  - destruct (existsb (seq_match type year) rows) eqn:E.
    + destruct (find (seq_match type year) rows) as [r |] eqn:F.
      * simpl. unfold seq_bump.
        apply find_some in F. destruct F as [_ F]. rewrite F. reflexivity.
      * apply find_existsb_none in F. congruence.
    + apply find_existsb_none in E. rewrite (find_app_r _ _ _ E), E. simpl.
      rewrite seq_match_new_row. simpl. unfold seq_bump.
      rewrite seq_match_new_row. reflexivity.
  - rewrite seq_match_new_row. simpl. unfold seq_bump.
    rewrite seq_match_new_row. reflexivity.
Qed.

Lemma counter_sequences_after_other type year type' year' t :
  (type', year') <> (type, year) ->
  counter type' year' (with_document_sequences (Some (sequences_after type year t)) t)
  = counter type' year' t.
Proof.
  intros Hne. unfold counter, sequences_after. simpl.
  rewrite (find_bump_other _ _ _ _ _ Hne).
  destruct (document_sequences t) as [rows |]; simpl.
  - destruct (existsb (seq_match type year) rows); [reflexivity |].
    destruct (find (seq_match type' year') rows) as [r |] eqn:F.
    + rewrite (find_app_l _ _ _ _ F). reflexivity.
    + rewrite (find_app_r _ _ _ F). simpl.
      rewrite (seq_match_exclusive _ _ _ _ _ Hne (seq_match_new_row type year)).
      reflexivity.
  - rewrite (seq_match_exclusive _ _ _ _ _ Hne (seq_match_new_row type year)).
    reflexivity.
Qed.

Lemma has_counter_row_sequences_after type year t :
  has_counter_row type year
    (with_document_sequences (Some (sequences_after type year t)) t) = true.
Proof.
  unfold has_counter_row, sequences_after. simpl.
  destruct (existsb (seq_match type year) (map (seq_bump type year) _)) eqn:E;
    [reflexivity |].
  apply find_existsb_none in E. rewrite find_bump_same in E.
  destruct (existsb (seq_match type year) (Php.coalesce (document_sequences t) [])) eqn:E'.
  - destruct (find (seq_match type year) (Php.coalesce (document_sequences t) [])) eqn:F;
      [discriminate |].
    apply find_existsb_none in F. congruence.
  - apply find_existsb_none in E'. rewrite (find_app_r _ _ _ E') in E. simpl in E.
    rewrite seq_match_new_row in E. discriminate.
Qed.

(** *** The allocator when none of its statements fails *)

Section AllocatorRuns.

Variable env : Env.
Hypothesis no_fault : forall s, is_sequence_stmt s = true -> fault env s = false.

Lemma ensure_sequences_table_run c :
  exists c',
    ensure_sequences_table env c = (Ok tt, c')
    /\ tables c'
       = with_document_sequences
           (Some (Php.coalesce (document_sequences (tables c)) [])) (tables c)
    /\ autoinc c' = autoinc c /\ txn c' = txn c.
Proof.
  unfold ensure_sequences_table, bind, query_select, query_write.
  rewrite (no_fault SeqTableCheck eq_refl).
  destruct c as [t a x l]. simpl.
  destruct (document_sequences t) as [rows |] eqn:E; simpl.
  - eexists. split; [reflexivity |]. simpl. repeat split.
    destruct t; simpl in *. subst. reflexivity.
  - rewrite (no_fault SeqCreateTable eq_refl). rewrite E. simpl.
    eexists. split; [reflexivity |]. simpl. repeat split.
Qed.

Lemma next_sequence_run type year c rows :
  document_sequences (tables c) = Some rows ->
  exists c',
    next_sequence env type year c = (Ok (counter type year (tables c) + 1)%Z, c')
    /\ tables c'
       = with_document_sequences (Some (sequences_after type year (tables c))) (tables c)
    /\ autoinc c' = autoinc c /\ txn c' = txn c.
Proof.
  intros Hrows.
  unfold next_sequence, bind, query_select, query_write.
  rewrite (no_fault (SeqSelect type year) eq_refl).
  rewrite (no_fault (SeqUpdate type year) eq_refl).
  rewrite (no_fault (SeqFetch type year) eq_refl).
  rewrite (no_fault (SeqInsert type year) eq_refl).
  destruct c as [t a x l]. simpl in *. rewrite Hrows.
  assert (Hafter := counter_sequences_after type year t).
  unfold counter, sequences_after in *. simpl in Hafter. rewrite Hrows in *. simpl in *.
  destruct (find (seq_match type year) rows) as [r |] eqn:F.
  - assert (Ex : existsb (seq_match type year) rows = true).
    { destruct (existsb (seq_match type year) rows) eqn:Ex; [reflexivity |].
      apply find_existsb_none in Ex. congruence. }
    rewrite Ex in *. simpl. rewrite Hrows. simpl.
    destruct (find (seq_match type year) (map (seq_bump type year) rows)) as [r' |] eqn:F'.
    + eexists. split; [rewrite Hafter; reflexivity |]. simpl. repeat split.
    + rewrite find_bump_same, F in F'. discriminate.
  - assert (Ex : existsb (seq_match type year) rows = false)
      by (apply find_existsb_none; exact F).
    rewrite Ex in *. simpl. rewrite Hrows, Ex. simpl.
    destruct (find (seq_match type year)
                (map (seq_bump type year)
                   (rows ++ [{| sq_document_type := type; sq_year := year;
                                sq_sequence_number := 0 |}]))) as [r' |] eqn:F'.
    + eexists. split; [rewrite Hafter; reflexivity |]. simpl. repeat split.
    + rewrite find_bump_same, (find_app_r _ _ _ F) in F'. simpl in F'.
      rewrite seq_match_new_row in F'. discriminate.
Qed.

End AllocatorRuns.

Lemma with_document_sequences_twice v v' t :
  with_document_sequences v (with_document_sequences v' t) = with_document_sequences v t.
Proof. reflexivity. Qed.

Lemma counter_table_created type year t :
  counter type year
    (with_document_sequences (Some (Php.coalesce (document_sequences t) [])) t)
  = counter type year t.
Proof.
  unfold counter. simpl. destruct (document_sequences t); reflexivity.
Qed.

Lemma sequences_after_table_created type year t :
  sequences_after type year
    (with_document_sequences (Some (Php.coalesce (document_sequences t) [])) t)
  = sequences_after type year t.
Proof. reflexivity. Qed.

Lemma resolve_year_default env c :
  resolve_year env Php.Null c = (Ok (current_year env), c).
Proof. reflexivity. Qed.

(** A value whose integer cast is not 0 is truthy. *)
Lemma intval_truthy (v : Php.value) :
  Php.intval v <> 0%Z -> Php.truthy_value v = true.
Proof.
  destruct v as [| b | n | f | s | count]; simpl; intros H.
  - congruence.
  - destruct b; congruence.
  - apply negb_true_iff, Z.eqb_neq. exact H.
  - destruct f; try reflexivity. exfalso. apply H. reflexivity.
  - unfold Php.truthy_str.
    destruct (String.eqb s "") eqn:E1;
      [apply String.eqb_eq in E1; subst; exfalso; apply H; reflexivity |].
    destruct (String.eqb s "0") eqn:E2;
      [apply String.eqb_eq in E2; subst; exfalso; apply H; reflexivity |].
    reflexivity.
  - destruct count; simpl in *; [congruence | reflexivity].
Qed.

Lemma resolve_year_valid env (year : Php.value) c :
  (2000 <= Php.intval year <= current_year env + 10)%Z ->
  resolve_year env year c = (Ok (Php.intval year), c).
Proof.
  intros [H1 H2]. unfold resolve_year.
  rewrite intval_truthy by lia. simpl.
  replace (Php.intval year <? 2000)%Z with false by (symmetry; apply Z.ltb_ge; lia).
  replace (Php.intval year >? current_year env + 10)%Z with false
    by (symmetry; rewrite Z.gtb_ltb; apply Z.ltb_ge; lia).
  reflexivity.
Qed.

Section AllocatorCalls.

Variable env : Env.

Lemma getNextDocumentNumberInternal_run type year y c :
  (forall s, is_sequence_stmt s = true -> fault env s = false) ->
  Php.in_array type valid_types = true ->
  (forall c0, resolve_year env year c0 = (Ok y, c0)) ->
  exists c',
    getNextDocumentNumberInternal env type year c
    = (Ok (document_number type y (counter type y (tables c) + 1)), c')
    /\ tables c'
       = with_document_sequences (Some (sequences_after type y (tables c))) (tables c)
    /\ autoinc c' = autoinc c /\ txn c' = txn c.
Proof.
  intros Hnf Hty Hyear. unfold getNextDocumentNumberInternal.
  rewrite Hty. simpl.
  rewrite (bind_ok _ _ c tt c eq_refl).
  rewrite (bind_ok _ _ _ _ _ (Hyear c)).
  destruct (ensure_sequences_table_run env Hnf c) as [c1 [E1 [T1 [A1 X1]]]].
  rewrite (bind_ok _ _ _ _ _ E1).
  destruct (next_sequence_run env Hnf type y c1 _ (f_equal document_sequences T1))
    as [c2 [E2 [T2 [A2 X2]]]].
  rewrite (bind_ok _ _ _ _ _ E2).
  exists c2. rewrite T1, counter_table_created. split; [reflexivity |].
  rewrite T2, T1, sequences_after_table_created, with_document_sequences_twice.
  repeat split; congruence.
Qed.

Lemma get_next_document_number_run type (raw_year : Php.value) c :
  let year := Php.intval raw_year in
  (forall s, fault env s = false) ->
  Php.in_array type valid_types_http = true ->
  (2000 <= year <= current_year env + 10)%Z ->
  exists c',
    get_next_document_number env (Some type) raw_year c
    = (Ok {| nr_number := document_number type year (counter type year (tables c) + 1);
             nr_type := type; nr_year := year;
             nr_sequence := (counter type year (tables c) + 1)%Z |}, c')
    /\ tables c'
       = with_document_sequences (Some (sequences_after type year (tables c))) (tables c)
    /\ autoinc c' = autoinc c /\ txn c' = None.
Proof.
  intros year Hnf Hty Hyear. unfold get_next_document_number.
  assert (Htruthy : Php.truthy (Some type) = true).
  { unfold Php.truthy, Php.truthy_str.
    destruct (String.eqb type "") eqn:E1.
    - apply String.eqb_eq in E1. subst. discriminate.
    - destruct (String.eqb type "0") eqn:E2; [| reflexivity].
      apply String.eqb_eq in E2. subst. discriminate. }
  rewrite Htruthy. simpl Php.coalesce. rewrite Hty. simpl unless_throw.
  rewrite (bind_ok _ _ c tt c eq_refl).
  rewrite (bind_ok _ _ c tt c eq_refl).
  rewrite (bind_ok _ _ _ _ _ (resolve_year_valid env raw_year c Hyear)). fold year.
  destruct (ensure_sequences_table_run env (fun s _ => Hnf s) c) as [c1 [E1 [T1 [A1 X1]]]].
  rewrite (bind_ok _ _ _ _ _ E1).
  unfold bind at 1. unfold begin_transaction. rewrite Hnf.
  unfold try_catch.
  set (c1' := set_txn (Some (tables c1)) (logged BeginTransaction c1)).
  destruct (next_sequence_run env (fun s _ => Hnf s) type year c1' _
              (f_equal document_sequences T1)) as [c2 [E2 [T2 [A2 X2]]]].
  rewrite (bind_ok _ _ _ _ _ E2).
  unfold bind, commit. rewrite Hnf. simpl.
  eexists. split.
  - simpl in T2. rewrite T1, counter_table_created. reflexivity.
  - simpl. simpl in T2, A2. rewrite T2, T1, sequences_after_table_created.
    repeat split; congruence.
Qed.

End AllocatorCalls.

(** ** Formatting of the sequence number *)

Lemma length_append (s1 s2 : string) :
  String.length (s1 ++ s2) = (String.length s1 + String.length s2)%nat.
Proof. induction s1 as [| a s1 IH]; simpl; [reflexivity | now rewrite IH]. Qed.

Lemma length_zeros (k : nat) : String.length (Php.zeros k) = k.
Proof. induction k as [| k IH]; simpl; [reflexivity | now rewrite IH]. Qed.

Lemma fmt_0d_nonneg (w : nat) (n : Z) :
  (0 <= n)%Z ->
  Php.fmt_0d w n = Php.zeros (w - String.length (Php.fmt_d n)) ++ Php.fmt_d n.
Proof.
  intros H. unfold Php.fmt_0d.
  replace (n <? 0)%Z with false by (symmetry; apply Z.ltb_ge; exact H).
  reflexivity.
Qed.

Lemma fmt_0d_length (w : nat) (n : Z) :
  (0 <= n)%Z ->
  String.length (Php.fmt_0d w n) = Nat.max w (String.length (Php.fmt_d n)).
Proof.
  intros H. rewrite (fmt_0d_nonneg w n H), length_append, length_zeros. lia.
Qed.

Example document_number_first : document_number "INV" 2026 1 = "INV-2026-0001".
Proof. reflexivity. Qed.

Example document_number_beyond_four_digits :
  document_number "PAY" 2026 10000 = "PAY-2026-10000".
Proof. reflexivity. Qed.

(** ** C5: the sequence allocator *)

Lemma valid_types_http_valid type :
  Php.in_array type valid_types_http = true -> Php.in_array type valid_types = true.
Proof.
  unfold Php.in_array, valid_types_http, valid_types. simpl. intros H.
  repeat match goal with
         | |- context [String.eqb type ?s] =>
             destruct (String.eqb type s); simpl in *; try reflexivity
         end.
  discriminate.
Qed.

Lemma allocated_sequences_after type year t :
  allocated type year t
    (with_document_sequences (Some (sequences_after type year t)) t).
Proof.
  repeat split.
  - apply has_counter_row_sequences_after.
  - apply counter_sequences_after.
  - intros. now apply counter_sequences_after_other.
Qed.

(** C5: for a valid document type and a valid year (any value of the
    request whose integer cast lies between 2000 and the current year plus
    10), when no statement fails, [get_next_document_number] and
    [getNextDocumentNumberInternal] create the (type, year) counter row at 0
    if it is absent, increment it by exactly 1 and return the post-increment
    value [k + 1] as TYPE-YEAR-NNNN: the decimal digits of [k + 1]
    left-padded with zeros to four characters, and printed whole when they
    are more than four. *)
Theorem C5_allocate_document_number env type (raw_year : Php.value) c :
  let year := Php.intval raw_year in
  (forall s, fault env s = false) ->
  Php.in_array type valid_types_http = true ->
  (2000 <= year <= current_year env + 10)%Z ->
  (0 <= counter type year (tables c))%Z ->
  let k := counter type year (tables c) in
  let digits := Php.fmt_d (k + 1) in
  let nnnn := Php.zeros (4 - String.length digits) ++ digits in
  let number := type ++ "-" ++ Php.fmt_d year ++ "-" ++ nnnn in
  (exists c',
      get_next_document_number env (Some type) raw_year c
      = (Ok {| nr_number := number; nr_type := type; nr_year := year;
               nr_sequence := (k + 1)%Z |}, c')
      /\ allocated type year (tables c) (tables c'))
  /\ (exists c',
         getNextDocumentNumberInternal env type raw_year c = (Ok number, c')
         /\ allocated type year (tables c) (tables c'))
  /\ String.length nnnn = Nat.max 4 (String.length digits).
Proof.
  intros year Hnf Hty Hyear Hk k digits nnnn number.
  assert (Hnum : document_number type year (k + 1) = number).
  { unfold document_number. rewrite fmt_0d_nonneg by (unfold k; lia). reflexivity. }
  split; [| split].
  - destruct (get_next_document_number_run env type raw_year c Hnf Hty Hyear)
      as [c' [E [T _]]].
    exists c'. fold year k in E. rewrite Hnum in E. split; [exact E |].
    rewrite T. apply allocated_sequences_after.
  - assert (Hty' : Php.in_array type valid_types = true).
    { apply valid_types_http_valid. exact Hty. }
    destruct (getNextDocumentNumberInternal_run env type raw_year year c
                (fun s _ => Hnf s) Hty' (fun c0 => resolve_year_valid env raw_year c0 Hyear))
      as [c' [E [T _]]].
    exists c'. fold k in E. rewrite Hnum in E. split; [exact E |].
    rewrite T. apply allocated_sequences_after.
  - unfold nnnn. rewrite length_append, length_zeros. lia.
Qed.

Lemma C5_allocate_document_number_witness :
  (exists c',
      getNextDocumentNumberInternal Sample.env_ok "INV" (Php.Int 2026) Sample.fresh_conn
      = (Ok "INV-2026-0001", c')
      /\ counter "INV" 2026 (tables c') = 1%Z)
  /\ (exists c',
         get_next_document_number Sample.env_ok (Some "PAY") (Php.Str "2027") Sample.fresh_conn
         = (Ok {| nr_number := "PAY-2027-0001"; nr_type := "PAY"; nr_year := 2027;
                  nr_sequence := 1 |}, c')).
Proof.
  split.
  - destruct (C5_allocate_document_number Sample.env_ok "INV" (Php.Int 2026)
                Sample.fresh_conn) as [_ [[c' [E [_ [K _]]]] _]].
    + reflexivity.
    + reflexivity.
    + split; vm_compute; discriminate.
    + vm_compute; discriminate.
    + exists c'. split; [exact E | exact K].
  - destruct (C5_allocate_document_number Sample.env_ok "PAY" (Php.Str "2027")
                Sample.fresh_conn) as [[c' [E _]] _].
    + reflexivity.
    + reflexivity.
    + split; vm_compute; discriminate.
    + vm_compute; discriminate.
    + exists c'. exact E.
Defined.

(** ** Transactions *)

Lemma business_rows_same_documents t t' :
  business_rows t' = business_rows t -> same_documents t t'.
Proof.
  intros H. unfold same_documents.
  repeat split;
    [ exact (f_equal invoices H) | exact (f_equal invoice_items H)
    | exact (f_equal payments H) | exact (f_equal payment_allocations H)
    | exact (f_equal receipts H) | exact (f_equal receipt_items H) ].
Qed.

Lemma txn_is_logged x s c : txn_is x c -> txn_is x (logged s c).
Proof. exact (fun H => H). Qed.

Lemma rows_are_logged b s c : rows_are b c -> rows_are b (logged s c).
Proof. exact (fun H => H). Qed.

(** Steps of the bodies keep the snapshot of the open transaction. *)
Ltac keep_txn :=
  repeat first
    [ apply preserved_ret
    | apply preserved_throw
    | apply preserved_unless_throw
    | apply preserved_query_select; [exact (txn_is_logged _)]
    | apply preserved_query_write; [exact (txn_is_logged _) | intros ? ? H _; exact H]
    | apply preserved_bind; [| intro]
    | progress (intros; simpl) ].

Section TransactionBodies.

Variable env : Env.
Variable x : option Tables.

Lemma insert_invoice_keeps_txn row : preserved (txn_is x) (insert_invoice env row).
Proof. intros c H. unfold insert_invoice. destruct (fault env InsertInvoice); exact H. Qed.

Lemma insert_payment_keeps_txn row : preserved (txn_is x) (insert_payment env row).
Proof. intros c H. unfold insert_payment. destruct (fault env InsertPayment); exact H. Qed.

Lemma insert_allocation_keeps_txn row : preserved (txn_is x) (insert_allocation env row).
Proof. intros c H. unfold insert_allocation. destruct (fault env InsertAllocation); exact H. Qed.

Lemma insert_receipt_keeps_txn row : preserved (txn_is x) (insert_receipt env row).
Proof. intros c H. unfold insert_receipt. destruct (fault env InsertReceipt); exact H. Qed.

Lemma insert_invoice_items_keeps_txn invoiceId items :
  forall index, preserved (txn_is x) (insert_invoice_items env invoiceId index items).
Proof.
  induction items as [| item rest IH]; intros index; simpl.
  - apply preserved_ret.
  - apply preserved_bind; [keep_txn |]. intros ok.
    apply preserved_bind; [keep_txn |]. intros _. apply IH.
Qed.

Lemma insert_receipt_items_keeps_txn receiptId items :
  forall index, preserved (txn_is x) (insert_receipt_items env receiptId index items).
Proof.
  induction items as [| item rest IH]; intros index; simpl.
  - apply preserved_ret.
  - apply preserved_bind; [keep_txn |]. intros ok.
    apply preserved_bind; [keep_txn |]. intros _. apply IH.
Qed.

(** From [commit] on, a handler that cannot throw after a successful commit
    throws only with the transaction still open. *)
Lemma commit_tail_on_error {A} (k : M A) :
  (forall c, exists a c', k c = (Ok a, c')) ->
  preserved_on_error (txn_is x)
    (ok <- commit env ;; unless_throw ok "Failed to commit transaction" ;;; k).
Proof.
  intros Hk c H e c' E. unfold bind, commit in E.
  destruct (fault env CommitTransaction); simpl in E.
  - inversion E; subst. exact H.
  - destruct (Hk (set_txn None (logged CommitTransaction c))) as [a [c2 E2]].
    rewrite E2 in E. discriminate.
Qed.

Lemma reread_total {A} (s : Stmt) (row : Tables -> option A) c :
  exists a, reread env s row c = (Ok a, logged s c).
Proof.
  unfold reread, bind, query_select, ret.
  destruct (fault env s); eexists; reflexivity.
Qed.

Lemma create_in_transaction_on_error companyId customerId payment invoiceData items
    invoiceNumber paymentNumber :
  preserved_on_error (txn_is x)
    (create_in_transaction env companyId customerId payment invoiceData items
       invoiceNumber paymentNumber).
Proof.
  unfold create_in_transaction.
  destruct (determine_invoice_status _ _) as [[invoiceStatus paidAmount] balanceDue].
  apply preserved_on_error_bind; [apply insert_invoice_keeps_txn | intros r1].
  apply preserved_on_error_bind; [keep_txn | intros _].
  apply preserved_on_error_bind; [keep_txn | intros _].
  apply preserved_on_error_bind; [apply insert_invoice_items_keeps_txn | intros _].
  apply preserved_on_error_bind; [apply insert_payment_keeps_txn | intros r2].
  apply preserved_on_error_bind; [keep_txn | intros _].
  apply preserved_on_error_bind; [keep_txn | intros _].
  apply preserved_on_error_bind; [apply insert_allocation_keeps_txn | intros r3].
  apply preserved_on_error_bind; [keep_txn | intros _].
  apply preserved_on_error_bind; [apply insert_receipt_keeps_txn | intros r4].
  apply preserved_on_error_bind; [keep_txn | intros _].
  apply preserved_on_error_bind; [keep_txn | intros _].
  apply preserved_on_error_bind; [apply insert_receipt_items_keeps_txn | intros _].
  apply commit_tail_on_error. intros c.
  unfold bind.
  destruct (reread_total (RereadInvoice (Php.coalesce r1 0%Z))
              (fun t => find (fun i => (inv_id i =? Php.coalesce r1 0)%Z) (invoices t)) c)
    as [a1 E1].
  rewrite E1.
  destruct (reread_total (RereadPayment (Php.coalesce r2 0%Z))
              (fun t => find (fun p => (pay_id p =? Php.coalesce r2 0)%Z) (payments t))
              (logged (RereadInvoice (Php.coalesce r1 0%Z)) c)) as [a2 E2].
  rewrite E2.
  destruct (reread_total (RereadReceipt (Php.coalesce r4 0%Z))
              (fun t => find (fun r => (rc_id r =? Php.coalesce r4 0)%Z) (receipts t))
              (logged (RereadPayment (Php.coalesce r2 0%Z))
                 (logged (RereadInvoice (Php.coalesce r1 0%Z)) c))) as [a3 E3].
  rewrite E3. eexists. eexists. reflexivity.
Qed.

End TransactionBodies.

Lemma always_throws_bind_l {A B} (m : M A) (k : A -> M B) :
  always_throws m -> always_throws (bind m k).
Proof.
  intros H c. destruct (H c) as [e [c' E]]. exists e, c'. now apply bind_err.
Qed.

Lemma always_throws_bind_r {A B} (m : M A) (k : A -> M B) :
  (forall a, always_throws (k a)) -> always_throws (bind m k).
Proof.
  intros H c. unfold bind. destruct (m c) as [[a | e] c1].
  - apply H.
  - exists e, c1. reflexivity.
Qed.

Lemma always_throws_try_rethrow {A} (body : M A) (handler : string -> M A) :
  always_throws body -> (forall e, always_throws (handler e)) ->
  always_throws (try_catch body handler).
Proof.
  intros H Hh c. unfold try_catch. destruct (H c) as [e [c' E]]. rewrite E. apply Hh.
Qed.

Lemma always_throws_throw {A} (e : string) : always_throws (@throw A e).
Proof. intros c. exists e, c. reflexivity. Qed.

Section Rollback.

Variable env : Env.

(** The shape shared by the handlers: begin, try the body, roll back and
    rethrow.  When it throws, the rows are those it started from. *)
Lemma begin_try_rollback_on_error {A} (body : M A) (wrap : string -> string) c e c' :
  (forall x, preserved_on_error (txn_is x) body) ->
  (ok <- begin_transaction env ;;
   unless_throw ok "Failed to start transaction" ;;;
   try_catch body (fun e => rollback ;;; throw (wrap e))) c = (Err e, c') ->
  tables c' = tables c /\ (txn c = None -> txn c' = None).
Proof.
  intros Hbody E. unfold bind at 1 in E. unfold begin_transaction in E.
  destruct (fault env BeginTransaction); simpl in E.
  - inversion E; subst. split; [reflexivity | trivial].
  - unfold bind, ret, try_catch in E.
    set (c1 := set_txn (Some (tables c)) (logged BeginTransaction c)) in *.
    destruct (body c1) as [[a | e1] c2] eqn:E1; [discriminate |].
    assert (Hx : txn c2 = Some (tables c))
      by exact (Hbody (Some (tables c)) c1 eq_refl e1 c2 E1).
    unfold rollback, throw in E. rewrite Hx in E. simpl in E.
    inversion E; subst. split; [reflexivity | trivial].
Qed.

Lemma allocator_frame b a x type year :
  preserved (outside_sequences b a x) (getNextDocumentNumberInternal env type year).
Proof.
  assert (Hlog : forall s c, outside_sequences b a x c -> outside_sequences b a x (logged s c))
    by (intros s c H; exact H).
  unfold getNextDocumentNumberInternal, resolve_year, ensure_sequences_table, next_sequence.
  apply preserved_bind; [apply preserved_unless_throw | intros _].
  apply preserved_bind.
  { destruct (negb (Php.truthy_value year)); [apply preserved_ret |].
    destruct (_ || _)%bool; [apply preserved_throw | apply preserved_ret]. }
  intros y.
  apply preserved_bind.
  { apply preserved_bind; [apply preserved_query_select; exact Hlog |].
    intros [[|] |]; try apply preserved_ret.
    all: apply preserved_bind; [| intros ok; apply preserved_unless_throw].
    all: apply preserved_query_write; [exact Hlog |].
    all: intros c t [H1 H2] E; split; [| exact H2].
    all: destruct (document_sequences (tables c)); inversion E; subst; exact H1. }
  intros _.
  apply preserved_bind.
  { apply preserved_bind; [apply preserved_query_select; exact Hlog | intros result].
    apply preserved_bind.
    { assert (Hins : preserved (outside_sequences b a x)
                       (ok <- query_write env (SeqInsert type y)
                                (fun t => match document_sequences t with
                                          | None => None
                                          | Some rows =>
                                              if existsb (seq_match type y) rows then None
                                              else Some (with_document_sequences
                                                           (Some (rows ++ [{| sq_document_type := type;
                                                                              sq_year := y;
                                                                              sq_sequence_number := 0 |}])%list) t)
                                          end) ;;
                        unless_throw ok "Failed to initialize sequence")).
      { apply preserved_bind; [| intros ok; apply preserved_unless_throw].
        apply preserved_query_write; [exact Hlog |].
        intros c t [H1 H2] E. split; [| exact H2].
        destruct (document_sequences (tables c)) as [rows |]; [| discriminate].
        destruct (existsb (seq_match type y) rows); inversion E; subst. exact H1. }
      destruct result as [[r |] |]; [apply preserved_ret | exact Hins | exact Hins]. }
    intros _.
    apply preserved_bind.
    { apply preserved_query_write; [exact Hlog |].
      intros c t [H1 H2] E. split; [| exact H2].
      destruct (document_sequences (tables c)) as [rows |]; inversion E; subst. exact H1. }
    intros ok. apply preserved_bind; [apply preserved_unless_throw | intros _].
    apply preserved_bind; [apply preserved_query_select; exact Hlog |].
    intros [[r |] |]; first [apply preserved_ret | apply preserved_throw]. }
  intros n. apply preserved_ret.
Qed.

End Rollback.

(** ** C1: atomicity of the creation *)

Lemma create_on_error env req :
  forall b, preserved_on_error (fun c => rows_are b c /\ txn_is None c)
              (create_receipt_with_items_transaction env req).
Proof.
  intros b.
  assert (Hnum : forall type,
             preserved (fun c => rows_are b c /\ txn_is None c)
               (getNextDocumentNumberInternal env type Php.Null)).
  { intros type c [H1 H2].
    destruct (allocator_frame env b (autoinc c) None type Php.Null c) as [R [_ X]];
      [repeat split; assumption | split; assumption]. }
  unfold create_receipt_with_items_transaction.
  apply preserved_on_error_bind; [apply preserved_unless_throw | intros _].
  apply preserved_on_error_bind; [apply preserved_unless_throw | intros _].
  apply preserved_on_error_bind.
  { destruct (negb (Php.truthy (i_invoice_number (req_invoice req))));
      [| apply preserved_ret].
    apply preserved_try_catch; [apply Hnum | intros; apply preserved_throw]. }
  intros invoiceNumber.
  apply preserved_on_error_bind.
  { destruct (negb (Php.truthy (p_payment_number (req_payment req))));
      [| apply preserved_ret].
    apply preserved_try_catch; [apply Hnum | intros; apply preserved_throw]. }
  intros paymentNumber c1 [H1 H2] e c' E.
  apply begin_try_rollback_on_error in E;
    [| intros; apply create_in_transaction_on_error].
  destruct E as [T X]. unfold rows_are, txn_is in *.
  split; [rewrite T; exact H1 | exact (X H2)].
Qed.

Lemma insert_receipt_items_forced_failure env receiptId items index :
  (forall k, fault env (InsertReceiptItem k) = true) ->
  items <> [] ->
  always_throws (insert_receipt_items env receiptId index items).
Proof.
  intros Hf Hne c. destruct items as [| item rest]; [congruence |].
  simpl. unfold bind, query_write. rewrite Hf. simpl.
  eexists. eexists. reflexivity.
Qed.

Lemma create_forced_failure env req :
  (forall k, fault env (InsertReceiptItem k) = true) ->
  req_items req <> [] ->
  always_throws (create_receipt_with_items_transaction env req).
Proof.
  intros Hf Hne. unfold create_receipt_with_items_transaction.
  do 4 (apply always_throws_bind_r; intros ?).
  apply always_throws_bind_r; intros ok.
  apply always_throws_bind_r; intros _.
  apply always_throws_try_rethrow.
  - unfold create_in_transaction.
    destruct (determine_invoice_status _ _) as [[invoiceStatus paidAmount] balanceDue].
    do 12 (apply always_throws_bind_r; intros ?).
    apply always_throws_bind_l.
    now apply insert_receipt_items_forced_failure.
  - intros e. apply always_throws_bind_r; intros _. apply always_throws_throw.
Qed.

(** ** C10: numbers are drawn outside the atomic unit *)

Lemma payment_not_empty p :
  Php.isset (p_amount p) = true ->
  negb (payment_empty p || negb (Php.isset (p_amount p))) = true.
Proof. intros H. unfold payment_empty. rewrite H. reflexivity. Qed.

(** A valid request without numbers: the handler draws INV then PAY and
    goes on with the transaction from the connection [c2]. *)
Lemma create_draws_numbers env req c :
  (forall s, is_sequence_stmt s = true -> fault env s = false) ->
  valid_request req -> numbers_to_draw req ->
  let y := current_year env in
  exists c2,
    create_receipt_with_items_transaction env req c
    = (ok <- begin_transaction env ;;
       unless_throw ok "Failed to start transaction" ;;;
       try_catch
         (create_in_transaction env
            (Php.coalesce (req_company_id req) "") (Php.coalesce (req_customer_id req) "")
            (req_payment req) (req_invoice req) (req_items req)
            (document_number "INV" y (counter "INV" y (tables c) + 1))
            (document_number "PAY" y (counter "PAY" y (tables c) + 1)))
         (fun e => rollback ;;; throw ("Receipt creation failed: " ++ e))) c2
    /\ business_rows (tables c2) = business_rows (tables c)
    /\ counter "INV" y (tables c2) = (counter "INV" y (tables c) + 1)%Z
    /\ counter "PAY" y (tables c2) = (counter "PAY" y (tables c) + 1)%Z
    /\ has_counter_row "INV" y (tables c2) = true
    /\ has_counter_row "PAY" y (tables c2) = true
    /\ autoinc c2 = autoinc c /\ txn c2 = txn c.
Proof.
  intros Hnf [Hco [Hcu Ham]] [Hin Hpn] y.
  destruct (getNextDocumentNumberInternal_run env "INV" Php.Null y c Hnf eq_refl
              (resolve_year_default env)) as [c1 [E1 [T1 [A1 X1]]]].
  destruct (getNextDocumentNumberInternal_run env "PAY" Php.Null y c1 Hnf eq_refl
              (resolve_year_default env)) as [c2 [E2 [T2 [A2 X2]]]].
  assert (Hne : ("INV", y) <> ("PAY", y)) by (intros H; inversion H).
  assert (Hne' : ("PAY", y) <> ("INV", y)) by (intros H; inversion H).
  assert (K1 : counter "PAY" y (tables c1) = counter "PAY" y (tables c)).
  { rewrite T1. now apply counter_sequences_after_other. }
  exists c2. split.
  - unfold create_receipt_with_items_transaction.
    rewrite Hco, Hcu, (payment_not_empty _ Ham), Hin, Hpn. simpl.
    rewrite (bind_ok _ _ c tt c eq_refl).
    rewrite (bind_ok _ _ c tt c eq_refl).
    unfold try_catch at 1. unfold bind at 1. rewrite E1.
    unfold try_catch at 1. unfold bind at 1. rewrite E2.
    rewrite K1. reflexivity.
  - rewrite T2. repeat split.
    + rewrite T1. reflexivity.
    + rewrite (counter_sequences_after_other _ _ _ _ _ Hne), T1.
      apply counter_sequences_after.
    + rewrite counter_sequences_after, K1. reflexivity.
    + unfold has_counter_row, sequences_after. simpl.
      assert (H := has_counter_row_sequences_after "INV" y (tables c)).
      rewrite <- T1 in H. unfold has_counter_row in H.
      destruct (document_sequences (tables c1)) as [rows |]; [| discriminate]. simpl.
      destruct (existsb (seq_match "PAY" y) rows).
      * apply find_existsb_none_not. rewrite find_bump_other by exact Hne.
        apply find_existsb_none_not. exact H.
      * apply find_existsb_none_not. rewrite find_bump_other by exact Hne.
        destruct (find (seq_match "INV" y) rows) eqn:F.
        -- rewrite (find_app_l _ _ _ _ F). discriminate.
        -- apply find_existsb_none in F. congruence.
    + apply has_counter_row_sequences_after.
    + congruence.
    + congruence.
Qed.

(** C10: document numbers are drawn by [getNextDocumentNumberInternal]
    before [begin_transaction], every statement of it being committed on its
    own.  So when a valid request without numbers fails after the numbers
    were drawn (the allocator's statements succeed, the call fails), the
    rollback restores the six document tables but not the counters: INV and
    PAY stay incremented by one, and the next allocation returns [k + 2],
    never the number drawn for the failed call. *)
Theorem C10_numbers_survive_rollback env req c e c' :
  (forall s, is_sequence_stmt s = true -> fault env s = false) ->
  valid_request req -> numbers_to_draw req ->
  create_receipt_with_items_transaction env req c = (Err e, c') ->
  let y := current_year env in
  let k_inv := counter "INV" y (tables c) in
  let k_pay := counter "PAY" y (tables c) in
  same_documents (tables c) (tables c')
  /\ counter "INV" y (tables c') = (k_inv + 1)%Z
  /\ counter "PAY" y (tables c') = (k_pay + 1)%Z
  /\ (exists c'', getNextDocumentNumberInternal env "INV" Php.Null c'
                  = (Ok (document_number "INV" y (k_inv + 2)), c''))
  /\ (exists c'', getNextDocumentNumberInternal env "PAY" Php.Null c'
                  = (Ok (document_number "PAY" y (k_pay + 2)), c'')).
Proof.
  intros Hnf Hv Hn E y k_inv k_pay.
  destruct (create_draws_numbers env req c Hnf Hv Hn)
    as [c2 [E2 [B2 [KI [KP _]]]]].
  fold y in E2, KI, KP. rewrite E2 in E.
  apply begin_try_rollback_on_error in E;
    [| intros; apply create_in_transaction_on_error].
  destruct E as [T _]. rewrite T.
  split; [apply business_rows_same_documents; exact B2 |].
  split; [exact KI |]. split; [exact KP |].
  split.
  - destruct (getNextDocumentNumberInternal_run env "INV" Php.Null y c' Hnf eq_refl
                (resolve_year_default env)) as [c3 [E3 _]].
    exists c3. rewrite E3, T, KI. unfold k_inv.
    replace (counter "INV" y (tables c) + 1 + 1)%Z
      with (counter "INV" y (tables c) + 2)%Z by lia.
    reflexivity.
  - destruct (getNextDocumentNumberInternal_run env "PAY" Php.Null y c' Hnf eq_refl
                (resolve_year_default env)) as [c3 [E3 _]].
    exists c3. rewrite E3, T, KP. unfold k_pay.
    replace (counter "PAY" y (tables c) + 1 + 1)%Z
      with (counter "PAY" y (tables c) + 2)%Z by lia.
    reflexivity.
Qed.

Lemma C10_numbers_survive_rollback_witness :
  exists e c',
    create_receipt_with_items_transaction Sample.env_receipt_items_fail
      (Sample.request (1200 # 1)) Sample.fresh_conn = (Err e, c')
    /\ same_documents Sample.no_rows (tables c')
    /\ counter "INV" 2026 (tables c') = 1%Z
    /\ counter "PAY" 2026 (tables c') = 1%Z
    /\ exists c'', getNextDocumentNumberInternal Sample.env_receipt_items_fail "INV" Php.Null c'
                   = (Ok "INV-2026-0002", c'').
Proof.
  destruct (create_receipt_with_items_transaction Sample.env_receipt_items_fail
              (Sample.request (1200 # 1)) Sample.fresh_conn) as [r c'] eqn:E.
  assert (Hr : r = Err "Receipt creation failed: Failed to create receipt item")
    by (vm_compute in E; congruence).
  subst r. eexists. exists c'. split; [reflexivity |].
  destruct (C10_numbers_survive_rollback Sample.env_receipt_items_fail
              (Sample.request (1200 # 1)) Sample.fresh_conn
              "Receipt creation failed: Failed to create receipt item" c')
    as [H1 [H2 [H3 [H4 _]]]].
  - intros s Hs. destruct s; simpl in Hs; first [discriminate Hs | reflexivity].
  - repeat split.
  - repeat split.
  - exact E.
  - split; [exact H1 | split; [exact H2 | split; [exact H3 | exact H4]]].
Defined.

(** ** C8: validation before any write *)

(** C8 (as stated, refuted): a negative payment amount is not rejected.  With
    company and customer present and [amount = -5], the call succeeds and
    writes an invoice, a payment of -5, an allocation of -5 and a receipt. *)
Lemma C8_negative_amount_is_accepted :
  (exists resp c',
      create_receipt_with_items_transaction Sample.env_ok
        (Sample.request (-5 # 1)) Sample.fresh_conn = (Ok resp, c')
      /\ map inv_status (invoices (tables c')) = [draft]
      /\ map pay_amount (payments (tables c')) = [-5 # 1]
      /\ map pa_amount (payment_allocations (tables c')) = [-5 # 1]
      /\ map rc_total_amount (receipts (tables c')) = [-5 # 1])
  /\ ~ (exists message c',
           create_receipt_with_items_transaction Sample.env_ok
             (Sample.request (-5 # 1)) Sample.fresh_conn = (Err message, c')).
Proof.
  destruct (create_receipt_with_items_transaction Sample.env_ok
              (Sample.request (-5 # 1)) Sample.fresh_conn) as [r c'] eqn:E.
  vm_compute in E. injection E as <- <-. split.
  - eexists. eexists. split; [reflexivity |]. repeat split.
  - intros [message [c2 H]]. discriminate H.
Qed.

(** C8 (amended): the call fails with a validation message before any
    statement is sent whenever company_id is missing, customer_id is missing
    or payment.amount is missing; the connection (rows, counters, log) is
    exactly what it was. *)
Theorem C8_validation_before_any_write env req c :
  Php.truthy (req_company_id req) = false
  \/ Php.truthy (req_customer_id req) = false
  \/ p_amount (req_payment req) = None ->
  exists message,
    create_receipt_with_items_transaction env req c = (Err message, c)
    /\ (message = "Missing company_id or customer_id"
        \/ message = "Missing or invalid payment data").
Proof.
  intros H. unfold create_receipt_with_items_transaction.
  destruct (Php.truthy (req_company_id req) && Php.truthy (req_customer_id req)) eqn:E.
  - apply andb_true_iff in E. destruct E as [E1 E2].
    destruct H as [H | [H | H]]; [congruence | congruence |].
    exists "Missing or invalid payment data". split; [| right; reflexivity].
    simpl unless_throw at 1. rewrite (bind_ok _ _ c tt c eq_refl).
    apply bind_err. rewrite H. simpl.
    rewrite orb_true_r. reflexivity.
  - exists "Missing company_id or customer_id". split; [| left; reflexivity].
    apply bind_err. reflexivity.
Qed.

Lemma C8_validation_before_any_write_witness :
  exists message,
    create_receipt_with_items_transaction Sample.env_ok
      {| req_company_id := None; req_customer_id := Some "9";
         req_payment := Sample.pay (100 # 1);
         req_invoice := {| i_invoice_number := None; i_total_amount := None |};
         req_items := [Sample.nails] |} Sample.fresh_conn
    = (Err message, Sample.fresh_conn).
Proof.
  destruct (C8_validation_before_any_write Sample.env_ok
              {| req_company_id := None; req_customer_id := Some "9";
                 req_payment := Sample.pay (100 # 1);
                 req_invoice := {| i_invoice_number := None; i_total_amount := None |};
                 req_items := [Sample.nails] |} Sample.fresh_conn) as [message [E _]].
  - left. reflexivity.
  - exists message. exact E.
Defined.

(** ** Successful runs, read backwards *)

Lemma bind_ok_inv {A B} (m : M A) (k : A -> M B) c b c' :
  bind m k c = (Ok b, c') ->
  exists a c1, m c = (Ok a, c1) /\ k a c1 = (Ok b, c').
Proof.
  unfold bind. intros H. destruct (m c) as [[a | e] c1]; [| discriminate].
  exists a, c1. split; [reflexivity | exact H].
Qed.

Lemma unless_throw_ok_inv b e c u c' :
  unless_throw b e c = (Ok u, c') -> b = true /\ c' = c.
Proof.
  destruct b; simpl; intros H; inversion H; split; reflexivity.
Qed.

Lemma query_write_ok_inv env s upd c ok c' :
  query_write env s upd c = (Ok ok, c') ->
  ok = true -> exists t, upd (tables c) = Some t /\ tables c' = t.
Proof.
  unfold query_write. intros H Hok. subst ok.
  destruct (fault env s); [discriminate |].
  destruct (upd (tables c)) as [t |]; inversion H; subst.
  exists t. split; reflexivity.
Qed.

Lemma query_write_ok_frame env s upd c c' :
  query_write env s upd c = (Ok true, c') ->
  autoinc c' = autoinc c /\ txn c' = txn c.
Proof.
  unfold query_write. destruct (fault env s); [discriminate |].
  destruct (upd (tables c)); intros H; inversion H; subst; split; reflexivity.
Qed.

Lemma commit_tables env c ok c' :
  commit env c = (Ok ok, c') -> tables c' = tables c.
Proof.
  unfold commit. destruct (fault env CommitTransaction); intros H; inversion H; reflexivity.
Qed.

Lemma try_rethrow_ok_inv {A} (body : M A) (handler : string -> M A) c a c' :
  (forall e, always_throws (handler e)) ->
  try_catch body handler c = (Ok a, c') -> body c = (Ok a, c').
Proof.
  unfold try_catch. intros Hh H. destruct (body c) as [[a1 | e] c1]; [exact H |].
  destruct (Hh e c1) as [e2 [c2 E2]]. rewrite E2 in H. discriminate.
Qed.

Lemma rollback_rethrow_always_throws {A} (message : string) :
  always_throws (rollback ;;; @throw A message).
Proof. apply always_throws_bind_r. intros _. apply always_throws_throw. Qed.

Lemma find_filter_out {A} (f : A -> bool) (l : list A) :
  find f (filter (fun x => negb (f x)) l) = None.
Proof.
  induction l as [| x l IH]; simpl; [reflexivity |].
  destruct (f x) eqn:E; simpl; [exact IH | rewrite E; exact IH].
Qed.

(** The last three steps of both cascades: delete the row, commit, answer. *)
Lemma delete_commit_answer_inv {A} env s upd message (answer : A) c a c' :
  (ok <- query_write env s upd ;;
   unless_throw ok message ;;;
   ok <- commit env ;;
   unless_throw ok "Failed to commit transaction" ;;;
   ret answer) c = (Ok a, c') ->
  (exists t, upd (tables c) = Some t /\ tables c' = t) /\ a = answer.
Proof.
  intros H.
  apply bind_ok_inv in H. destruct H as [ok [c1 [S1 H]]].
  apply bind_ok_inv in H. destruct H as [u [c2 [S2 H]]].
  apply unless_throw_ok_inv in S2. destruct S2 as [Hok ->].
  apply bind_ok_inv in H. destruct H as [ok2 [c3 [S3 H]]].
  apply bind_ok_inv in H. destruct H as [u2 [c4 [S4 H]]].
  apply unless_throw_ok_inv in S4. destruct S4 as [_ ->].
  inversion H; subst. split; [| reflexivity].
  destruct (query_write_ok_inv _ _ _ _ _ _ S1 eq_refl) as [t [E T]].
  exists t. split; [exact E |]. rewrite (commit_tables _ _ _ _ S3). exact T.
Qed.

(** ** C9: not-found is terminal *)

(** One step back, keeping what the step did as [S]. *)
Ltac ok_bind_keep H a c S :=
  apply bind_ok_inv in H; destruct H as [a [c [S H]]]; cbv beta in H.

(** One step back in a run that returned: the first statement returned [a]. *)
Ltac ok_bind H a := apply bind_ok_inv in H; destruct H as [a [? [_ H]]].

Lemma delete_receipt_ok_gone env id c resp c' :
  delete_receipt_with_cascade env id c = (Ok resp, c') ->
  receipt_exists (Php.intval id) (tables c') = false.
Proof.
  intros H. unfold delete_receipt_with_cascade in H.
  apply try_rethrow_ok_inv in H;
    [| intros e; apply rollback_rethrow_always_throws].
  unfold delete_receipt_in_transaction in H.
  do 4 (let u := fresh "u" in ok_bind H u).
  unfold delete_receipt_steps in H.
  ok_bind H receipt_result.
  destruct receipt_result as [[receipt |] |]; try discriminate.
  do 4 (let u := fresh "u" in ok_bind H u).
  apply delete_commit_answer_inv in H. destruct H as [[t [E T]] _].
  unfold receipt_exists. rewrite T. injection E as <-. simpl.
  rewrite (find_filter_out (fun r => (rc_id r =? Php.intval id)%Z)). reflexivity.
Qed.

Lemma delete_invoice_ok_gone env id c resp c' :
  delete_invoice_with_cascade env id c = (Ok resp, c') ->
  invoice_exists (Php.coalesce id 0%Z) (tables c') = false.
Proof.
  intros H. unfold delete_invoice_with_cascade in H.
  do 3 (let u := fresh "u" in ok_bind H u).
  apply try_rethrow_ok_inv in H;
    [| intros e; apply rollback_rethrow_always_throws].
  unfold delete_invoice_in_transaction in H.
  ok_bind H invoice_result.
  destruct invoice_result as [[invoice |] |]; try discriminate.
  do 13 (let u := fresh "u" in ok_bind H u).
  apply delete_commit_answer_inv in H. destruct H as [[t [E T]] _].
  unfold invoice_exists. rewrite T. injection E as <-. simpl.
  rewrite (find_filter_out (fun i => (inv_id i =? Php.coalesce id 0)%Z)). reflexivity.
Qed.

Lemma untouched_eq c t a x l sent :
  t = tables c -> a = autoinc c -> x = None -> l = (log c ++ sent)%list ->
  {| tables := t; autoinc := a; txn := x; log := l |} = untouched c sent.
Proof. intros -> -> -> ->. reflexivity. Qed.

(** C9 (as stated, refuted): an id that refers to no invoice or receipt is
    not always answered with the not-found message.  The invoice id 0 and
    the receipt ids -3 and "abc" refer to nothing and are answered by the
    parameter validation; and the receipt id 2^64 + 4096, which json_decode
    reads as a float, is the id of no receipt, yet the cast wraps it to 4096
    and receipt 4096 is deleted. *)
Lemma C9_validation_and_wrapped_ids :
  delete_invoice_with_cascade Sample.env_ok (Some 0%Z) Sample.fresh_conn
  = (Err "Missing invoice_id parameter", Sample.fresh_conn)
  /\ delete_receipt_with_cascade Sample.env_ok (Php.Int (-3)) Sample.fresh_conn
     = (Err "Receipt deletion failed: Invalid receipt_id: must be a positive integer",
        untouched Sample.fresh_conn [Rollback])
  /\ delete_receipt_with_cascade Sample.env_ok (Php.Str "abc") Sample.fresh_conn
     = (Err "Receipt deletion failed: Invalid receipt_id: must be a positive integer",
        untouched Sample.fresh_conn [Rollback])
  /\ (let id := (2 ^ 64 + 4096)%Z in
      receipt_exists id (tables Sample.cash_receipt_4096) = false
      /\ exists resp c',
           delete_receipt_with_cascade Sample.env_ok (Php.Float (Php.float_of_ratio id 1))
             Sample.cash_receipt_4096 = (Ok resp, c')
           /\ dr_receipt_id resp = 4096%Z
           /\ receipts (tables c') = []).
Proof.
  split; [reflexivity |]. split; [vm_compute; reflexivity |].
  split; [vm_compute; reflexivity |].
  split; [reflexivity |].
  eexists. eexists. split; [vm_compute; reflexivity |]. split; reflexivity.
Qed.

(** C9 (amended): for an id that the parameter validation lets through (a
    non-zero invoice id; a receipt id whose integer cast is positive) and
    that, as the handler reads it, refers to no invoice (no receipt) of the
    store, which includes the id of an entity that an earlier successful
    call deleted, [delete_invoice_with_cascade]
    ([delete_receipt_with_cascade]) fails with the not-found message; the
    only statements sent are the begin, the lookup and the rollback, and
    every row and counter is what it was before the call.  (The begin is
    taken not to fail, nor the lookup of the receipt: their failure is
    answered with a message of its own, also without a write.) *)
Theorem C9_not_found_is_terminal env c invoice_id (receipt_id : Php.value) :
  let receiptId := Php.intval receipt_id in
  fault env BeginTransaction = false ->
  fault env (SelectReceipt receiptId) = false ->
  invoice_id <> 0%Z ->
  (0 < receiptId)%Z ->
  invoice_exists invoice_id (tables c) = false ->
  receipt_exists receiptId (tables c) = false ->
  delete_invoice_with_cascade env (Some invoice_id) c
  = (Err "Invoice deletion failed: Invoice not found",
     untouched c [BeginTransaction; SelectInvoice invoice_id; Rollback])
  /\ delete_receipt_with_cascade env receipt_id c
     = (Err ("Receipt deletion failed: Receipt not found with id: " ++ Php.fmt_d receiptId),
        untouched c [BeginTransaction; SelectReceipt receiptId; Rollback])
  /\ (forall c0 resp c1,
         delete_invoice_with_cascade env (Some invoice_id) c0 = (Ok resp, c1) ->
         invoice_exists invoice_id (tables c1) = false)
  /\ (forall c0 resp c1,
         delete_receipt_with_cascade env receipt_id c0 = (Ok resp, c1) ->
         receipt_exists receiptId (tables c1) = false).
Proof.
  intros receiptId Hb Hs Hi Hr Ni Nr.
  unfold invoice_exists in Ni. unfold receipt_exists in Nr.
  destruct (find (fun i => (inv_id i =? invoice_id)%Z) (invoices (tables c))) eqn:Fi;
    [discriminate |].
  destruct (find (fun r => (rc_id r =? receiptId)%Z) (receipts (tables c))) eqn:Fr;
    [discriminate |].
  split; [| split; [| split]].
  - unfold delete_invoice_with_cascade, delete_invoice_in_transaction, Php.truthy_int.
    replace (invoice_id =? 0)%Z with false by (symmetry; apply Z.eqb_neq; exact Hi).
    unfold bind, try_catch, begin_transaction, query_select, rollback, throw.
    rewrite Hb. simpl. rewrite Fi.
    destruct (fault env (SelectInvoice invoice_id)); simpl.
    all: f_equal; apply untouched_eq; try reflexivity.
    all: simpl; rewrite <- !app_assoc; reflexivity.
  - unfold delete_receipt_with_cascade, delete_receipt_in_transaction,
      delete_receipt_steps.
    rewrite intval_truthy by (fold receiptId; lia). fold receiptId.
    replace (receiptId <=? 0)%Z with false by (symmetry; apply Z.leb_gt; exact Hr).
    unfold bind, try_catch, begin_transaction, query_select, rollback, throw.
    rewrite Hb, Hs. simpl. rewrite Fr. simpl.
    f_equal. apply untouched_eq; try reflexivity.
    simpl. rewrite <- !app_assoc. reflexivity.
  - intros c0 resp c1 H. exact (delete_invoice_ok_gone _ _ _ _ _ H).
  - intros c0 resp c1 H. exact (delete_receipt_ok_gone _ _ _ _ _ H).
Qed.

Lemma C9_not_found_is_terminal_witness :
  delete_invoice_with_cascade Sample.env_ok (Some 7%Z) Sample.fresh_conn
  = (Err "Invoice deletion failed: Invoice not found",
     untouched Sample.fresh_conn [BeginTransaction; SelectInvoice 7; Rollback])
  /\ delete_receipt_with_cascade Sample.env_ok (Php.Str "7") Sample.fresh_conn
     = (Err "Receipt deletion failed: Receipt not found with id: 7",
        untouched Sample.fresh_conn [BeginTransaction; SelectReceipt 7; Rollback]).
Proof.
  destruct (C9_not_found_is_terminal Sample.env_ok Sample.fresh_conn 7 (Php.Str "7"))
    as [H1 [H2 _]]; try reflexivity.
  - discriminate.
  - split; [exact H1 | exact H2].
Defined.

(** ** Runs in which no statement fails *)

Section Runs.

Variable env : Env.
Hypothesis no_fault : forall s, fault env s = false.

Lemma query_select_run {A} s (rows : Tables -> option A) c :
  query_select env s rows c = (Ok (rows (tables c)), logged s c).
Proof. unfold query_select. rewrite no_fault. reflexivity. Qed.

Lemma query_write_run s (f : Tables -> Tables) c :
  query_write env s (fun t => Some (f t)) c
  = (Ok true, set_tables (f (tables c)) (logged s c)).
Proof. unfold query_write. rewrite no_fault. reflexivity. Qed.

Lemma begin_transaction_run c :
  begin_transaction env c = (Ok true, set_txn (Some (tables c)) (logged BeginTransaction c)).
Proof. unfold begin_transaction. rewrite no_fault. reflexivity. Qed.

Lemma commit_run c :
  commit env c = (Ok true, set_txn None (logged CommitTransaction c)).
Proof. unfold commit. rewrite no_fault. reflexivity. Qed.

Lemma reread_run {A} s (row : Tables -> option A) c :
  reread env s row c = (Ok (row (tables c)), logged s c).
Proof.
  unfold reread. rewrite (bind_ok _ _ _ _ _ (query_select_run s _ c)).
  unfold ret. destruct (row (tables c)); reflexivity.
Qed.

End Runs.

Lemma bind_assoc {A B C} (m : M A) (k1 : A -> M B) (k2 : B -> M C) c :
  bind (bind m k1) k2 c = bind m (fun a => bind (k1 a) k2) c.
Proof. unfold bind. destruct (m c) as [[a | e] c1]; reflexivity. Qed.

Lemma conn_ext c1 c2 :
  tables c1 = tables c2 -> autoinc c1 = autoinc c2 -> txn c1 = txn c2 ->
  log c1 = log c2 -> c1 = c2.
Proof. destruct c1, c2. simpl. intros -> -> -> ->. reflexivity. Qed.

Lemma try_catch_ok {A} (body : M A) (handler : string -> M A) c a c' :
  body c = (Ok a, c') -> try_catch body handler c = (Ok a, c').
Proof. intros H. unfold try_catch. rewrite H. reflexivity. Qed.

(** Projections of a connection built by the primitives, and of the tables
    built by the updates. *)
Ltac conn_fields :=
  cbn [tables autoinc txn log set_txn set_tables set_autoinc logged
       invoices invoice_items payments payment_allocations receipts receipt_items
       payment_audit_log credit_note_allocations stock_movements document_sequences
       with_invoices with_invoice_items with_payments with_payment_allocations
       with_receipts with_receipt_items with_payment_audit_log
       with_credit_note_allocations with_stock_movements with_document_sequences].

Ltac conn_fields_in H :=
  cbn [tables autoinc txn log set_txn set_tables set_autoinc logged
       invoices invoice_items payments payment_allocations receipts receipt_items
       payment_audit_log credit_note_allocations stock_movements document_sequences
       with_invoices with_invoice_items with_payments with_payment_allocations
       with_receipts with_receipt_items with_payment_audit_log
       with_credit_note_allocations with_stock_movements with_document_sequences] in H.

(** One statement forward in a run without faults ([Hnf]). *)
Ltac run_step Hnf :=
  first
    [ rewrite bind_assoc
    | rewrite (bind_ok _ _ _ _ _ (query_select_run _ Hnf _ _ _))
    | rewrite (bind_ok _ _ _ _ _ (query_write_run _ Hnf _ _ _))
    | rewrite (bind_ok _ _ _ _ _ (begin_transaction_run _ Hnf _))
    | rewrite (bind_ok _ _ _ _ _ (commit_run _ Hnf _))
    | rewrite (bind_ok _ _ _ _ _ (reread_run _ Hnf _ _ _))
    | rewrite (bind_ok _ _ _ tt _ eq_refl) ];
  cbv beta iota; conn_fields.

(** ** Receipt reversal when no statement fails *)


(** ** C4: receipt reversal *)




(** ** Creation when no statement fails *)

Lemma with_invoice_items_same t : with_invoice_items (invoice_items t) t = t.
Proof. destruct t; reflexivity. Qed.

Lemma with_receipt_items_same t : with_receipt_items (receipt_items t) t = t.
Proof. destruct t; reflexivity. Qed.

Section CreationRuns.

Variable env : Env.
Hypothesis no_fault : forall s, fault env s = false.

Lemma insert_invoice_items_run invoiceId items :
  forall index c,
    insert_invoice_items env invoiceId index items c
    = (Ok tt,
       {| tables := with_invoice_items
                      (invoice_items (tables c) ++ invoice_item_rows invoiceId index items)
                      (tables c);
          autoinc := autoinc c; txn := txn c;
          log := log c ++ item_statements InsertInvoiceItem index items |}).
Proof.
  induction items as [| item rest IH]; intros index c; simpl.
  - unfold ret. f_equal. apply conn_ext; conn_fields; try reflexivity.
    + rewrite app_nil_r. symmetry. apply with_invoice_items_same.
    + now rewrite app_nil_r.
  - do 2 run_step no_fault. rewrite IH. f_equal.
    apply conn_ext; conn_fields; try reflexivity.
    + rewrite <- app_assoc. reflexivity.
    + rewrite <- app_assoc. reflexivity.
Qed.

Lemma insert_receipt_items_run receiptId items :
  forall index c,
    insert_receipt_items env receiptId index items c
    = (Ok tt,
       {| tables := with_receipt_items
                      (receipt_items (tables c) ++ receipt_item_rows receiptId index items)
                      (tables c);
          autoinc := autoinc c; txn := txn c;
          log := log c ++ item_statements InsertReceiptItem index items |}).
Proof.
  induction items as [| item rest IH]; intros index c; simpl.
  - unfold ret. f_equal. apply conn_ext; conn_fields; try reflexivity.
    + rewrite app_nil_r. symmetry. apply with_receipt_items_same.
    + now rewrite app_nil_r.
  - do 2 run_step no_fault. rewrite IH. f_equal.
    apply conn_ext; conn_fields; try reflexivity.
    + rewrite <- app_assoc. reflexivity.
    + rewrite <- app_assoc. reflexivity.
Qed.

(** A number is taken from the request or drawn from the allocator. *)
Lemma number_taken_or_drawn (supplied : option string) type message c :
  Php.in_array type valid_types = true ->
  exists number c1,
    (if negb (Php.truthy supplied)
     then try_catch (getNextDocumentNumberInternal env type Php.Null)
            (fun e => throw (message ++ e))
     else ret (Php.coalesce supplied "")) c = (Ok number, c1)
    /\ business_rows (tables c1) = business_rows (tables c)
    /\ autoinc c1 = autoinc c /\ txn c1 = txn c.
Proof.
  intros Hty. destruct (negb (Php.truthy supplied)).
  - destruct (getNextDocumentNumberInternal_run env type Php.Null (current_year env) c
                (fun s _ => no_fault s) Hty (resolve_year_default env))
      as [c1 [E [T [A X]]]].
    eexists. exists c1. split; [apply try_catch_ok; exact E |].
    rewrite T. repeat split; assumption.
  - eexists. exists c. repeat split.
Qed.

Lemma insert_invoice_run row c :
  insert_invoice env row c
  = (Ok (Some (Z.pos (next_invoice_id (autoinc c)))),
     set_autoinc {| next_invoice_id := Pos.succ (next_invoice_id (autoinc c));
                    next_payment_id := next_payment_id (autoinc c);
                    next_allocation_id := next_allocation_id (autoinc c);
                    next_receipt_id := next_receipt_id (autoinc c) |}
       (set_tables (with_invoices
                      (invoices (tables c) ++ [row (Z.pos (next_invoice_id (autoinc c)))])
                      (tables c))
          (logged InsertInvoice c))).
Proof. unfold insert_invoice. rewrite no_fault. reflexivity. Qed.

Lemma insert_payment_run row c :
  insert_payment env row c
  = (Ok (Some (Z.pos (next_payment_id (autoinc c)))),
     set_autoinc {| next_invoice_id := next_invoice_id (autoinc c);
                    next_payment_id := Pos.succ (next_payment_id (autoinc c));
                    next_allocation_id := next_allocation_id (autoinc c);
                    next_receipt_id := next_receipt_id (autoinc c) |}
       (set_tables (with_payments
                      (payments (tables c) ++ [row (Z.pos (next_payment_id (autoinc c)))])
                      (tables c))
          (logged InsertPayment c))).
Proof. unfold insert_payment. rewrite no_fault. reflexivity. Qed.

Lemma insert_allocation_run row c :
  insert_allocation env row c
  = (Ok (Some (Z.pos (next_allocation_id (autoinc c)))),
     set_autoinc {| next_invoice_id := next_invoice_id (autoinc c);
                    next_payment_id := next_payment_id (autoinc c);
                    next_allocation_id := Pos.succ (next_allocation_id (autoinc c));
                    next_receipt_id := next_receipt_id (autoinc c) |}
       (set_tables (with_payment_allocations
                      (payment_allocations (tables c)
                       ++ [row (Z.pos (next_allocation_id (autoinc c)))])
                      (tables c))
          (logged InsertAllocation c))).
Proof. unfold insert_allocation. rewrite no_fault. reflexivity. Qed.

Lemma insert_receipt_run row c :
  insert_receipt env row c
  = (Ok (Some (Z.pos (next_receipt_id (autoinc c)))),
     set_autoinc {| next_invoice_id := next_invoice_id (autoinc c);
                    next_payment_id := next_payment_id (autoinc c);
                    next_allocation_id := next_allocation_id (autoinc c);
                    next_receipt_id := Pos.succ (next_receipt_id (autoinc c)) |}
       (set_tables (with_receipts
                      (receipts (tables c) ++ [row (Z.pos (next_receipt_id (autoinc c)))])
                      (tables c))
          (logged InsertReceipt c))).
Proof. unfold insert_receipt. rewrite no_fault. reflexivity. Qed.

End CreationRuns.

(** One statement forward in a creation without faults. *)
Ltac create_step Hnf :=
  first
    [ run_step Hnf
    | rewrite (bind_ok _ _ _ _ _ (insert_invoice_run _ Hnf _ _))
    | rewrite (bind_ok _ _ _ _ _ (insert_payment_run _ Hnf _ _))
    | rewrite (bind_ok _ _ _ _ _ (insert_allocation_run _ Hnf _ _))
    | rewrite (bind_ok _ _ _ _ _ (insert_receipt_run _ Hnf _ _))
    | rewrite (bind_ok _ _ _ _ _ (insert_invoice_items_run _ Hnf _ _ _ _))
    | rewrite (bind_ok _ _ _ _ _ (insert_receipt_items_run _ Hnf _ _ _ _)) ];
  cbv beta iota; conn_fields;
  cbn [next_invoice_id next_payment_id next_allocation_id next_receipt_id
       Php.coalesce Php.isset].

Lemma create_run env req c :
  (forall s, fault env s = false) ->
  valid_request req ->
  exists resp c', create_receipt_with_items_transaction env req c = (Ok resp, c').
Proof.
  intros Hnf [Hco [Hcu Ham]].
  destruct (number_taken_or_drawn env Hnf (i_invoice_number (req_invoice req)) "INV"
              "Failed to generate invoice number: " c eq_refl)
    as [invoiceNumber [c1 [E1 _]]].
  destruct (number_taken_or_drawn env Hnf (p_payment_number (req_payment req)) "PAY"
              "Failed to generate payment number: " c1 eq_refl)
    as [paymentNumber [c2 [E2 _]]].
  destruct (determine_invoice_status (Php.coalesce (p_amount (req_payment req)) 0)
              (invoice_amount (req_items req) (req_invoice req)))
    as [[invoiceStatus paidAmount] balanceDue] eqn:S.
  eexists. eexists.
  unfold create_receipt_with_items_transaction.
  rewrite Hco, Hcu, (payment_not_empty _ Ham). cbn [andb].
  rewrite (bind_ok _ _ c tt c eq_refl).
  rewrite (bind_ok _ _ c tt c eq_refl).
  rewrite (bind_ok _ _ _ _ _ E1).
  rewrite (bind_ok _ _ _ _ _ E2).
  do 2 run_step Hnf.
  apply try_catch_ok. unfold create_in_transaction. rewrite S.
  repeat create_step Hnf.
  unfold ret. reflexivity.
Qed.

(** ** Successful creations, read backwards *)

Section CreationInversion.

Variable env : Env.

Lemma number_step_frame (supplied : option string) type message c number c1 :
  (if negb (Php.truthy supplied)
   then try_catch (getNextDocumentNumberInternal env type Php.Null)
          (fun e => throw (message ++ e))
   else ret (Php.coalesce supplied "")) c = (Ok number, c1) ->
  business_rows (tables c1) = business_rows (tables c)
  /\ autoinc c1 = autoinc c /\ txn c1 = txn c.
Proof.
  intros E.
  assert (H : preserved (outside_sequences (business_rows (tables c)) (autoinc c) (txn c))
                (if negb (Php.truthy supplied)
                 then try_catch (getNextDocumentNumberInternal env type Php.Null)
                        (fun e => throw (message ++ e))
                 else ret (Php.coalesce supplied ""))).
  { destruct (negb (Php.truthy supplied)); [| apply preserved_ret].
    apply preserved_try_catch; [apply allocator_frame | intros; apply preserved_throw]. }
  specialize (H c (conj eq_refl (conj eq_refl eq_refl))). rewrite E in H. exact H.
Qed.

Lemma begin_transaction_ok_inv c ok c' :
  begin_transaction env c = (Ok ok, c') -> ok = true ->
  c' = set_txn (Some (tables c)) (logged BeginTransaction c).
Proof.
  unfold begin_transaction. destruct (fault env BeginTransaction); intros H Hok;
    inversion H; subst; [discriminate | reflexivity].
Qed.

Lemma commit_ok_inv c ok c' :
  commit env c = (Ok ok, c') -> ok = true ->
  c' = set_txn None (logged CommitTransaction c).
Proof.
  unfold commit. destruct (fault env CommitTransaction); intros H Hok;
    inversion H; subst; [discriminate | reflexivity].
Qed.

Lemma insert_invoice_ok_inv row c r c' :
  insert_invoice env row c = (Ok r, c') -> Php.isset r = true ->
  insert_invoice env row c
  = (Ok (Some (Z.pos (next_invoice_id (autoinc c)))), c')
  /\ r = Some (Z.pos (next_invoice_id (autoinc c)))
  /\ tables c' = with_invoices
                    (invoices (tables c) ++ [row (Z.pos (next_invoice_id (autoinc c)))])
                    (tables c)
  /\ next_payment_id (autoinc c') = next_payment_id (autoinc c)
  /\ next_allocation_id (autoinc c') = next_allocation_id (autoinc c)
  /\ next_receipt_id (autoinc c') = next_receipt_id (autoinc c)
  /\ txn c' = txn c.
Proof.
  unfold insert_invoice. destruct (fault env InsertInvoice); intros H Hr;
    inversion H; subst; [discriminate |]. repeat split.
Qed.

Lemma insert_payment_ok_inv row c r c' :
  insert_payment env row c = (Ok r, c') -> Php.isset r = true ->
  r = Some (Z.pos (next_payment_id (autoinc c)))
  /\ tables c' = with_payments
                    (payments (tables c) ++ [row (Z.pos (next_payment_id (autoinc c)))])
                    (tables c)
  /\ next_allocation_id (autoinc c') = next_allocation_id (autoinc c)
  /\ next_receipt_id (autoinc c') = next_receipt_id (autoinc c)
  /\ txn c' = txn c.
Proof.
  unfold insert_payment. destruct (fault env InsertPayment); intros H Hr;
    inversion H; subst; [discriminate |]. repeat split.
Qed.

Lemma insert_allocation_ok_inv row c r c' :
  insert_allocation env row c = (Ok r, c') -> Php.isset r = true ->
  r = Some (Z.pos (next_allocation_id (autoinc c)))
  /\ tables c' = with_payment_allocations
                    (payment_allocations (tables c)
                     ++ [row (Z.pos (next_allocation_id (autoinc c)))])
                    (tables c)
  /\ next_receipt_id (autoinc c') = next_receipt_id (autoinc c)
  /\ txn c' = txn c.
Proof.
  unfold insert_allocation. destruct (fault env InsertAllocation); intros H Hr;
    inversion H; subst; [discriminate |]. repeat split.
Qed.

Lemma insert_receipt_ok_inv row c r c' :
  insert_receipt env row c = (Ok r, c') -> Php.isset r = true ->
  r = Some (Z.pos (next_receipt_id (autoinc c)))
  /\ tables c' = with_receipts
                    (receipts (tables c) ++ [row (Z.pos (next_receipt_id (autoinc c)))])
                    (tables c)
  /\ txn c' = txn c.
Proof.
  unfold insert_receipt. destruct (fault env InsertReceipt); intros H Hr;
    inversion H; subst; [discriminate |]. repeat split.
Qed.

Lemma insert_invoice_items_ok_inv invoiceId items :
  forall index c u c',
    insert_invoice_items env invoiceId index items c = (Ok u, c') ->
    tables c' = with_invoice_items
                  (invoice_items (tables c) ++ invoice_item_rows invoiceId index items)
                  (tables c)
    /\ autoinc c' = autoinc c /\ txn c' = txn c.
Proof.
  induction items as [| item rest IH]; intros index c u c' H; simpl in H.
  - inversion H; subst. simpl. rewrite app_nil_r, with_invoice_items_same. auto.
  - ok_bind_keep H ok c1 S1. ok_bind_keep H u1 c2 S2.
    apply unless_throw_ok_inv in S2. destruct S2 as [Hok ->].
    subst ok.
    destruct (query_write_ok_inv _ _ _ _ _ _ S1 eq_refl) as [t [E T]].
    injection E as <-.
    destruct (query_write_ok_frame _ _ _ _ _ S1) as [A1 X1].
    destruct (IH _ _ _ _ H) as [T' [A' X']].
    rewrite T', A', X', T, A1, X1. conn_fields. rewrite <- app_assoc. auto.
Qed.

Lemma insert_receipt_items_ok_inv receiptId items :
  forall index c u c',
    insert_receipt_items env receiptId index items c = (Ok u, c') ->
    tables c' = with_receipt_items
                  (receipt_items (tables c) ++ receipt_item_rows receiptId index items)
                  (tables c)
    /\ autoinc c' = autoinc c /\ txn c' = txn c.
Proof.
  induction items as [| item rest IH]; intros index c u c' H; simpl in H.
  - inversion H; subst. simpl. rewrite app_nil_r, with_receipt_items_same. auto.
  - ok_bind_keep H ok c1 S1. ok_bind_keep H u1 c2 S2.
    apply unless_throw_ok_inv in S2. destruct S2 as [Hok ->].
    subst ok.
    destruct (query_write_ok_inv _ _ _ _ _ _ S1 eq_refl) as [t [E T]].
    injection E as <-.
    destruct (query_write_ok_frame _ _ _ _ _ S1) as [A1 X1].
    destruct (IH _ _ _ _ H) as [T' [A' X']].
    rewrite T', A', X', T, A1, X1. conn_fields. rewrite <- app_assoc. auto.
Qed.

Lemma reread_ok_inv {A} s (row : Tables -> option A) c a c' :
  reread env s row c = (Ok a, c') ->
  tables c' = tables c /\ txn c' = txn c
  /\ (forall x, a = Some x -> row (tables c) = Some x).
Proof.
  unfold reread, bind, query_select, ret.
  destruct (fault env s); intros H; inversion H; subst; simpl.
  - repeat split. discriminate.
  - repeat split. intros x Hx. destruct (row (tables c)); congruence.
Qed.

End CreationInversion.

Lemma create_ok_created env req c resp c' :
  create_receipt_with_items_transaction env req c = (Ok resp, c') ->
  created req c resp c'.
Proof.
  intros H. unfold create_receipt_with_items_transaction in H.
  ok_bind_keep H u1 c0 S1. apply unless_throw_ok_inv in S1. destruct S1 as [_ ->].
  ok_bind_keep H u2 c0 S2. apply unless_throw_ok_inv in S2. destruct S2 as [_ ->].
  ok_bind_keep H invoiceNumber c1 S3.
  apply number_step_frame in S3. destruct S3 as [B1 [A1 _]].
  ok_bind_keep H paymentNumber c2 S4.
  apply number_step_frame in S4. destruct S4 as [B2 [A2 _]].
  assert (D : same_documents (tables c) (tables c2)).
  { apply business_rows_same_documents. congruence. }
  destruct D as [D1 [D2 [D3 [D4 [D5 D6]]]]].
  assert (A : autoinc c2 = autoinc c) by congruence.
  clear B1 B2 A1 A2 c1.
  ok_bind_keep H ok c3 S5. ok_bind_keep H u3 c4 S6.
  apply unless_throw_ok_inv in S6. destruct S6 as [Hok ->].
  apply (begin_transaction_ok_inv env) in S5; [| exact Hok]. clear Hok ok.
  apply try_rethrow_ok_inv in H; [| intros e; apply rollback_rethrow_always_throws].
  unfold create_in_transaction in H.
  destruct (determine_invoice_status (Php.coalesce (p_amount (req_payment req)) 0)
              (invoice_amount (req_items req) (req_invoice req)))
    as [[invoiceStatus paidAmount] balanceDue] eqn:S.
  (* Step 1 *)
  ok_bind_keep H r1 d1 I1. ok_bind_keep H v1 d1' U1.
  apply unless_throw_ok_inv in U1. destruct U1 as [R1 ->].
  destruct (insert_invoice_ok_inv env _ _ _ _ I1 R1) as [_ [-> [T1 [P1 [P1' [P1'' X1]]]]]].
  cbn [Php.coalesce] in H.
  ok_bind_keep H v2 d1' U2. apply unless_throw_ok_inv in U2. destruct U2 as [_ ->].
  (* Step 2 *)
  ok_bind_keep H v3 d2 L2.
  destruct (insert_invoice_items_ok_inv env _ _ _ _ _ _ L2) as [T2 [A2 X2]].
  (* Step 3 *)
  ok_bind_keep H r3 d3 I3. ok_bind_keep H v4 d3' U3.
  apply unless_throw_ok_inv in U3. destruct U3 as [R3 ->].
  destruct (insert_payment_ok_inv env _ _ _ _ I3 R3) as [-> [T3 [P3 [P3' X3]]]].
  cbn [Php.coalesce] in H.
  ok_bind_keep H v5 d3' U4. apply unless_throw_ok_inv in U4. destruct U4 as [_ ->].
  (* Step 4 *)
  ok_bind_keep H r4 d4 I4. ok_bind_keep H v6 d4' U5.
  apply unless_throw_ok_inv in U5. destruct U5 as [R4 ->].
  destruct (insert_allocation_ok_inv env _ _ _ _ I4 R4) as [-> [T4 [P4 X4]]].
  cbn [Php.coalesce] in H.
  (* Step 5 *)
  ok_bind_keep H r5 d5 I5. ok_bind_keep H v7 d5' U6.
  apply unless_throw_ok_inv in U6. destruct U6 as [R5 ->].
  destruct (insert_receipt_ok_inv env _ _ _ _ I5 R5) as [-> [T5 X5]].
  cbn [Php.coalesce] in H.
  ok_bind_keep H v8 d5' U7. apply unless_throw_ok_inv in U7. destruct U7 as [_ ->].
  (* Step 6 *)
  ok_bind_keep H v9 d6 L6.
  destruct (insert_receipt_items_ok_inv env _ _ _ _ _ _ L6) as [T6 [A6 X6]].
  (* Commit *)
  ok_bind_keep H ok d7 C7. ok_bind_keep H v10 d7' U8.
  apply unless_throw_ok_inv in U8. destruct U8 as [Hok ->].
  apply (commit_ok_inv env) in C7; [| exact Hok]. clear Hok ok.
  (* Response *)
  ok_bind_keep H invoice d8 Q1. ok_bind_keep H payment_record d9 Q2.
  ok_bind_keep H receipt d10 Q3.
  destruct (reread_ok_inv env _ _ _ _ _ Q1) as [T8 [X8 F8]].
  destruct (reread_ok_inv env _ _ _ _ _ Q2) as [T9 [X9 F9]].
  destruct (reread_ok_inv env _ _ _ _ _ Q3) as [T10 [X10 F10]].
  unfold ret in H. injection H as <- <-.
  (* ids drawn from the AUTO_INCREMENT counters of [c] *)
  assert (A3 : autoinc c3 = autoinc c) by (subst c3; exact A).
  assert (N1 : next_invoice_id (autoinc c3) = next_invoice_id (autoinc c))
    by (now rewrite A3).
  assert (N2 : next_payment_id (autoinc d2) = next_payment_id (autoinc c))
    by (now rewrite A2, P1, A3).
  assert (N3 : next_allocation_id (autoinc d3) = next_allocation_id (autoinc c))
    by (now rewrite P3, A2, P1', A3).
  assert (N4 : next_receipt_id (autoinc d4) = next_receipt_id (autoinc c))
    by (now rewrite P4, P3', A2, P1'', A3).
  rewrite N1 in *. rewrite N2 in *. rewrite N4 in *. rewrite N3 in *.
  (* the rows, back to those of [c] *)
  assert (T7 : tables d7 = tables d6) by (subst d7; reflexivity).
  assert (T0 : tables c3 = tables c2) by (subst c3; reflexivity).
  rewrite T7 in F8. rewrite T8, T7 in F9. rewrite T9, T8, T7 in F10.
  unfold created. cbn [resp_invoice resp_payment resp_receipt resp_allocation_id
                         resp_excess_amount].
  rewrite T10, T9, T8, T7.
  eexists. eexists. eexists.
  split; [| split; [| split; [| split; [| split; [| split; [| split]]]]]].
  8: { rewrite X10, X9, X8. subst d7. reflexivity. }
  7: { repeat split; assumption. }
  all: rewrite T6, T5, T4, T3, T2, T1, T0; conn_fields;
    rewrite ?D1, ?D2, ?D3, ?D4, ?D5, ?D6.
  - unfold creation_status, creation_paid_amount, creation_balance_due. rewrite S.
    repeat split; reflexivity.
  - reflexivity.
  - repeat split; reflexivity.
  - reflexivity.
  - repeat split; reflexivity.
  - reflexivity.
Qed.

(** ** C6: the amounts of the invoice row *)

Lemma invoice_item_rows_shape invoiceId items :
  forall index r,
    In r (invoice_item_rows invoiceId index items) ->
    ii_invoice_id r = invoiceId
    /\ ii_line_total r = ii_quantity r * ii_unit_price r + ii_tax_amount r.
Proof.
  induction items as [| item rest IH]; intros index r H; simpl in H; [contradiction |].
  destruct H as [<- | H]; [split; reflexivity | exact (IH _ _ H)].
Qed.






(** ** C7: subtotal and tax of the invoice row *)

(** C7 (the code departs from the claim): for the request with one item
    (quantity 2, unit price 50, tax 16) the invoice row is written with
    subtotal 0 and tax_amount 0 (the literals ['0', '0'] of the INSERT),
    while the sums over the item rows are 100 and 16; only total_amount (116)
    is derived from the items. *)
Lemma C7_subtotal_and_tax_written_as_zero :
  exists resp c' inv,
    create_receipt_with_items_transaction Sample.env_ok (Sample.request (1200 # 1))
      Sample.fresh_conn = (Ok resp, c')
    /\ invoices (tables c') = [inv]
    /\ inv_subtotal inv = 0
    /\ inv_tax_amount inv = 0
    /\ inv_total_amount inv = 116 # 1
    /\ total_of (fun r => ii_quantity r * ii_unit_price r) (invoice_items (tables c')) = 100 # 1
    /\ total_of ii_tax_amount (invoice_items (tables c')) = 16 # 1
    /\ total_of ii_line_total (invoice_items (tables c')) = 116 # 1.
Proof.
  eexists. eexists. eexists.
  split; [vm_compute; reflexivity |].
  repeat split; vm_compute; reflexivity.
Qed.

(** Whatever the request, a successful creation writes subtotal 0 and
    tax_amount 0 on the invoice row. *)
Lemma create_writes_zero_subtotal_and_tax env req c resp c' :
  create_receipt_with_items_transaction env req c = (Ok resp, c') ->
  exists inv,
    invoices (tables c') = (invoices (tables c) ++ [inv])%list
    /\ inv_subtotal inv = 0 /\ inv_tax_amount inv = 0.
Proof.
  intros H. apply create_ok_created in H.
  destruct H as [inv [pay [rc [[I1 [I2 [I3 [I4 [I5 _]]]]] _]]]].
  exists inv. repeat split; assumption.
Qed.

(** ** C3: paid amount and allocations *)

Lemma filter_nothing {A} (f : A -> bool) (l : list A) :
  (forall x, In x l -> f x = false) -> filter f l = [].
Proof.
  induction l as [| x l IH]; intros H; simpl; [reflexivity |].
  rewrite (H x (or_introl eq_refl)). apply IH. intros y Hy. apply H. now right.
Qed.

(** C3 (the code breaks the claim): a payment of 1200 on an invoice whose
    items total 116 is stored with paid_amount 116, capped at the total,
    while the only allocation of the invoice carries the whole 1200; the
    recompute of the receipt reversal, run on these very rows, stores the
    uncapped sum 1200.  And once receipt 2 of the sample ledger is deleted,
    whose payment was allocated to invoices 2 and 1, invoice 1 still shows
    paid_amount 800 against allocations that sum to 600: step 4 removed its
    allocation of 200 and only invoice 2 was recomputed. *)
Theorem C3_overpayment_breaks_the_sum :
  (exists resp c' inv,
      create_receipt_with_items_transaction Sample.env_ok (Sample.request (1200 # 1))
        Sample.fresh_conn = (Ok resp, c')
      /\ invoices (tables c') = [inv]
      /\ inv_paid_amount inv = 116 # 1
      /\ sum_allocations (inv_id inv) (tables c') = 1200 # 1
      /\ ~ inv_paid_amount inv == sum_allocations (inv_id inv) (tables c')
      /\ exists c'',
           recalculate_invoice Sample.env_ok (inv_id inv) c' = (Ok tt, c'')
           /\ Sample.balances c'' = [(1200 # 1, 0, paid)])
  /\ (exists resp c' inv1,
         delete_receipt_with_cascade Sample.env_ok (Php.Int 2) Ledger.conn = (Ok resp, c')
         /\ dr_invoice_id resp = Some 2%Z
         /\ find (fun i => (inv_id i =? 1)%Z) (invoices (tables c')) = Some inv1
         /\ inv_paid_amount inv1 = 800 # 1
         /\ sum_allocations 1 (tables c') = 600 # 1
         /\ ~ inv_paid_amount inv1 == sum_allocations 1 (tables c')).
Proof.
  split.
  - eexists. eexists. eexists.
    split; [vm_compute; reflexivity |].
    split; [reflexivity |]. split; [vm_compute; reflexivity |].
    split; [vm_compute; reflexivity |].
    split; [vm_compute; discriminate |].
    eexists. split; vm_compute; reflexivity.
  - eexists. eexists. eexists.
    split; [vm_compute; reflexivity |].
    split; [reflexivity |]. split; [vm_compute; reflexivity |].
    split; [vm_compute; reflexivity |].
    split; [vm_compute; reflexivity |].
    vm_compute. discriminate.
Qed.

(** ** C4: the receipt reversal, read backwards *)


Lemma query_select_ok_state {A} env s (rows : Tables -> option A) c r c' :
  query_select env s rows c = (Ok (Some r), c') ->
  rows (tables c) = Some r /\ c' = logged s c.
Proof.
  unfold query_select. destruct (fault env s); intros H; inversion H; subst;
    split; reflexivity.
Qed.

Lemma query_write_ok_state env s (f : Tables -> Tables) c c' :
  query_write env s (fun t => Some (f t)) c = (Ok true, c') ->
  c' = set_tables (f (tables c)) (logged s c).
Proof.
  unfold query_write. destruct (fault env s); intros H; inversion H; reflexivity.
Qed.

(** One checked write back: the statement succeeded and the connection
    is the one it leaves. *)
Ltac ok_write H :=
  let ok := fresh "ok" in
  let d := fresh "d" in
  let W := fresh "W" in
  let u := fresh "u" in
  let d' := fresh "d" in
  let U := fresh "U" in
  let Hok := fresh "Hok" in
  repeat (rewrite bind_assoc in H; cbv beta in H);
  ok_bind_keep H ok d W;
  repeat (rewrite bind_assoc in H; cbv beta in H);
  ok_bind_keep H u d' U;
  apply unless_throw_ok_inv in U; destruct U as [Hok ->]; subst ok;
  apply query_write_ok_state in W; subst d; conn_fields_in H.




(** ** C1: atomicity of the creation *)

Section CheckedStatements.

Variable env : Env.

Lemma checks_ret {A} (a : A) : checks_its_statements env (ret a).
Proof.
  intros c a' c' H. inversion H; subst. exists []. rewrite app_nil_r.
  split; [reflexivity | intros s []].
Qed.

Lemma checks_throw {A} (e : string) : checks_its_statements env (@throw A e).
Proof. intros c a c' H. discriminate. Qed.

Lemma checks_unless_throw (b : bool) (e : string) :
  checks_its_statements env (unless_throw b e).
Proof. destruct b; [apply checks_ret | apply checks_throw]. Qed.

Lemma checks_bind {A B} (m : M A) (k : A -> M B) :
  checks_its_statements env m -> (forall a, checks_its_statements env (k a)) ->
  checks_its_statements env (bind m k).
Proof.
  intros Hm Hk c b c' H. apply bind_ok_inv in H. destruct H as [a [c1 [H1 H2]]].
  destruct (Hm _ _ _ H1) as [l1 [L1 F1]]. destruct (Hk a _ _ _ H2) as [l2 [L2 F2]].
  exists (l1 ++ l2)%list. split.
  - rewrite L2, L1, app_assoc. reflexivity.
  - intros s Hs. apply in_app_or in Hs. destruct Hs; auto.
Qed.

Lemma checks_try_rethrow {A} (body : M A) (handler : string -> M A) :
  checks_its_statements env body -> (forall e, always_throws (handler e)) ->
  checks_its_statements env (try_catch body handler).
Proof.
  intros Hb Hh c a c' H. apply try_rethrow_ok_inv in H; [| exact Hh].
  exact (Hb _ _ _ H).
Qed.

Lemma checks_query_select {A} (s : Stmt) (rows : Tables -> option A) :
  is_decisive s = false -> checks_its_statements env (query_select env s rows).
Proof.
  intros Hs c a c' H. unfold query_select in H. inversion H; subst.
  exists [s]. split; [reflexivity |].
  intros s' [<- | []] Hd. congruence.
Qed.

Lemma checks_reread {A} (s : Stmt) (row : Tables -> option A) :
  is_decisive s = false -> checks_its_statements env (reread env s row).
Proof.
  intros Hs. unfold reread. apply checks_bind.
  - apply checks_query_select. exact Hs.
  - intros r. apply checks_ret.
Qed.

Lemma checks_checked {X B} (m : M X) (s : Stmt) (test : X -> bool) (message : string)
    (k : X -> M B) :
  checked_by env m s test -> (forall x, checks_its_statements env (k x)) ->
  checks_its_statements env (bind m (fun x => bind (unless_throw (test x) message)
                                            (fun _ => k x))).
Proof.
  intros Hm Hk c b c' H. apply bind_ok_inv in H. destruct H as [x [c1 [H1 H2]]].
  apply bind_ok_inv in H2. destruct H2 as [u [c2 [H2 H3]]].
  apply unless_throw_ok_inv in H2. destruct H2 as [Ht ->].
  destruct (Hm _ _ _ H1) as [L1 F1]. destruct (Hk x _ _ _ H3) as [l2 [L2 F2]].
  exists (s :: l2). split.
  - rewrite L2, L1, <- app_assoc. reflexivity.
  - intros s' [<- | Hs] Hd; [exact (F1 Ht) | exact (F2 s' Hs Hd)].
Qed.

Lemma checks_checked_last {X} (m : M X) (s : Stmt) (test : X -> bool) (message : string) :
  checked_by env m s test ->
  checks_its_statements env (bind m (fun x => unless_throw (test x) message)).
Proof.
  intros Hm c b c' H. apply bind_ok_inv in H. destruct H as [x [c1 [H1 H2]]].
  apply unless_throw_ok_inv in H2. destruct H2 as [Ht ->].
  destruct (Hm _ _ _ H1) as [L1 F1].
  exists [s]. split; [exact L1 |].
  intros s' [<- | []] Hd. exact (F1 Ht).
Qed.

Lemma query_write_checked (s : Stmt) (upd : Tables -> option Tables) :
  checked_by env (query_write env s upd) s (fun ok => ok).
Proof.
  intros c ok c' H. unfold query_write in H.
  destruct (fault env s); [inversion H; subst; split; [reflexivity | discriminate] |].
  destruct (upd (tables c)); inversion H; subst; split; reflexivity.
Qed.

Lemma begin_transaction_checked :
  checked_by env (begin_transaction env) BeginTransaction (fun ok => ok).
Proof.
  intros c ok c' H. unfold begin_transaction in H.
  destruct (fault env BeginTransaction); inversion H; subst; split;
    first [reflexivity | discriminate].
Qed.

Lemma commit_checked : checked_by env (commit env) CommitTransaction (fun ok => ok).
Proof.
  intros c ok c' H. unfold commit in H.
  destruct (fault env CommitTransaction); inversion H; subst; split;
    first [reflexivity | discriminate].
Qed.

Lemma insert_invoice_checked row :
  checked_by env (insert_invoice env row) InsertInvoice Php.isset.
Proof.
  intros c r c' H. unfold insert_invoice in H.
  destruct (fault env InsertInvoice); inversion H; subst; split;
    first [reflexivity | discriminate].
Qed.

Lemma insert_payment_checked row :
  checked_by env (insert_payment env row) InsertPayment Php.isset.
Proof.
  intros c r c' H. unfold insert_payment in H.
  destruct (fault env InsertPayment); inversion H; subst; split;
    first [reflexivity | discriminate].
Qed.

Lemma insert_allocation_checked row :
  checked_by env (insert_allocation env row) InsertAllocation Php.isset.
Proof.
  intros c r c' H. unfold insert_allocation in H.
  destruct (fault env InsertAllocation); inversion H; subst; split;
    first [reflexivity | discriminate].
Qed.

Lemma insert_receipt_checked row :
  checked_by env (insert_receipt env row) InsertReceipt Php.isset.
Proof.
  intros c r c' H. unfold insert_receipt in H.
  destruct (fault env InsertReceipt); inversion H; subst; split;
    first [reflexivity | discriminate].
Qed.

Lemma insert_invoice_items_checks invoiceId items :
  forall index, checks_its_statements env (insert_invoice_items env invoiceId index items).
Proof.
  induction items as [| item rest IH]; intros index; simpl.
  - apply checks_ret.
  - eapply checks_checked with (test := (fun ok => ok)); [apply query_write_checked | intros _; apply IH].
Qed.

Lemma insert_receipt_items_checks receiptId items :
  forall index, checks_its_statements env (insert_receipt_items env receiptId index items).
Proof.
  induction items as [| item rest IH]; intros index; simpl.
  - apply checks_ret.
  - eapply checks_checked with (test := (fun ok => ok)); [apply query_write_checked | intros _; apply IH].
Qed.

Lemma getNextDocumentNumberInternal_checks type year :
  checks_its_statements env (getNextDocumentNumberInternal env type year).
Proof.
  unfold getNextDocumentNumberInternal.
  apply checks_bind; [apply checks_unless_throw | intros _].
  apply checks_bind.
  { unfold resolve_year. destruct (negb (Php.truthy_value year)); [apply checks_ret |].
    destruct (_ || _)%bool; [apply checks_throw | apply checks_ret]. }
  intros y.
  apply checks_bind.
  { unfold ensure_sequences_table.
    apply checks_bind; [apply checks_query_select; reflexivity |].
    intros [[|] |]; try apply checks_ret.
    all: eapply checks_checked_last with (test := (fun ok => ok)); apply query_write_checked. }
  intros _.
  apply checks_bind; [| intros sequence; apply checks_ret].
  unfold next_sequence.
  apply checks_bind; [apply checks_query_select; reflexivity | intros result].
  apply checks_bind.
  { destruct result as [[row |] |]; try apply checks_ret.
    all: eapply checks_checked_last with (test := (fun ok => ok)); apply query_write_checked. }
  intros _.
  eapply checks_checked with (test := (fun ok => ok)); [apply query_write_checked | intros _].
  apply checks_bind; [apply checks_query_select; reflexivity | intros result'].
  destruct result' as [[row |] |]; first [apply checks_ret | apply checks_throw].
Qed.

Lemma create_in_transaction_checks companyId customerId payment invoiceData items
    invoiceNumber paymentNumber :
  checks_its_statements env
    (create_in_transaction env companyId customerId payment invoiceData items
       invoiceNumber paymentNumber).
Proof.
  unfold create_in_transaction.
  destruct (determine_invoice_status _ _) as [[invoiceStatus paidAmount] balanceDue].
  eapply checks_checked with (test := Php.isset); [apply insert_invoice_checked | intros r1].
  cbv zeta.
  apply checks_bind; [apply checks_unless_throw | intros _].
  apply checks_bind; [apply insert_invoice_items_checks | intros _].
  eapply checks_checked with (test := Php.isset); [apply insert_payment_checked | intros r3].
  apply checks_bind; [apply checks_unless_throw | intros _].
  eapply checks_checked with (test := Php.isset); [apply insert_allocation_checked | intros r4].
  eapply checks_checked with (test := Php.isset); [apply insert_receipt_checked | intros r5].
  apply checks_bind; [apply checks_unless_throw | intros _].
  apply checks_bind; [apply insert_receipt_items_checks | intros _].
  eapply checks_checked with (test := (fun ok => ok)); [apply commit_checked | intros _].
  apply checks_bind; [apply checks_reread; reflexivity | intros invoice].
  apply checks_bind; [apply checks_reread; reflexivity | intros payment_record].
  apply checks_bind; [apply checks_reread; reflexivity | intros receipt].
  apply checks_ret.
Qed.

Lemma create_checks req :
  checks_its_statements env (create_receipt_with_items_transaction env req).
Proof.
  unfold create_receipt_with_items_transaction.
  apply checks_bind; [apply checks_unless_throw | intros _].
  apply checks_bind; [apply checks_unless_throw | intros _].
  apply checks_bind.
  { destruct (negb (Php.truthy (i_invoice_number (req_invoice req))));
      [| apply checks_ret].
    apply checks_try_rethrow; [apply getNextDocumentNumberInternal_checks |].
    intros e. apply always_throws_throw. }
  intros invoiceNumber.
  apply checks_bind.
  { destruct (negb (Php.truthy (p_payment_number (req_payment req))));
      [| apply checks_ret].
    apply checks_try_rethrow; [apply getNextDocumentNumberInternal_checks |].
    intros e. apply always_throws_throw. }
  intros paymentNumber.
  eapply checks_checked with (test := (fun ok => ok)); [apply begin_transaction_checked | intros _].
  apply checks_try_rethrow; [apply create_in_transaction_checks |].
  intros e. apply rollback_rethrow_always_throws.
Qed.

(** *** The writes of the transaction itself *)

Lemma insert_invoice_items_ok_fault invoiceId items :
  forall index c u c',
    insert_invoice_items env invoiceId index items c = (Ok u, c') ->
    forall s, In s (item_statements InsertInvoiceItem index items) -> fault env s = false.
Proof.
  induction items as [| item rest IH]; intros index c u c' H s Hs; simpl in H, Hs.
  - contradiction.
  - ok_bind_keep H ok c1 S1. ok_bind_keep H u1 c2 S2.
    apply unless_throw_ok_inv in S2. destruct S2 as [Hok ->]. subst ok.
    destruct Hs as [<- | Hs].
    + exact (proj2 (query_write_checked _ _ _ _ _ S1) eq_refl).
    + exact (IH _ _ _ _ H s Hs).
Qed.

Lemma insert_receipt_items_ok_fault receiptId items :
  forall index c u c',
    insert_receipt_items env receiptId index items c = (Ok u, c') ->
    forall s, In s (item_statements InsertReceiptItem index items) -> fault env s = false.
Proof.
  induction items as [| item rest IH]; intros index c u c' H s Hs; simpl in H, Hs.
  - contradiction.
  - ok_bind_keep H ok c1 S1. ok_bind_keep H u1 c2 S2.
    apply unless_throw_ok_inv in S2. destruct S2 as [Hok ->]. subst ok.
    destruct Hs as [<- | Hs].
    + exact (proj2 (query_write_checked _ _ _ _ _ S1) eq_refl).
    + exact (IH _ _ _ _ H s Hs).
Qed.

(** A creation that returned has sent each write of [creation_writes], and
    none of them had failed. *)
Lemma create_ok_writes req c resp c' :
  create_receipt_with_items_transaction env req c = (Ok resp, c') ->
  forall s, In s (creation_writes req) -> fault env s = false.
Proof.
  intros H. unfold create_receipt_with_items_transaction in H.
  ok_bind_keep H u1 c0 S1. ok_bind_keep H u2 c0' S2.
  ok_bind_keep H invoiceNumber c1 S3. ok_bind_keep H paymentNumber c2 S4.
  ok_bind_keep H ok c3 S5. ok_bind_keep H u3 c4 S6.
  apply unless_throw_ok_inv in S6. destruct S6 as [Hok ->]. subst ok.
  assert (F0 := proj2 (begin_transaction_checked _ _ _ S5) eq_refl).
  apply try_rethrow_ok_inv in H; [| intros e; apply rollback_rethrow_always_throws].
  unfold create_in_transaction in H.
  destruct (determine_invoice_status _ _) as [[invoiceStatus paidAmount] balanceDue].
  ok_bind_keep H r1 d1 I1. ok_bind_keep H v1 d1' U1.
  apply unless_throw_ok_inv in U1. destruct U1 as [R1 ->].
  assert (F1 := proj2 (insert_invoice_checked _ _ _ _ I1) R1).
  ok_bind_keep H v2 d1' U2.
  ok_bind_keep H v3 d2 L2.
  assert (F2 := insert_invoice_items_ok_fault _ _ _ _ _ _ L2).
  ok_bind_keep H r3 d3 I3. ok_bind_keep H v4 d3' U3.
  apply unless_throw_ok_inv in U3. destruct U3 as [R3 ->].
  assert (F3 := proj2 (insert_payment_checked _ _ _ _ I3) R3).
  ok_bind_keep H v5 d3' U4.
  ok_bind_keep H r4 d4 I4. ok_bind_keep H v6 d4' U5.
  apply unless_throw_ok_inv in U5. destruct U5 as [R4 ->].
  assert (F4 := proj2 (insert_allocation_checked _ _ _ _ I4) R4).
  ok_bind_keep H r5 d5 I5. ok_bind_keep H v7 d5' U6.
  apply unless_throw_ok_inv in U6. destruct U6 as [R5 ->].
  assert (F5 := proj2 (insert_receipt_checked _ _ _ _ I5) R5).
  ok_bind_keep H v8 d5' U7.
  ok_bind_keep H v9 d6 L6.
  assert (F6 := insert_receipt_items_ok_fault _ _ _ _ _ _ L6).
  ok_bind_keep H ok d7 C7. ok_bind_keep H v10 d7' U8.
  apply unless_throw_ok_inv in U8. destruct U8 as [Hok ->]. subst ok.
  assert (F7 := proj2 (commit_checked _ _ _ C7) eq_refl).
  clear - F0 F1 F2 F3 F4 F5 F6 F7.
  intros s Hs. unfold creation_writes in Hs. simpl in Hs.
  destruct Hs as [<- | [<- | Hs]]; [exact F0 | exact F1 |].
  apply in_app_or in Hs. destruct Hs as [Hs | Hs]; [exact (F2 s Hs) |].
  simpl in Hs. destruct Hs as [<- | [<- | [<- | Hs]]]; [exact F3 | exact F4 | exact F5 |].
  apply in_app_or in Hs. destruct Hs as [Hs | Hs]; [exact (F6 s Hs) |].
  destruct Hs as [<- | []]. exact F7.
Qed.

End CheckedStatements.

(** C1: the creation is one atomic unit.  Whenever
    [create_receipt_with_items_transaction] fails, whatever the statement
    that failed, the invoice, invoice_items, payments, payment_allocations,
    receipts and receipt_items tables hold exactly the rows they held before
    the call and no transaction is left open.  And a failing write does make
    the call fail: the begin, the INSERT of the invoice, of each invoice
    item, of the payment, of the allocation, of the receipt, of each receipt
    item, and the commit; so does any other statement that changes rows
    (those of the sequence allocator) once it has been sent.  A forced
    failure of the receipt_items insert is a case of it. *)
Theorem C1_creation_is_atomic env req c r c' :
  txn c = None ->
  create_receipt_with_items_transaction env req c = (r, c') ->
  (forall e, r = Err e -> same_documents (tables c) (tables c') /\ txn c' = None)
  /\ (forall s, In s (creation_writes req) -> fault env s = true -> exists e, r = Err e)
  /\ (forall resp, r = Ok resp ->
      exists sent,
        log c' = (log c ++ sent)%list
        /\ forall s, In s sent -> is_decisive s = true -> fault env s = false)
  /\ ((forall k, fault env (InsertReceiptItem k) = true) -> req_items req <> [] ->
      exists e, r = Err e).
Proof.
  intros Hx E. split; [| split; [| split]].
  - intros e ->.
    destruct (create_on_error env req (business_rows (tables c)) c (conj eq_refl Hx) e c' E)
      as [H1 H2].
    split; [apply business_rows_same_documents; exact H1 | exact H2].
  - intros s Hs Hf. destruct r as [resp | e]; [| exists e; reflexivity].
    rewrite (create_ok_writes env req c resp c' E s Hs) in Hf. discriminate.
  - intros resp ->. exact (create_checks env req c resp c' E).
  - intros Hf Hne. destruct (create_forced_failure env req Hf Hne c) as [e [c2 E2]].
    rewrite E2 in E. inversion E; subst. exists e. reflexivity.
Qed.

(** A failing receipt item, and a failing allocation, on the sample
    request. *)
Lemma C1_creation_is_atomic_witness :
  (exists r c',
      create_receipt_with_items_transaction Sample.env_receipt_items_fail
        (Sample.request (1200 # 1)) Sample.fresh_conn = (r, c')
      /\ r = Err "Receipt creation failed: Failed to create receipt item"
      /\ same_documents Sample.no_rows (tables c'))
  /\ (exists e c',
         create_receipt_with_items_transaction Sample.env_allocation_fails
           (Sample.request (1200 # 1)) Sample.fresh_conn = (Err e, c')
         /\ same_documents Sample.no_rows (tables c')).
Proof.
  split.
  - destruct (create_receipt_with_items_transaction Sample.env_receipt_items_fail
                (Sample.request (1200 # 1)) Sample.fresh_conn) as [r c'] eqn:E.
    exists r, c'. split; [reflexivity |].
    destruct (C1_creation_is_atomic Sample.env_receipt_items_fail
                (Sample.request (1200 # 1)) Sample.fresh_conn r c' eq_refl E) as [H _].
    assert (Hr : r = Err "Receipt creation failed: Failed to create receipt item")
      by (vm_compute in E; congruence).
    split; [exact Hr |].
    exact (proj1 (H _ Hr)).
  - destruct (create_receipt_with_items_transaction Sample.env_allocation_fails
                (Sample.request (1200 # 1)) Sample.fresh_conn) as [r c'] eqn:E.
    destruct (C1_creation_is_atomic Sample.env_allocation_fails
                (Sample.request (1200 # 1)) Sample.fresh_conn r c' eq_refl E)
      as [H1 [H2 _]].
    destruct (H2 InsertAllocation) as [e ->].
    + simpl. auto 10.
    + reflexivity.
    + exists e, c'. split; [reflexivity |]. exact (proj1 (H1 e eq_refl)).
Defined.

(** * Further properties of the engine *)

(** ** Invoice deletion *)

Lemma query_select_total_inv {A} env s (f : Tables -> A) c r c' :
  query_select env s (fun t => Some (f t)) c = (Ok r, c') ->
  c' = logged s c
  /\ ((fault env s = false /\ r = Some (f (tables c)))
      \/ (fault env s = true /\ r = None)).
Proof.
  unfold query_select. destruct (fault env s); intros H; inversion H; subst;
    split; auto.
Qed.

Lemma tables_ext (t1 t2 : Tables) :
  invoices t1 = invoices t2 -> invoice_items t1 = invoice_items t2 ->
  payments t1 = payments t2 -> payment_allocations t1 = payment_allocations t2 ->
  receipts t1 = receipts t2 -> receipt_items t1 = receipt_items t2 ->
  payment_audit_log t1 = payment_audit_log t2 ->
  credit_note_allocations t1 = credit_note_allocations t2 ->
  stock_movements t1 = stock_movements t2 ->
  document_sequences t1 = document_sequences t2 -> t1 = t2.
Proof.
  destruct t1, t2. simpl. intros. subst. reflexivity.
Qed.

(** A run of the invoice deletion that returns has sent every statement of
    the cascade, and each of them succeeded. *)
Lemma delete_invoice_ok_inv env id c resp c' :
  delete_invoice_with_cascade env (Some id) c = (Ok resp, c') ->
  exists invoice pids,
    find (fun i => (inv_id i =? id)%Z) (invoices (tables c)) = Some invoice
    /\ ((fault env (SelectRelatedPayments id) = false
         /\ pids = related_payment_ids id (tables c))
        \/ (fault env (SelectRelatedPayments id) = true /\ pids = []))
    /\ c' = after_invoice_deletion id pids c
    /\ resp = {| di_invoice_id := id;
                 di_invoice_number := inv_invoice_number invoice;
                 di_payments_count := List.length pids |}.
Proof.
  intros H. unfold delete_invoice_with_cascade in H.
  ok_bind_keep H u1 c0 S1. apply unless_throw_ok_inv in S1. destruct S1 as [_ ->].
  cbn [Php.coalesce] in H.
  ok_bind_keep H ok c1 B. ok_bind_keep H u2 c2 U.
  apply unless_throw_ok_inv in U. destruct U as [Hok ->].
  apply (begin_transaction_ok_inv env) in B; [| exact Hok]. subst c1. clear Hok ok.
  apply try_rethrow_ok_inv in H; [| intros e; apply rollback_rethrow_always_throws].
  unfold delete_invoice_in_transaction in H.
  ok_bind_keep H invoice_result d Sr.
  destruct invoice_result as [[invoice |] |]; try discriminate.
  apply query_select_ok_state in Sr. destruct Sr as [Fi ->]. conn_fields_in Fi.
  injection Fi as Fi. cbv zeta in H.
  ok_bind_keep H payments_result d Sp.
  apply query_select_total_inv in Sp. destruct Sp as [-> Sp]. conn_fields_in Sp.
  exists invoice, (Php.coalesce payments_result []).
  split; [exact Fi |].
  split.
  { destruct Sp as [[F ->] | [F ->]]; [left | right]; split; auto. }
  clear Sp. set (pids := Php.coalesce payments_result []) in *. clearbody pids.
  unfold after_invoice_deletion, invoice_deleted, invoice_deletion_statements.
  destruct (negb (Nat.eqb (List.length pids) 0)) eqn:Hp; cbv iota in H.
  - do 9 ok_write H.
    ok_bind_keep H ok d Cm. ok_bind_keep H committed d' U.
    apply unless_throw_ok_inv in U. destruct U as [Hok ->].
    apply (commit_ok_inv env) in Cm; [| exact Hok]. subst d.
    unfold ret in H. injection H as <- <-.
    split; [| reflexivity].
    apply conn_ext; conn_fields; try reflexivity.
    rewrite <- !app_assoc. reflexivity.
  - repeat (rewrite bind_assoc in H; cbv beta in H).
    ok_bind_keep H v1 d R1. unfold ret in R1. injection R1 as _ <-.
    ok_bind_keep H v2 d R2. unfold ret in R2. injection R2 as _ <-.
    do 6 ok_write H.
    ok_bind_keep H ok d Cm. ok_bind_keep H committed d' U.
    apply unless_throw_ok_inv in U. destruct U as [Hok ->].
    apply (commit_ok_inv env) in Cm; [| exact Hok]. subst d.
    unfold ret in H. injection H as <- <-.
    split; [| reflexivity].
    apply conn_ext; conn_fields; try reflexivity.
    rewrite <- !app_assoc. reflexivity.
Qed.

Lemma delete_invoice_returns env id c invoice :
  (forall s, fault env s = false) ->
  id <> 0%Z ->
  find (fun i => (inv_id i =? id)%Z) (invoices (tables c)) = Some invoice ->
  delete_invoice_with_cascade env (Some id) c
  = (Ok {| di_invoice_id := id;
           di_invoice_number := inv_invoice_number invoice;
           di_payments_count := List.length (related_payment_ids id (tables c)) |},
     after_invoice_deletion id (related_payment_ids id (tables c)) c).
Proof.
  intros Hnf Hid Fi.
  unfold delete_invoice_with_cascade, Php.truthy_int.
  replace (id =? 0)%Z with false by (symmetry; apply Z.eqb_neq; exact Hid).
  simpl negb. simpl Php.coalesce.
  do 3 run_step Hnf.
  apply try_catch_ok. unfold delete_invoice_in_transaction.
  run_step Hnf. rewrite Fi. cbv beta iota zeta.
  run_step Hnf. simpl Php.coalesce.
  unfold after_invoice_deletion, invoice_deleted, invoice_deletion_statements.
  destruct (negb (Nat.eqb (List.length (related_payment_ids id (tables c))) 0)) eqn:Hp;
    cbv iota.
  - repeat run_step Hnf. unfold ret. f_equal.
    apply conn_ext; conn_fields; try reflexivity.
    rewrite <- !app_assoc. reflexivity.
  - repeat run_step Hnf. unfold ret. f_equal.
    apply conn_ext; conn_fields; try reflexivity.
    rewrite <- !app_assoc. reflexivity.
Qed.

Lemma delete_invoice_in_transaction_on_error env x id :
  preserved_on_error (txn_is x) (delete_invoice_in_transaction env id).
Proof.
  unfold delete_invoice_in_transaction.
  apply preserved_on_error_bind; [keep_txn | intros [[invoice |] |]].
  - cbv zeta.
    apply preserved_on_error_bind; [keep_txn | intros payments_result].
    apply preserved_on_error_bind.
    { destruct (negb _); keep_txn. }
    intros _.
    apply preserved_on_error_bind.
    { destruct (negb _); keep_txn. }
    intros _.
    do 6 (apply preserved_on_error_bind; [keep_txn | intros ?];
          apply preserved_on_error_bind; [keep_txn | intros _]).
    apply commit_tail_on_error. intros c. eexists. eexists. reflexivity.
  - apply preserved_weaken. keep_txn.
  - apply preserved_weaken. keep_txn.
Qed.

Lemma delete_invoice_on_error env id c e c' :
  txn c = None ->
  delete_invoice_with_cascade env id c = (Err e, c') ->
  tables c' = tables c /\ txn c' = None.
Proof.
  intros Hx E. unfold delete_invoice_with_cascade in E.
  destruct (Php.truthy_int id).
  - rewrite (bind_ok _ _ c tt c eq_refl) in E. cbv zeta in E.
    destruct (begin_try_rollback_on_error env _ _ c e c'
                (fun x => delete_invoice_in_transaction_on_error env x _) E) as [T X].
    split; [exact T | exact (X Hx)].
  - inversion E; subst. split; [reflexivity | exact Hx].
Qed.

Lemma negb_Zeqb_true (a b : Z) : negb (a =? b)%Z = true <-> a <> b.
Proof. rewrite negb_true_iff. apply Z.eqb_neq. Qed.

Lemma col_is_true v id : col_is v id = true <-> v = Some id.
Proof.
  destruct v as [x |]; simpl.
  - rewrite Z.eqb_eq. split; [intros -> | intros H; injection H]; auto.
  - split; discriminate.
Qed.

Lemma negb_col_is_true v id : negb (col_is v id) = true <-> v <> Some id.
Proof.
  rewrite negb_true_iff, <- not_true_iff_false, col_is_true. reflexivity.
Qed.

Lemma existsb_Zeqb x ids : existsb (Z.eqb x) ids = true <-> In x ids.
Proof.
  rewrite existsb_exists. split.
  - intros [y [Hy E]]. apply Z.eqb_eq in E. subst. exact Hy.
  - intros H. exists x. split; [exact H | apply Z.eqb_refl].
Qed.

Lemma col_in_true v ids : col_in v ids = true <-> exists x, v = Some x /\ In x ids.
Proof.
  destruct v as [y |]; simpl.
  - rewrite existsb_Zeqb. split.
    + intros H. exists y. auto.
    + intros [x [E H]]. injection E as ->. exact H.
  - split; [discriminate | intros [x [E _]]; discriminate].
Qed.

Lemma related_payment_ids_In id t x :
  In x (related_payment_ids id t)
  <-> exists p, In p (payments t) /\ related_payment id p t = true /\ pay_id p = x.
Proof.
  unfold related_payment_ids. rewrite nodup_In, in_map_iff. split.
  - intros [p [E H]]. apply filter_In in H. destruct H as [H1 H2].
    exists p. repeat split; assumption.
  - intros [p [H1 [H2 E]]]. exists p. split; [exact E |].
    apply filter_In. split; assumption.
Qed.

Lemma has_rows {A} (l : list A) : negb (Nat.eqb (List.length l) 0) = true <-> l <> [].
Proof.
  destruct l; simpl; split; try discriminate; try congruence; auto.
Qed.

Lemma In_filter_iff {A} (f : A -> bool) (P : A -> Prop) (l : list A) :
  (forall x, f x = true <-> P x) ->
  forall x, In x (filter f l) <-> In x l /\ P x.
Proof. intros H x. rewrite filter_In, H. reflexivity. Qed.

Lemma negb_stock_reference_true id m :
  negb (String.eqb (sm_reference_type m) "INVOICE" && (sm_reference_id m =? id)%Z) = true
  <-> ~ (sm_reference_type m = "INVOICE" /\ sm_reference_id m = id).
Proof.
  rewrite negb_true_iff, <- not_true_iff_false, andb_true_iff, String.eqb_eq, Z.eqb_eq.
  reflexivity.
Qed.

(** X1: a deletion of invoice [id] that returns has removed, from invoices,
    invoice_items, payment_allocations, payments, credit_note_allocations and
    stock_movements, exactly the rows that refer to the invoice (for
    payments: the directly linked ones; for stock movements: those of
    reference type INVOICE); every other row of these tables is still there,
    the sequence counters and the AUTO_INCREMENT counters are as before and
    the transaction is closed. *)
Theorem delete_invoice_removes_its_rows env id c resp c' :
  delete_invoice_with_cascade env (Some id) c = (Ok resp, c') ->
  (forall i, In i (invoices (tables c'))
             <-> In i (invoices (tables c)) /\ inv_id i <> id)
  /\ (forall i, In i (invoice_items (tables c'))
                <-> In i (invoice_items (tables c)) /\ ii_invoice_id i <> id)
  /\ (forall a, In a (payment_allocations (tables c'))
                <-> In a (payment_allocations (tables c)) /\ pa_invoice_id a <> id)
  /\ (forall p, In p (payments (tables c'))
                <-> In p (payments (tables c)) /\ pay_invoice_id p <> Some id)
  /\ (forall a, In a (credit_note_allocations (tables c'))
                <-> In a (credit_note_allocations (tables c)) /\ cna_invoice_id a <> id)
  /\ (forall m, In m (stock_movements (tables c'))
                <-> In m (stock_movements (tables c))
                    /\ ~ (sm_reference_type m = "INVOICE" /\ sm_reference_id m = id))
  /\ document_sequences (tables c') = document_sequences (tables c)
  /\ autoinc c' = autoinc c
  /\ txn c' = None.
Proof.
  intros H. apply delete_invoice_ok_inv in H.
  destruct H as [invoice [pids [_ [_ [-> _]]]]].
  unfold after_invoice_deletion, invoice_deleted. conn_fields.
  split; [apply In_filter_iff; intros x; apply negb_Zeqb_true |].
  split; [apply In_filter_iff; intros x; apply negb_Zeqb_true |].
  split; [apply In_filter_iff; intros x; apply negb_Zeqb_true |].
  split; [apply In_filter_iff; intros x; apply negb_col_is_true |].
  split; [apply In_filter_iff; intros x; apply negb_Zeqb_true |].
  split; [apply In_filter_iff; intros x; apply negb_stock_reference_true |].
  repeat split.
Qed.

Lemma delete_invoice_removes_its_rows_witness :
  exists resp c',
    delete_invoice_with_cascade Sample.env_ok (Some 1%Z) Ledger.conn = (Ok resp, c')
    /\ map inv_id (invoices (tables c')) = [2%Z]
    /\ (forall p, In p (payments (tables c'))
                  <-> In p (payments Ledger.rows) /\ pay_invoice_id p <> Some 1%Z).
Proof.
  destruct (delete_invoice_with_cascade Sample.env_ok (Some 1%Z) Ledger.conn)
    as [r c'] eqn:E.
  assert (Hr : exists resp, r = Ok resp) by (vm_compute in E; injection E as <- _; eexists; reflexivity).
  destruct Hr as [resp ->]. exists resp, c'. split; [reflexivity |].
  split; [vm_compute in E; injection E as _ <-; reflexivity |].
  exact (proj1 (proj2 (proj2 (proj2
           (delete_invoice_removes_its_rows Sample.env_ok 1 Ledger.conn resp c' E))))).
Defined.

Lemma no_rows_iff {A} (l : list A) : negb (Nat.eqb (List.length l) 0) = false <-> l = [].
Proof.
  destruct l; simpl; split; try discriminate; auto.
Qed.

(** X2: when the lookup of the related payments (step 2) does not fail, a
    deletion of invoice [id] that returns has removed every receipt of a
    related payment (one linked to the invoice directly or through an
    allocation), the items of those receipts, and the audit rows of those
    payments or of the invoice; without any related payment the audit rows
    are all kept. *)
Theorem delete_invoice_removes_receipts_of_related_payments env id c resp c' :
  fault env (SelectRelatedPayments id) = false ->
  delete_invoice_with_cascade env (Some id) c = (Ok resp, c') ->
  let related x :=
    exists p, In p (payments (tables c))
              /\ related_payment id p (tables c) = true /\ pay_id p = x in
  (forall r, In r (receipts (tables c'))
             <-> In r (receipts (tables c))
                 /\ ~ (exists x, rc_payment_id r = Some x /\ related x))
  /\ (forall i, In i (receipt_items (tables c'))
                <-> In i (receipt_items (tables c))
                    /\ ~ (exists r x, In r (receipts (tables c))
                                      /\ rc_id r = ri_receipt_id i
                                      /\ rc_payment_id r = Some x /\ related x))
  /\ (forall l, In l (payment_audit_log (tables c'))
                <-> In l (payment_audit_log (tables c))
                    /\ ((forall x, ~ related x)
                        \/ (~ related (al_payment_id l) /\ al_invoice_id l <> Some id))).
Proof.
  intros Hf H related. apply delete_invoice_ok_inv in H.
  destruct H as [invoice [pids [_ [[[_ Hp] | [F _]] [-> _]]]]]; [| congruence].
  assert (R : forall x, In x pids <-> related x).
  { intros x. subst pids. apply related_payment_ids_In. }
  clearbody related. clear Hp Hf.
  unfold after_invoice_deletion, invoice_deleted. conn_fields.
  destruct (negb (Nat.eqb (List.length pids) 0)) eqn:Hn.
  - split; [| split].
    + apply In_filter_iff. intros r.
      rewrite negb_true_iff, <- not_true_iff_false, col_in_true.
      split; intros K [x [E Hx]]; apply K; exists x; split; auto; apply R; exact Hx.
    + apply In_filter_iff. intros i.
      rewrite negb_true_iff, <- not_true_iff_false, existsb_Zeqb.
      unfold receipts_of_payments. rewrite in_map_iff. split.
      * intros K [r [x [H1 [H2 [H3 H4]]]]]. apply K. exists r. split; [exact H2 |].
        apply filter_In. split; [exact H1 |]. apply col_in_true.
        exists x. split; [exact H3 |]. apply R. exact H4.
      * intros K [r [H2 H1]]. apply filter_In in H1. destruct H1 as [H1 H3].
        apply col_in_true in H3. destruct H3 as [x [H3 H4]].
        apply K. exists r, x. repeat split; auto. apply R. exact H4.
    + apply In_filter_iff. intros l.
      rewrite negb_true_iff, orb_false_iff, <- !not_true_iff_false,
        existsb_Zeqb, col_is_true, R.
      split.
      * intros K. right. exact K.
      * intros [K | K]; [| exact K].
        apply has_rows in Hn. destruct pids as [| x pids]; [congruence |].
        exfalso. apply (K x). apply R. left. reflexivity.
  - apply no_rows_iff in Hn. subst pids.
    assert (N : forall x, ~ related x) by (intros x K; apply R in K; exact K).
    split; [| split].
    + intros r. split; [| tauto]. intros K. split; [exact K |].
      intros [x [_ Hx]]. exact (N x Hx).
    + intros i. split; [| tauto]. intros K. split; [exact K |].
      intros [r [x [_ [_ [_ Hx]]]]]. exact (N x Hx).
    + intros l. split; [| tauto]. intros K. split; [exact K |]. left. exact N.
Qed.

Lemma delete_invoice_removes_receipts_of_related_payments_witness :
  exists resp c',
    delete_invoice_with_cascade Sample.env_ok (Some 1%Z) Ledger.conn = (Ok resp, c')
    /\ map rc_id (receipts (tables c')) = [3%Z; 4%Z]
    /\ (forall r, In r (receipts (tables c'))
                  <-> In r (receipts Ledger.rows)
                      /\ ~ (exists x, rc_payment_id r = Some x
                                      /\ exists p, In p (payments Ledger.rows)
                                                   /\ related_payment 1 p Ledger.rows = true
                                                   /\ pay_id p = x)).
Proof.
  destruct (delete_invoice_with_cascade Sample.env_ok (Some 1%Z) Ledger.conn)
    as [r c'] eqn:E.
  assert (Hr : exists resp, r = Ok resp)
    by (vm_compute in E; injection E as <- _; eexists; reflexivity).
  destruct Hr as [resp ->]. exists resp, c'. split; [reflexivity |].
  split; [vm_compute in E; injection E as _ <-; reflexivity |].
  exact (proj1 (delete_invoice_removes_receipts_of_related_payments
                  Sample.env_ok 1 Ledger.conn resp c' eq_refl E)).
Defined.

(** X3: when the lookup of the related payments fails, the deletion goes on
    as if the invoice had no payment: a run that returns reports 0 payments
    and has left every receipt, receipt item and audit row in place, while
    the payments linked to the invoice are deleted. *)
Theorem delete_invoice_failed_payment_lookup env id c resp c' :
  fault env (SelectRelatedPayments id) = true ->
  delete_invoice_with_cascade env (Some id) c = (Ok resp, c') ->
  di_payments_count resp = 0%nat
  /\ receipts (tables c') = receipts (tables c)
  /\ receipt_items (tables c') = receipt_items (tables c)
  /\ payment_audit_log (tables c') = payment_audit_log (tables c)
  /\ (forall p, In p (payments (tables c')) -> pay_invoice_id p <> Some id).
Proof.
  intros Hf H. apply delete_invoice_ok_inv in H.
  destruct H as [invoice [pids [_ [[[F _] | [_ ->]] [-> ->]]]]]; [congruence |].
  unfold after_invoice_deletion, invoice_deleted. conn_fields.
  cbn [di_payments_count List.length Nat.eqb negb].
  repeat split.
  intros p K. apply filter_In in K. apply negb_col_is_true. exact (proj2 K).
Qed.

Lemma delete_invoice_failed_payment_lookup_witness :
  exists resp c',
    delete_invoice_with_cascade (Ledger.env_failing Ledger.is_select_related_payments)
      (Some 1%Z) Ledger.conn = (Ok resp, c')
    /\ di_payments_count resp = 0%nat
    /\ receipts (tables c') = receipts Ledger.rows
    /\ map pay_id (payments (tables c')) = [2%Z; 5%Z].
Proof.
  destruct (delete_invoice_with_cascade
              (Ledger.env_failing Ledger.is_select_related_payments)
              (Some 1%Z) Ledger.conn) as [r c'] eqn:E.
  assert (Hr : exists resp, r = Ok resp)
    by (vm_compute in E; injection E as <- _; eexists; reflexivity).
  destruct Hr as [resp ->]. exists resp, c'. split; [reflexivity |].
  destruct (delete_invoice_failed_payment_lookup
              (Ledger.env_failing Ledger.is_select_related_payments)
              1 Ledger.conn resp c' eq_refl E) as [H1 [H2 _]].
  split; [exact H1 |]. split; [exact H2 |].
  vm_compute in E. injection E as _ <-. reflexivity.
Defined.

(** X4: a payment that belongs to another invoice but is allocated to the
    deleted invoice is kept (step 6 deletes the directly linked payments
    only), while all of its receipts are deleted and none of its remaining
    allocations points to the deleted invoice. *)
Theorem delete_invoice_keeps_payment_of_another_invoice env id c resp c' p :
  fault env (SelectRelatedPayments id) = false ->
  delete_invoice_with_cascade env (Some id) c = (Ok resp, c') ->
  In p (payments (tables c)) ->
  pay_invoice_id p <> Some id ->
  allocated_to id p (tables c) = true ->
  In p (payments (tables c'))
  /\ (forall r, In r (receipts (tables c')) -> rc_payment_id r <> Some (pay_id p))
  /\ (forall a, In a (payment_allocations (tables c')) -> pa_invoice_id a <> id).
Proof.
  intros Hf H Hin Hlink Halloc. apply delete_invoice_ok_inv in H.
  destruct H as [invoice [pids [_ [[[_ Hp] | [F _]] [-> _]]]]]; [| congruence].
  assert (R : In (pay_id p) pids).
  { subst pids. apply related_payment_ids_In. exists p. repeat split; auto.
    unfold related_payment. rewrite Halloc. apply orb_true_r. }
  assert (Hn : negb (Nat.eqb (List.length pids) 0) = true).
  { apply has_rows. intros ->. exact R. }
  unfold after_invoice_deletion, invoice_deleted. conn_fields. rewrite Hn.
  split; [| split].
  - apply filter_In. split; [exact Hin |]. apply negb_col_is_true. exact Hlink.
  - intros r K E. apply filter_In in K. destruct K as [_ K].
    apply negb_true_iff in K. rewrite E in K. simpl in K.
    apply not_true_iff_false in K. apply K. apply existsb_Zeqb. exact R.
  - intros a K. apply filter_In in K. apply negb_Zeqb_true. exact (proj2 K).
Qed.

Lemma delete_invoice_keeps_payment_of_another_invoice_witness :
  exists resp c',
    delete_invoice_with_cascade Sample.env_ok (Some 1%Z) Ledger.conn = (Ok resp, c')
    /\ In (Ledger.payment 2 (Some 2%Z) "PAY-2026-0002" (700 # 1)) (payments (tables c'))
    /\ (forall r, In r (receipts (tables c')) -> rc_payment_id r <> Some 2%Z)
    /\ map inv_id (invoices (tables c')) = [2%Z].
Proof.
  destruct (delete_invoice_with_cascade Sample.env_ok (Some 1%Z) Ledger.conn)
    as [r c'] eqn:E.
  assert (Hr : exists resp, r = Ok resp)
    by (vm_compute in E; injection E as <- _; eexists; reflexivity).
  destruct Hr as [resp ->]. exists resp, c'. split; [reflexivity |].
  destruct (delete_invoice_keeps_payment_of_another_invoice
              Sample.env_ok 1 Ledger.conn resp c'
              (Ledger.payment 2 (Some 2%Z) "PAY-2026-0002" (700 # 1)) eq_refl E)
    as [H1 [H2 _]].
  - right. left. reflexivity.
  - discriminate.
  - reflexivity.
  - split; [exact H1 |]. split; [exact H2 |].
    vm_compute in E. injection E as _ <-. reflexivity.
Defined.

(** X5: on an invoice of the store, when no statement fails, the deletion
    returns; it answers with the stored invoice number and the number of
    related payments, it has sent the statements of the cascade in the order
    of [invoice_deletion_statements], between begin and commit, and the
    invoice is gone. *)
Theorem delete_invoice_succeeds env id c invoice :
  (forall s, fault env s = false) ->
  id <> 0%Z ->
  find (fun i => (inv_id i =? id)%Z) (invoices (tables c)) = Some invoice ->
  exists resp c',
    delete_invoice_with_cascade env (Some id) c = (Ok resp, c')
    /\ di_invoice_id resp = id
    /\ di_invoice_number resp = inv_invoice_number invoice
    /\ di_payments_count resp = List.length (related_payment_ids id (tables c))
    /\ log c' = (log c ++ invoice_deletion_statements id
                            (related_payment_ids id (tables c)))%list
    /\ invoice_exists id (tables c') = false.
Proof.
  intros Hnf Hid Fi. eexists. eexists.
  split; [exact (delete_invoice_returns env id c invoice Hnf Hid Fi) |].
  repeat split.
  unfold invoice_exists, after_invoice_deletion, invoice_deleted. conn_fields.
  rewrite find_filter_out. reflexivity.
Qed.

Lemma delete_invoice_succeeds_witness :
  exists resp c',
    delete_invoice_with_cascade Sample.env_ok (Some 1%Z) Ledger.conn = (Ok resp, c')
    /\ di_invoice_number resp = "INV-2026-0001"
    /\ di_payments_count resp = 2%nat
    /\ log c' = [BeginTransaction; SelectInvoice 1; SelectRelatedPayments 1;
                 DeleteAudit [1%Z; 2%Z] 1; DeleteReceiptItemsOfPayments [1%Z; 2%Z];
                 DeleteReceiptsOfPayments [1%Z; 2%Z];
                 DeleteAllocationsOfInvoice 1; DeletePaymentsOfInvoice 1;
                 DeleteCreditNoteAllocations 1; DeleteStockMovements 1;
                 DeleteInvoiceItems 1; DeleteInvoice 1; CommitTransaction].
Proof.
  destruct (delete_invoice_succeeds Sample.env_ok 1 Ledger.conn
              (Ledger.invoice 1 "INV-2026-0001" (1000 # 1) (800 # 1) partial))
    as [resp [c' [E [_ [H1 [H2 [H3 _]]]]]]].
  - reflexivity.
  - discriminate.
  - reflexivity.
  - exists resp, c'. split; [exact E |]. split; [exact H1 |].
    split; [exact H2 |]. exact H3.
Defined.

Lemma autoinc_is_logged a s c : autoinc_is a c -> autoinc_is a (logged s c).
Proof. intros H. exact H. Qed.

Ltac keep_autoinc :=
  repeat first
    [ apply preserved_ret
    | apply preserved_throw
    | apply preserved_unless_throw
    | apply preserved_query_select; [exact (autoinc_is_logged _)]
    | apply preserved_query_write; [exact (autoinc_is_logged _) | intros ? ? H _; exact H]
    | apply preserved_bind; [| intro]
    | progress (intros; simpl) ].

Section AutoIncrementFrame.

Variable env : Env.
Variable a : AutoInc.

Lemma begin_transaction_keeps_autoinc : preserved (autoinc_is a) (begin_transaction env).
Proof.
  intros c H. unfold begin_transaction. destruct (fault env BeginTransaction); exact H.
Qed.

Lemma commit_keeps_autoinc : preserved (autoinc_is a) (commit env).
Proof.
  intros c H. unfold commit. destruct (fault env CommitTransaction); exact H.
Qed.

Lemma rollback_keeps_autoinc : preserved (autoinc_is a) rollback.
Proof.
  intros c H. unfold rollback. simpl. destruct (txn c); exact H.
Qed.

Lemma rollback_rethrow_keeps_autoinc {A} message :
  preserved (autoinc_is a) (rollback ;;; @throw A message).
Proof.
  apply preserved_bind; [apply rollback_keeps_autoinc | intros _; apply preserved_throw].
Qed.

Lemma delete_invoice_keeps_autoinc id :
  preserved (autoinc_is a) (delete_invoice_with_cascade env id).
Proof.
  unfold delete_invoice_with_cascade.
  apply preserved_bind; [keep_autoinc | intros _]. cbv zeta.
  apply preserved_bind; [apply begin_transaction_keeps_autoinc | intros ok].
  apply preserved_bind; [keep_autoinc | intros _].
  apply preserved_try_catch; [| intros e; apply rollback_rethrow_keeps_autoinc].
  unfold delete_invoice_in_transaction.
  apply preserved_bind; [keep_autoinc | intros [[invoice |] |]]; [| keep_autoinc ..].
  cbv zeta.
  apply preserved_bind; [keep_autoinc | intros payments_result].
  apply preserved_bind; [destruct (negb _); keep_autoinc | intros _].
  apply preserved_bind; [destruct (negb _); keep_autoinc | intros _].
  do 6 (apply preserved_bind; [keep_autoinc | intros ?];
        apply preserved_bind; [keep_autoinc | intros _]).
  apply preserved_bind; [apply commit_keeps_autoinc | intros ok'].
  keep_autoinc.
Qed.

End AutoIncrementFrame.

(** X6: a deletion of an invoice that fails, at whatever statement, leaves
    the rows of every table as they were and no transaction open; its message
    is that of the missing parameter or carries the prefix of the handler. *)
Theorem delete_invoice_is_atomic env id c e c' :
  txn c = None ->
  delete_invoice_with_cascade env id c = (Err e, c') ->
  tables c' = tables c
  /\ autoinc c' = autoinc c
  /\ txn c' = None
  /\ (e = "Missing invoice_id parameter"
      \/ e = "Failed to start transaction"
      \/ exists message, e = "Invoice deletion failed: " ++ message).
Proof.
  intros Hx E.
  destruct (delete_invoice_on_error env id c e c' Hx E) as [T X].
  split; [exact T |]. split; [| split; [exact X |]].
  - pose proof (delete_invoice_keeps_autoinc env (autoinc c) id c eq_refl) as K.
    rewrite E in K. exact K.
  - unfold delete_invoice_with_cascade in E.
    destruct (Php.truthy_int id); [| inversion E; auto].
    rewrite (bind_ok _ _ c tt c eq_refl) in E. cbv zeta in E.
    unfold bind at 1 in E.
    destruct (begin_transaction env c) as [[[|] | e0] c1] eqn:B.
    + rewrite (bind_ok _ _ _ tt _ eq_refl) in E.
      unfold try_catch in E.
      destruct (delete_invoice_in_transaction env (Php.coalesce id 0%Z) c1)
        as [[a | e1] c2]; [discriminate |].
      unfold bind, rollback, throw in E. inversion E. right. right. eexists. reflexivity.
    + inversion E. auto.
    + unfold begin_transaction in B. destruct (fault env BeginTransaction); discriminate.
Qed.

Lemma delete_invoice_is_atomic_witness :
  exists e c',
    delete_invoice_with_cascade (Ledger.env_failing Ledger.is_delete_invoice)
      (Some 1%Z) Ledger.conn = (Err e, c')
    /\ e = "Invoice deletion failed: Failed to delete invoice"
    /\ tables c' = Ledger.rows.
Proof.
  destruct (delete_invoice_with_cascade (Ledger.env_failing Ledger.is_delete_invoice)
              (Some 1%Z) Ledger.conn) as [r c'] eqn:E.
  assert (Hr : r = Err "Invoice deletion failed: Failed to delete invoice")
    by (vm_compute in E; congruence).
  subst r. eexists. exists c'. split; [reflexivity |]. split; [reflexivity |].
  exact (proj1 (delete_invoice_is_atomic _ _ Ledger.conn _ c' eq_refl E)).
Defined.

(** ** Receipt deletion, for any receipt *)

Lemma recalculate_invoice_ok_rows env iid c u c' :
  recalculate_invoice env iid c = (Ok u, c') ->
  tables c' = invoice_recalculated iid (tables c)
  /\ autoinc c' = autoinc c /\ txn c' = txn c.
Proof.
  intros H. unfold recalculate_invoice in H. unfold invoice_recalculated.
  ok_bind_keep H invoice_check_result d Sr.
  destruct invoice_check_result as [[invoice |] |]; [| | discriminate].
  - apply query_select_ok_state in Sr. destruct Sr as [Fi ->]. injection Fi as Fi.
    rewrite Fi. cbv zeta in H.
    ok_bind_keep H paid_sum_result d Ss.
    destruct paid_sum_result as [paid_amount |]; [| discriminate].
    apply query_select_ok_state in Ss. destruct Ss as [Fs ->].
    conn_fields_in Fs. injection Fs as <-.
    ok_bind_keep H ok d W. apply unless_throw_ok_inv in H. destruct H as [-> ->].
    apply query_write_ok_state in W. subst d. conn_fields. repeat split.
  - apply query_select_ok_state in Sr. destruct Sr as [Fi ->]. injection Fi as Fi.
    rewrite Fi. unfold ret in H. injection H as _ <-. repeat split.
Qed.

(** A run of the receipt deletion that returns found the receipt and left
    the rows of [receipt_deleted]. *)
Lemma delete_receipt_ok_rows env id c resp c' :
  delete_receipt_with_cascade env id c = (Ok resp, c') ->
  exists receipt,
    Php.intval id = rc_id receipt
    /\ (0 < rc_id receipt)%Z
    /\ find (fun r => (rc_id r =? rc_id receipt)%Z) (receipts (tables c)) = Some receipt
    /\ tables c' = receipt_deleted receipt (tables c)
    /\ autoinc c' = autoinc c
    /\ txn c' = None
    /\ resp = {| dr_receipt_id := rc_id receipt;
                 dr_receipt_number := rc_receipt_number receipt;
                 dr_invoice_id := rc_invoice_id receipt;
                 dr_payment_id := rc_payment_id receipt;
                 dr_amount_reversed := rc_total_amount receipt |}.
Proof.
  intros H. unfold delete_receipt_with_cascade in H.
  apply try_rethrow_ok_inv in H; [| intros e; apply rollback_rethrow_always_throws].
  unfold delete_receipt_in_transaction in H.
  ok_bind_keep H u1 c0 S1. apply unless_throw_ok_inv in S1. destruct S1 as [Hid ->].
  ok_bind_keep H u2 c0 S2. apply unless_throw_ok_inv in S2. destruct S2 as [Hpos ->].
  set (rid := Php.intval id) in *.
  apply negb_true_iff, Z.leb_gt in Hpos.
  ok_bind_keep H ok c1 B. ok_bind_keep H u3 c2 U.
  apply unless_throw_ok_inv in U. destruct U as [Hok ->].
  apply (begin_transaction_ok_inv env) in B; [| exact Hok]. subst c1. clear Hok ok.
  unfold delete_receipt_steps in H.
  ok_bind_keep H receipt_result d Sr.
  destruct receipt_result as [[receipt |] |]; try discriminate.
  apply query_select_ok_state in Sr. destruct Sr as [Fr ->].
  conn_fields_in Fr. injection Fr as Fr.
  assert (Er : rc_id receipt = rid).
  { apply find_some in Fr. apply Z.eqb_eq. exact (proj2 Fr). }
  cbv zeta in H. ok_write H.
  exists receipt. rewrite Er. split; [reflexivity |]. split; [exact Hpos |].
  split; [exact Fr |].
  unfold receipt_deleted, payment_reversed. rewrite Er. cbv zeta.
  repeat (rewrite bind_assoc in H; cbv beta in H).
  ok_bind_keep H v1 d P.
  assert (Pd : tables d
               = payment_reversed (rc_payment_id receipt)
                   (with_receipt_items
                      (filter (fun i => negb (ri_receipt_id i =? rid)%Z)
                         (receipt_items (tables c))) (tables c))
               /\ autoinc d = autoinc c).
  { unfold payment_reversed.
    destruct (Php.truthy_int (rc_payment_id receipt)).
    - do 2 ok_write P.
      ok_bind_keep P ok d1 W. apply unless_throw_ok_inv in P. destruct P as [-> ->].
      apply query_write_ok_state in W. subst d1. conn_fields. split; reflexivity.
    - unfold ret in P. injection P as _ <-. conn_fields. split; reflexivity. }
  destruct Pd as [Td Ad]. clear P.
  ok_bind_keep H v2 d2 R.
  assert (Rd : tables d2
               = (if Php.truthy_int (rc_invoice_id receipt)
                  then invoice_recalculated (Php.coalesce (rc_invoice_id receipt) 0%Z)
                         (tables d)
                  else tables d)
               /\ autoinc d2 = autoinc d).
  { destruct (Php.truthy_int (rc_invoice_id receipt)).
    - apply recalculate_invoice_ok_rows in R. destruct R as [R1 [R2 _]]. auto.
    - unfold ret in R. injection R as _ <-. auto. }
  destruct Rd as [Td2 Ad2]. clear R.
  ok_bind_keep H ok d3 W. ok_bind_keep H u4 d4 U.
  apply unless_throw_ok_inv in U. destruct U as [Hok ->]. subst ok.
  apply query_write_ok_state in W. subst d3.
  ok_bind_keep H ok d5 Cm. ok_bind_keep H committed d6 U.
  apply unless_throw_ok_inv in U. destruct U as [Hok ->].
  apply (commit_ok_inv env) in Cm; [| exact Hok]. subst d5.
  unfold ret in H. injection H as <- <-. conn_fields.
  rewrite Td2, Td, Ad2, Ad. unfold payment_reversed. repeat split.
Qed.

Lemma invoice_header_update iid status paid_amount balance_due l :
  map invoice_header (map (update_invoice_row iid status paid_amount balance_due) l)
  = map invoice_header l.
Proof.
  rewrite map_map. apply map_ext. intros i. unfold update_invoice_row.
  destruct (inv_id i =? iid)%Z; reflexivity.
Qed.

Lemma update_invoice_row_other iid status paid_amount balance_due i :
  inv_id i <> iid -> update_invoice_row iid status paid_amount balance_due i = i.
Proof.
  intros H. unfold update_invoice_row.
  replace (inv_id i =? iid)%Z with false by (symmetry; apply Z.eqb_neq; exact H).
  reflexivity.
Qed.

Lemma payment_reversed_frame pid t :
  invoices (payment_reversed pid t) = invoices t
  /\ invoice_items (payment_reversed pid t) = invoice_items t
  /\ receipts (payment_reversed pid t) = receipts t
  /\ receipt_items (payment_reversed pid t) = receipt_items t
  /\ credit_note_allocations (payment_reversed pid t) = credit_note_allocations t
  /\ stock_movements (payment_reversed pid t) = stock_movements t
  /\ document_sequences (payment_reversed pid t) = document_sequences t.
Proof.
  unfold payment_reversed. destruct (Php.truthy_int pid); repeat split.
Qed.

Lemma invoice_recalculated_frame iid t :
  map invoice_header (invoices (invoice_recalculated iid t)) = map invoice_header (invoices t)
  /\ invoice_items (invoice_recalculated iid t) = invoice_items t
  /\ payments (invoice_recalculated iid t) = payments t
  /\ payment_allocations (invoice_recalculated iid t) = payment_allocations t
  /\ receipts (invoice_recalculated iid t) = receipts t
  /\ receipt_items (invoice_recalculated iid t) = receipt_items t
  /\ payment_audit_log (invoice_recalculated iid t) = payment_audit_log t
  /\ credit_note_allocations (invoice_recalculated iid t) = credit_note_allocations t
  /\ stock_movements (invoice_recalculated iid t) = stock_movements t
  /\ document_sequences (invoice_recalculated iid t) = document_sequences t.
Proof.
  unfold invoice_recalculated.
  destruct (find _ (invoices t)); conn_fields; repeat split.
  apply invoice_header_update.
Qed.



(** X8: a receipt deletion that returns has removed the receipt and its
    items and nothing else from receipts and receipt_items; it never adds or
    removes an invoice and never writes an invoice's id, company, customer,
    number or total; invoice_items, credit_note_allocations,
    stock_movements, the sequence counters and the AUTO_INCREMENT counters
    are as before. *)
Theorem delete_receipt_touches_only_its_documents env id c resp c' :
  delete_receipt_with_cascade env id c = (Ok resp, c') ->
  (forall r, In r (receipts (tables c'))
             <-> In r (receipts (tables c)) /\ rc_id r <> dr_receipt_id resp)
  /\ (forall i, In i (receipt_items (tables c'))
                <-> In i (receipt_items (tables c)) /\ ri_receipt_id i <> dr_receipt_id resp)
  /\ map invoice_header (invoices (tables c')) = map invoice_header (invoices (tables c))
  /\ invoice_items (tables c') = invoice_items (tables c)
  /\ credit_note_allocations (tables c') = credit_note_allocations (tables c)
  /\ stock_movements (tables c') = stock_movements (tables c)
  /\ document_sequences (tables c') = document_sequences (tables c)
  /\ autoinc c' = autoinc c.
Proof.
  intros H. apply delete_receipt_ok_rows in H.
  destruct H as [receipt [_ [_ [_ [T [A [_ ->]]]]]]].
  cbn [dr_receipt_id]. rewrite T. unfold receipt_deleted. cbv zeta.
  set (t2 := with_receipt_items _ (tables c)).
  set (t5 := payment_reversed (rc_payment_id receipt) t2).
  destruct (payment_reversed_frame (rc_payment_id receipt) t2)
    as [P1 [P2 [P3 [P4 [P5 [P6 P7]]]]]].
  fold t5 in P1, P2, P3, P4, P5, P6, P7.
  set (t6 := if Php.truthy_int (rc_invoice_id receipt)
             then invoice_recalculated (Php.coalesce (rc_invoice_id receipt) 0%Z) t5
             else t5).
  assert (R : map invoice_header (invoices t6) = map invoice_header (invoices t5)
              /\ invoice_items t6 = invoice_items t5
              /\ receipts t6 = receipts t5
              /\ receipt_items t6 = receipt_items t5
              /\ credit_note_allocations t6 = credit_note_allocations t5
              /\ stock_movements t6 = stock_movements t5
              /\ document_sequences t6 = document_sequences t5).
  { subst t6. destruct (Php.truthy_int (rc_invoice_id receipt)); [| repeat split].
    destruct (invoice_recalculated_frame (Php.coalesce (rc_invoice_id receipt) 0%Z) t5)
      as [R1 [R2 [_ [_ [R5 [R6 [_ [R8 [R9 R10]]]]]]]]].
    repeat split; assumption. }
  destruct R as [R1 [R2 [R3 [R4 [R5 [R6 R7]]]]]].
  conn_fields. rewrite R1, R2, R3, R4, R5, R6, R7, P1, P2, P3, P4, P5, P6, P7.
  subst t2. conn_fields.
  split; [apply In_filter_iff; intros x; apply negb_Zeqb_true |].
  split; [apply In_filter_iff; intros x; apply negb_Zeqb_true |].
  repeat split. exact A.
Qed.

Lemma delete_receipt_touches_only_its_documents_witness :
  exists resp c',
    delete_receipt_with_cascade Sample.env_ok (Php.Int 1) Ledger.conn = (Ok resp, c')
    /\ map rc_id (receipts (tables c')) = [2%Z; 3%Z; 4%Z]
    /\ map invoice_header (invoices (tables c')) = map invoice_header (invoices Ledger.rows)
    /\ invoice_items (tables c') = invoice_items Ledger.rows.
Proof.
  destruct (delete_receipt_with_cascade Sample.env_ok (Php.Int 1) Ledger.conn)
    as [r c'] eqn:E.
  assert (Hr : exists resp, r = Ok resp)
    by (vm_compute in E; injection E as <- _; eexists; reflexivity).
  destruct Hr as [resp ->]. exists resp, c'. split; [reflexivity |].
  destruct (delete_receipt_touches_only_its_documents Sample.env_ok _ Ledger.conn resp c' E)
    as [_ [_ [H3 [H4 _]]]].
  split; [vm_compute in E; injection E as _ <-; reflexivity |].
  split; [exact H3 | exact H4].
Defined.

(** X9: the optional links of a receipt.  A receipt without a payment
    (payment_id NULL or 0) is deleted without touching payments,
    payment_allocations or payment_audit_log; a receipt without an invoice,
    or whose invoice is no longer in the store (the code only logs a
    warning), is deleted without touching the invoices. *)
Theorem delete_receipt_with_missing_links env id c resp c' :
  delete_receipt_with_cascade env id c = (Ok resp, c') ->
  (Php.truthy_int (dr_payment_id resp) = false ->
   payments (tables c') = payments (tables c)
   /\ payment_allocations (tables c') = payment_allocations (tables c)
   /\ payment_audit_log (tables c') = payment_audit_log (tables c))
  /\ (Php.truthy_int (dr_invoice_id resp) = false
      \/ invoice_exists (Php.coalesce (dr_invoice_id resp) 0%Z) (tables c) = false ->
      invoices (tables c') = invoices (tables c)).
Proof.
  intros H. apply delete_receipt_ok_rows in H.
  destruct H as [receipt [_ [_ [_ [T [_ [_ ->]]]]]]].
  cbn [dr_payment_id dr_invoice_id]. rewrite T. unfold receipt_deleted. cbv zeta.
  set (t2 := with_receipt_items _ (tables c)).
  set (t5 := payment_reversed (rc_payment_id receipt) t2).
  destruct (payment_reversed_frame (rc_payment_id receipt) t2) as [P1 _].
  fold t5 in P1.
  split.
  - intros Hp. conn_fields.
    assert (E5 : t5 = t2) by (subst t5; unfold payment_reversed; rewrite Hp; reflexivity).
    destruct (Php.truthy_int (rc_invoice_id receipt)).
    + destruct (invoice_recalculated_frame (Php.coalesce (rc_invoice_id receipt) 0%Z) t5)
        as [_ [_ [R3 [R4 [_ [_ [R7 _]]]]]]].
      rewrite R3, R4, R7, E5. subst t2. repeat split.
    + rewrite E5. subst t2. repeat split.
  - intros Hi. conn_fields.
    destruct (Php.truthy_int (rc_invoice_id receipt)) eqn:Ht.
    + destruct Hi as [Hi | Hi]; [discriminate |].
      unfold invoice_recalculated. unfold invoice_exists in Hi.
      rewrite P1. subst t2. conn_fields.
      destruct (find _ (invoices (tables c))); [discriminate |].
      rewrite P1. reflexivity.
    + rewrite P1. subst t2. reflexivity.
Qed.

Lemma delete_receipt_with_missing_links_witness :
  (exists resp c',
      delete_receipt_with_cascade Sample.env_ok (Php.Int 3) Ledger.conn = (Ok resp, c')
      /\ payments (tables c') = payments Ledger.rows
      /\ payment_allocations (tables c') = payment_allocations Ledger.rows
      /\ invoices (tables c') = invoices Ledger.rows
      /\ map rc_id (receipts (tables c')) = [1%Z; 2%Z; 4%Z])
  /\ (exists resp c',
         delete_receipt_with_cascade Sample.env_ok (Php.Int 4) Ledger.conn = (Ok resp, c')
         /\ invoices (tables c') = invoices Ledger.rows
         /\ map pay_id (payments (tables c')) = [1%Z; 2%Z]).
Proof.
  split.
  - destruct (delete_receipt_with_cascade Sample.env_ok (Php.Int 3) Ledger.conn)
      as [r c'] eqn:E.
    assert (Hr : r = Ok {| dr_receipt_id := 3; dr_receipt_number := "REC-000003CCCCCC";
                           dr_invoice_id := None; dr_payment_id := None;
                           dr_amount_reversed := 40 # 1 |})
      by (vm_compute in E; injection E as <- _; reflexivity).
    subst r. eexists. exists c'. split; [reflexivity |].
    destruct (delete_receipt_with_missing_links Sample.env_ok _ Ledger.conn _ c' E)
      as [H1 H2].
    destruct (H1 eq_refl) as [K1 [K2 _]].
    split; [exact K1 |]. split; [exact K2 |]. split; [exact (H2 (or_introl eq_refl)) |].
    vm_compute in E. injection E as <-. reflexivity.
  - destruct (delete_receipt_with_cascade Sample.env_ok (Php.Int 4) Ledger.conn)
      as [r c'] eqn:E.
    assert (Hr : r = Ok {| dr_receipt_id := 4; dr_receipt_number := "REC-000004DDDDDD";
                           dr_invoice_id := Some 8%Z; dr_payment_id := Some 5%Z;
                           dr_amount_reversed := 50 # 1 |})
      by (vm_compute in E; injection E as <- _; reflexivity).
    subst r. eexists. exists c'. split; [reflexivity |].
    destruct (delete_receipt_with_missing_links Sample.env_ok _ Ledger.conn _ c' E)
      as [_ H2].
    split; [exact (H2 (or_intror eq_refl)) |].
    vm_compute in E. injection E as <-. reflexivity.
Defined.

(** X10: step 4 deletes every allocation of the receipt's payment, to
    whatever invoice, but step 6 recomputes the receipt's invoice only: the
    row of any other invoice is left exactly as it was, also when
    allocations to it have just been deleted. *)
Theorem delete_receipt_recalculates_one_invoice env id c resp c' :
  delete_receipt_with_cascade env id c = (Ok resp, c') ->
  Php.truthy_int (dr_payment_id resp) = true ->
  (forall a, In a (payment_allocations (tables c'))
             <-> In a (payment_allocations (tables c))
                 /\ Some (pa_payment_id a) <> dr_payment_id resp)
  /\ (forall i, In i (invoices (tables c)) ->
                Some (inv_id i) <> dr_invoice_id resp ->
                In i (invoices (tables c'))).
Proof.
  intros H Hp. apply delete_receipt_ok_rows in H.
  destruct H as [receipt [_ [_ [_ [T [_ [_ ->]]]]]]].
  cbn [dr_payment_id dr_invoice_id] in *. rewrite T. unfold receipt_deleted. cbv zeta.
  set (t2 := with_receipt_items _ (tables c)).
  set (t5 := payment_reversed (rc_payment_id receipt) t2).
  assert (A5 : payment_allocations t5
               = filter (fun a => negb (pa_payment_id a
                                        =? Php.coalesce (rc_payment_id receipt) 0%Z)%Z)
                   (payment_allocations (tables c))).
  { subst t5. unfold payment_reversed. rewrite Hp. reflexivity. }
  destruct (payment_reversed_frame (rc_payment_id receipt) t2) as [P1 _].
  fold t5 in P1.
  destruct (rc_payment_id receipt) as [pid |] eqn:Ep; [| discriminate].
  cbn [Php.coalesce] in A5.
  split.
  - conn_fields.
    assert (A6 : payment_allocations
                   (if Php.truthy_int (rc_invoice_id receipt)
                    then invoice_recalculated (Php.coalesce (rc_invoice_id receipt) 0%Z) t5
                    else t5) = payment_allocations t5).
    { destruct (Php.truthy_int (rc_invoice_id receipt)); [| reflexivity].
      exact (proj1 (proj2 (proj2 (proj2 (invoice_recalculated_frame _ t5))))). }
    rewrite A6, A5.
    apply (In_filter_iff _ (fun a => Some (pa_payment_id a) <> Some pid)). intros x.
    rewrite negb_Zeqb_true. split; intros K E; apply K; congruence.
  - intros i Hin Hother. conn_fields.
    destruct (Php.truthy_int (rc_invoice_id receipt)) eqn:Ht;
      [| rewrite P1; subst t2; exact Hin].
    unfold invoice_recalculated.
    destruct (find _ (invoices t5)); [| rewrite P1; subst t2; exact Hin].
    cbv zeta. conn_fields. rewrite P1. subst t2. conn_fields.
    apply in_map_iff. exists i. split; [| exact Hin].
    apply update_invoice_row_other. intros E. apply Hother.
    destruct (rc_invoice_id receipt) as [iid |]; [| discriminate].
    cbn [Php.coalesce] in E. congruence.
Qed.

Lemma delete_receipt_recalculates_one_invoice_witness :
  exists resp c' invoice,
    delete_receipt_with_cascade Sample.env_ok (Php.Int 2) Ledger.conn = (Ok resp, c')
    /\ In invoice (invoices (tables c'))
    /\ inv_id invoice = 1%Z
    /\ inv_paid_amount invoice = 800 # 1
    /\ sum_allocations 1 (tables c') = 600 # 1.
Proof.
  destruct (delete_receipt_with_cascade Sample.env_ok (Php.Int 2) Ledger.conn)
    as [r c'] eqn:E.
  assert (Hr : r = Ok {| dr_receipt_id := 2; dr_receipt_number := "REC-000002BBBBBB";
                         dr_invoice_id := Some 2%Z; dr_payment_id := Some 2%Z;
                         dr_amount_reversed := 700 # 1 |})
    by (vm_compute in E; injection E as <- _; reflexivity).
  subst r. eexists. exists c'.
  exists (Ledger.invoice 1 "INV-2026-0001" (1000 # 1) (800 # 1) partial).
  split; [reflexivity |].
  destruct (delete_receipt_recalculates_one_invoice Sample.env_ok _ Ledger.conn _ c' E eq_refl)
    as [_ H2].
  split; [apply H2; [left; reflexivity | discriminate] |].
  split; [reflexivity |]. split; [reflexivity |].
  vm_compute in E. injection E as <-. reflexivity.
Defined.

(** ** The sequence allocator, whatever fails *)

Lemma with_document_sequences_same t rows :
  document_sequences t = Some rows -> with_document_sequences (Some rows) t = t.
Proof. destruct t; simpl. intros ->. reflexivity. Qed.

Lemma ensure_sequences_table_ok_inv env c u c' :
  ensure_sequences_table env c = (Ok u, c') ->
  tables c'
  = with_document_sequences (Some (Php.coalesce (document_sequences (tables c)) []))
      (tables c)
  /\ autoinc c' = autoinc c /\ txn c' = txn c.
Proof.
  unfold ensure_sequences_table, bind, query_select, query_write, unless_throw, ret, throw.
  destruct c as [t a x l]. simpl.
  destruct (fault env SeqTableCheck), (fault env SeqCreateTable),
    (document_sequences t) as [rows |] eqn:E; simpl; rewrite ?E; simpl;
    intros H; inversion H; subst; simpl; rewrite ?E; simpl; repeat split;
    try (symmetry; apply with_document_sequences_same; exact E).
Qed.

Lemma next_sequence_ok_inv env type year c n c' :
  next_sequence env type year c = (Ok n, c') ->
  n = (counter type year (tables c) + 1)%Z
  /\ tables c'
     = with_document_sequences (Some (sequences_after type year (tables c))) (tables c)
  /\ autoinc c' = autoinc c /\ txn c' = txn c.
Proof.
  unfold next_sequence, bind, query_select, query_write, unless_throw, ret, throw.
  destruct c as [t a x l]. simpl.
  assert (Hafter := counter_sequences_after type year t).
  unfold counter, sequences_after in *. simpl in Hafter.
  destruct (document_sequences t) as [rows |] eqn:D; simpl in *.
  - destruct (find (seq_match type year) rows) as [r |] eqn:F.
    + assert (Ex : existsb (seq_match type year) rows = true).
      { destruct (existsb (seq_match type year) rows) eqn:Ex; [reflexivity |].
        apply find_existsb_none in Ex. congruence. }
      rewrite Ex in *.
      destruct (fault env (SeqSelect type year)); simpl; rewrite ?D, ?Ex; simpl.
      * destruct (fault env (SeqInsert type year)); simpl; discriminate.
      * destruct (fault env (SeqUpdate type year)); simpl; [discriminate |].
        rewrite ?D; simpl.
        destruct (fault env (SeqFetch type year)); simpl; [discriminate |].
        rewrite find_bump_same, F in *. simpl in *.
        intros H. inversion H; subst. simpl. repeat split. exact Hafter.
    + assert (Ex : existsb (seq_match type year) rows = false)
        by (apply find_existsb_none; exact F).
      rewrite Ex in *.
      assert (Hnew : find (seq_match type year)
                       (map (seq_bump type year)
                          (rows ++ [{| sq_document_type := type; sq_year := year;
                                       sq_sequence_number := 0 |}]))
                     = Some (seq_bump type year
                               {| sq_document_type := type; sq_year := year;
                                  sq_sequence_number := 0 |})).
      { rewrite find_bump_same, (find_app_r _ _ _ F). simpl.
        rewrite seq_match_new_row. reflexivity. }
      rewrite Hnew in Hafter.
      destruct (fault env (SeqSelect type year)); simpl; rewrite ?D, ?Ex; simpl.
      all: destruct (fault env (SeqInsert type year)); simpl; [discriminate |].
      all: rewrite ?D, ?Ex; simpl.
      all: destruct (fault env (SeqUpdate type year)); simpl; [discriminate |].
      all: destruct (fault env (SeqFetch type year)); simpl; [discriminate |].
      all: rewrite Hnew; simpl.
      all: intros H; inversion H; subst; simpl; repeat split; exact Hafter.
  - destruct (fault env (SeqSelect type year)); simpl; rewrite ?D; simpl.
    all: destruct (fault env (SeqInsert type year)); simpl; rewrite ?D; simpl; discriminate.
Qed.

Lemma resolve_year_state env year c r c' : resolve_year env year c = (r, c') -> c' = c.
Proof.
  unfold resolve_year, ret, throw.
  destruct (negb (Php.truthy_value year)); [intros H; inversion H; reflexivity |].
  destruct (_ || _)%bool; intros H; inversion H; reflexivity.
Qed.

(** A draw that returns handed out the counter plus one and stored it. *)
Lemma getNextDocumentNumberInternal_ok_inv env type year c number c' :
  getNextDocumentNumberInternal env type year c = (Ok number, c') ->
  exists y,
    Php.in_array type valid_types = true
    /\ resolve_year env year c = (Ok y, c)
    /\ number = document_number type y (counter type y (tables c) + 1)
    /\ tables c'
       = with_document_sequences (Some (sequences_after type y (tables c))) (tables c)
    /\ autoinc c' = autoinc c /\ txn c' = txn c.
Proof.
  intros H. unfold getNextDocumentNumberInternal in H.
  ok_bind_keep H u1 c0 S1. apply unless_throw_ok_inv in S1. destruct S1 as [Hty ->].
  ok_bind_keep H y c1 Y. assert (c1 = c) by exact (resolve_year_state _ _ _ _ _ Y). subst c1.
  ok_bind_keep H u2 c2 E. apply ensure_sequences_table_ok_inv in E.
  destruct E as [T2 [A2 X2]].
  ok_bind_keep H sequence c3 Sq. apply next_sequence_ok_inv in Sq.
  destruct Sq as [-> [T3 [A3 X3]]].
  unfold ret in H. injection H as <- <-.
  exists y. split; [exact Hty |]. split; [exact Y |].
  rewrite T3, T2, counter_table_created, sequences_after_table_created,
    with_document_sequences_twice.
  repeat split; congruence.
Qed.

(** *** The sequence number can be read back from its digits *)

Lemma of_uint_leading_zero d : Z.of_uint (Decimal.D0 d) = Z.of_uint d.
Proof. reflexivity. Qed.

Lemma sequence_of_digits_zeros k s n :
  sequence_of_digits s = Some n -> sequence_of_digits (Php.zeros k ++ s) = Some n.
Proof.
  intros H. induction k as [| k IH]; [exact H |].
  unfold sequence_of_digits in *. simpl.
  destruct (NilEmpty.uint_of_string (Php.zeros k ++ s)) as [d |]; [| discriminate].
  simpl in *. rewrite of_uint_leading_zero. exact IH.
Qed.

Lemma sequence_of_digits_fmt_d n : (0 <= n)%Z -> sequence_of_digits (Php.fmt_d n) = Some n.
Proof.
  intros Hn. unfold sequence_of_digits, Php.fmt_d.
  destruct n as [| p | p]; [reflexivity | | lia].
  unfold Z.to_int, NilZero.string_of_int, NilZero.string_of_uint.
  destruct (Pos.to_uint p) eqn:E.
  1: { exfalso. revert E. apply (DecimalPos.Unsigned.to_uint_nonnil p). }
  all: rewrite <- E, NilEmpty.usu; simpl; unfold Z.of_uint;
    rewrite DecimalPos.Unsigned.of_to; reflexivity.
Qed.

Lemma sequence_of_digits_fmt_0d w n :
  (0 <= n)%Z -> sequence_of_digits (Php.fmt_0d w n) = Some n.
Proof.
  intros Hn. rewrite (fmt_0d_nonneg w n Hn).
  apply sequence_of_digits_zeros, sequence_of_digits_fmt_d, Hn.
Qed.

Lemma append_inv_head (p s1 s2 : string) : p ++ s1 = p ++ s2 -> s1 = s2.
Proof.
  induction p as [| a p IH]; simpl; [auto |]. intros H. injection H as H. auto.
Qed.

Lemma document_number_inj type year s1 s2 :
  (0 <= s1)%Z -> (0 <= s2)%Z ->
  document_number type year s1 = document_number type year s2 -> s1 = s2.
Proof.
  intros H1 H2 E. unfold document_number in E.
  do 4 apply append_inv_head in E.
  apply (f_equal sequence_of_digits) in E.
  rewrite !sequence_of_digits_fmt_0d in E by assumption. congruence.
Qed.

Lemma in_array_In s l : Php.in_array s l = true <-> In s l.
Proof.
  unfold Php.in_array. rewrite existsb_exists. split.
  - intros [x [Hx E]]. apply String.eqb_eq in E. subst. exact Hx.
  - intros H. exists s. split; [exact H | apply String.eqb_refl].
Qed.

Lemma valid_type_truthy type :
  Php.in_array type valid_types = true -> Php.truthy (Some type) = true.
Proof.
  intros H. apply in_array_In in H. simpl in H.
  repeat (destruct H as [<- | H]; [reflexivity |]). contradiction.
Qed.

(** X11: both allocators check the document type before they send any
    statement; the HTTP action also rejects a missing (or falsy) type.  The
    two lists differ: RA and REM, and only these, are types that the
    internal allocator accepts and the HTTP action rejects. *)
Theorem allocators_validate_the_type env c :
  (forall type year,
      Php.in_array type valid_types = false ->
      getNextDocumentNumberInternal env type year c
      = (Err (invalid_type_message type valid_types), c))
  /\ (forall type year,
         Php.truthy type = false ->
         get_next_document_number env type year c = (Err "Missing document type", c))
  /\ (forall type year,
         Php.truthy (Some type) = true ->
         Php.in_array type valid_types_http = false ->
         get_next_document_number env (Some type) year c
         = (Err (invalid_type_message type valid_types_http), c))
  /\ (forall type,
         Php.in_array type valid_types = true /\ Php.in_array type valid_types_http = false
         <-> type = "RA" \/ type = "REM").
Proof.
  split; [| split; [| split]].
  - intros type year H. unfold getNextDocumentNumberInternal. rewrite H. reflexivity.
  - intros type year H. unfold get_next_document_number. rewrite H. reflexivity.
  - intros type year Ht H. unfold get_next_document_number. rewrite Ht.
    cbn [unless_throw Php.coalesce]. rewrite (bind_ok _ _ c tt c eq_refl).
    rewrite H. reflexivity.
  - intros type. split.
    + intros [H1 H2]. apply in_array_In in H1. simpl in H1.
      repeat (destruct H1 as [<- | H1]; [first [discriminate H2 | auto] |]).
      contradiction.
    + intros [-> | ->]; split; reflexivity.
Qed.

Lemma allocators_validate_the_type_witness :
  get_next_document_number Sample.env_ok (Some "RA") Php.Null Sample.fresh_conn
  = (Err "Invalid document type: RA. Valid types are: INV, PRO, QT, PO, LPO, DN, CN, PAY, REC",
     Sample.fresh_conn)
  /\ Php.in_array "RA" valid_types = true.
Proof.
  destruct (allocators_validate_the_type Sample.env_ok Sample.fresh_conn)
    as [_ [_ [H3 H4]]].
  split; [exact (H3 "RA" Php.Null eq_refl eq_refl) |].
  exact (proj1 (proj2 (H4 "RA") (or_introl eq_refl))).
Defined.

(** X12: the year of the request is tested for truth before it is cast: a
    truthy one ("abc" and 0.5 are truthy) whose integer cast does not lie
    between 2000 and the current year plus 10 makes both allocators throw,
    with the cast year in the message, before they send any statement. *)
Theorem allocators_validate_the_year env type (year : Php.value) c :
  let y := Php.intval year in
  Php.in_array type valid_types_http = true ->
  Php.truthy_value year = true ->
  (y < 2000 \/ current_year env + 10 < y)%Z ->
  getNextDocumentNumberInternal env type year c
  = (Err ("Invalid year: " ++ Php.fmt_d y), c)
  /\ get_next_document_number env (Some type) year c
     = (Err ("Invalid year: " ++ Php.fmt_d y), c).
Proof.
  intros y Hty Hy Hrange.
  assert (Hty' := valid_types_http_valid type Hty).
  assert (Htr := valid_type_truthy type Hty').
  assert (R : resolve_year env year c = (Err ("Invalid year: " ++ Php.fmt_d y), c)).
  { unfold resolve_year. rewrite Hy. cbn [negb]. fold y.
    replace ((y <? 2000) || (y >? current_year env + 10))%Z with true; [reflexivity |].
    symmetry. apply orb_true_iff. rewrite Z.gtb_ltb, !Z.ltb_lt. exact Hrange. }
  split.
  - unfold getNextDocumentNumberInternal. rewrite Hty'.
    cbn [unless_throw]. rewrite (bind_ok _ _ c tt c eq_refl).
    apply bind_err. exact R.
  - unfold get_next_document_number. rewrite Htr.
    cbn [unless_throw Php.coalesce]. rewrite (bind_ok _ _ c tt c eq_refl).
    rewrite Hty. cbn [unless_throw]. rewrite (bind_ok _ _ c tt c eq_refl).
    apply bind_err. exact R.
Qed.

Lemma allocators_validate_the_year_witness :
  getNextDocumentNumberInternal Sample.env_ok "INV" (Php.Int 1999) Sample.fresh_conn
  = (Err "Invalid year: 1999", Sample.fresh_conn)
  /\ get_next_document_number Sample.env_ok (Some "INV") (Php.Int 2037) Sample.fresh_conn
     = (Err "Invalid year: 2037", Sample.fresh_conn)
  /\ get_next_document_number Sample.env_ok (Some "INV") (Php.Str "abc") Sample.fresh_conn
     = (Err "Invalid year: 0", Sample.fresh_conn).
Proof.
  split; [| split].
  - apply (allocators_validate_the_year Sample.env_ok "INV" (Php.Int 1999) Sample.fresh_conn);
      [reflexivity | reflexivity | left; reflexivity].
  - apply (allocators_validate_the_year Sample.env_ok "INV" (Php.Int 2037) Sample.fresh_conn);
      [reflexivity | reflexivity | right; reflexivity].
  - apply (allocators_validate_the_year Sample.env_ok "INV" (Php.Str "abc") Sample.fresh_conn);
      [reflexivity | reflexivity | left; reflexivity].
Defined.

Lemma ensure_sequences_table_err_inv env c e c' :
  ensure_sequences_table env c = (Err e, c') ->
  tables c' = tables c /\ txn c' = txn c.
Proof.
  unfold ensure_sequences_table, bind, query_select, query_write, unless_throw, ret, throw.
  destruct c as [t a x l]. simpl.
  destruct (fault env SeqTableCheck), (fault env SeqCreateTable),
    (document_sequences t) as [rows |] eqn:E; simpl; rewrite ?E; simpl;
    intros H; inversion H; subst; simpl; repeat split.
Qed.

Lemma next_sequence_keeps_txn env x type year :
  preserved (txn_is x) (next_sequence env type year).
Proof.
  assert (Hlog : forall s c, txn_is x c -> txn_is x (logged s c))
    by (intros s c H; exact H).
  assert (Hw : forall s upd, preserved (txn_is x) (query_write env s upd)).
  { intros s upd. apply preserved_query_write; [exact Hlog |]. intros c t H _. exact H. }
  unfold next_sequence.
  apply preserved_bind; [apply preserved_query_select; exact Hlog | intros result].
  apply preserved_bind.
  { destruct result as [[r |] |]; [apply preserved_ret | |].
    all: apply preserved_bind; [apply Hw | intros ok; apply preserved_unless_throw]. }
  intros _.
  apply preserved_bind; [apply Hw | intros ok].
  apply preserved_bind; [apply preserved_unless_throw | intros _].
  apply preserved_bind; [apply preserved_query_select; exact Hlog |].
  intros [[r |] |]; first [apply preserved_ret | apply preserved_throw].
Qed.

(** X13: a call of the HTTP allocator that throws consumes no number: every
    counter holds the value it had, the rows of the other tables are as they
    were and no transaction is left open. *)
Theorem http_allocator_draws_nothing_on_error env type year c e c' :
  txn c = None ->
  fault env BeginTransaction = false ->
  get_next_document_number env type year c = (Err e, c') ->
  (forall type' year', counter type' year' (tables c') = counter type' year' (tables c))
  /\ business_rows (tables c') = business_rows (tables c)
  /\ txn c' = None.
Proof.
  intros Hx Hb E. unfold get_next_document_number in E.
  destruct (Php.truthy type); [| inversion E; subst; auto].
  rewrite (bind_ok _ _ c tt c eq_refl) in E. cbv zeta in E.
  destruct (Php.in_array (Php.coalesce type "") valid_types_http);
    [| inversion E; subst; auto].
  rewrite (bind_ok _ _ c tt c eq_refl) in E.
  unfold bind at 1 in E.
  destruct (resolve_year env year c) as [[y | e0] c1] eqn:Y;
    assert (c1 = c) by exact (resolve_year_state _ _ _ _ _ Y); subst c1;
    [| inversion E; subst; auto].
  unfold bind at 1 in E.
  destruct (ensure_sequences_table env c) as [[u | e0] c2] eqn:En.
  2: { apply ensure_sequences_table_err_inv in En. destruct En as [T X].
       inversion E; subst. rewrite T. repeat split. congruence. }
  apply ensure_sequences_table_ok_inv in En. destruct En as [T2 [_ X2]].
  unfold bind at 1 in E. unfold begin_transaction in E. rewrite Hb in E.
  unfold try_catch in E.
  set (c3 := set_txn (Some (tables c2)) (logged BeginTransaction c2)) in *.
  destruct ((sequence <- next_sequence env (Php.coalesce type "") y ;;
             commit env ;;;
             ret {| nr_number := document_number (Php.coalesce type "") y sequence;
                    nr_type := Php.coalesce type ""; nr_year := y;
                    nr_sequence := sequence |}) c3) as [[a | e1] c4] eqn:B;
    [discriminate |].
  assert (X4 : txn c4 = Some (tables c2)).
  { unfold bind at 1 in B.
    pose proof (next_sequence_keeps_txn env (Some (tables c2)) (Php.coalesce type "") y
                  c3 eq_refl) as K.
    destruct (next_sequence env (Php.coalesce type "") y c3) as [[n | e2] c5];
      simpl in K.
    - unfold bind, commit, ret in B.
      destruct (fault env CommitTransaction); discriminate.
    - inversion B; subst. exact K. }
  unfold bind, rollback, throw in E. rewrite X4 in E. inversion E; subst.
  cbn [tables txn set_txn set_tables]. rewrite T2.
  split; [intros type' year'; apply counter_table_created |].
  split; reflexivity.
Qed.

Lemma http_allocator_draws_nothing_on_error_witness :
  exists e c',
    get_next_document_number (Ledger.env_failing Faults.is_fetch)
      (Some "INV") Php.Null Ledger.conn = (Err e, c')
    /\ e = "Failed to fetch sequence number"
    /\ counter "INV" 2026 (tables c') = 2%Z.
Proof.
  destruct (get_next_document_number (Ledger.env_failing Faults.is_fetch)
              (Some "INV") Php.Null Ledger.conn) as [r c'] eqn:E.
  assert (Hr : r = Err "Failed to fetch sequence number")
    by (vm_compute in E; congruence).
  subst r. eexists. exists c'. split; [reflexivity |]. split; [reflexivity |].
  exact (proj1 (http_allocator_draws_nothing_on_error
                  (Ledger.env_failing Faults.is_fetch) (Some "INV") Php.Null Ledger.conn
                  "Failed to fetch sequence number" c' eq_refl eq_refl E) "INV" 2026%Z).
Defined.

Lemma ensure_sequences_table_returns env c :
  fault env SeqTableCheck = false ->
  fault env SeqCreateTable = false ->
  exists c', ensure_sequences_table env c = (Ok tt, c').
Proof.
  intros H1 H2.
  unfold ensure_sequences_table, bind, query_select, query_write, unless_throw, ret.
  rewrite H1, H2. destruct c as [t a x l]. simpl.
  destruct (document_sequences t) as [rows |] eqn:E; simpl; rewrite ?E; simpl;
    eexists; reflexivity.
Qed.

Lemma next_sequence_fetch_fails env type year c rows :
  fault env (SeqSelect type year) = false ->
  fault env (SeqInsert type year) = false ->
  fault env (SeqUpdate type year) = false ->
  fault env (SeqFetch type year) = true ->
  document_sequences (tables c) = Some rows ->
  exists c',
    next_sequence env type year c = (Err "Failed to fetch sequence number", c')
    /\ tables c'
       = with_document_sequences (Some (sequences_after type year (tables c))) (tables c).
Proof.
  intros F1 F2 F3 F4 Hrows.
  unfold next_sequence, bind, query_select, query_write.
  rewrite F1, F2, F3, F4.
  destruct c as [t a x l]. simpl in *. rewrite Hrows.
  unfold sequences_after. simpl. rewrite Hrows. simpl.
  destruct (find (seq_match type year) rows) as [r |] eqn:F.
  - assert (Ex : existsb (seq_match type year) rows = true).
    { destruct (existsb (seq_match type year) rows) eqn:Ex; [reflexivity |].
      apply find_existsb_none in Ex. congruence. }
    rewrite Ex. simpl. rewrite Hrows. simpl.
    eexists. split; reflexivity.
  - assert (Ex : existsb (seq_match type year) rows = false)
      by (apply find_existsb_none; exact F).
    rewrite Ex. simpl. rewrite Hrows, Ex. simpl.
    eexists. split; reflexivity.
Qed.

(** X14: the internal allocator runs without a transaction, so a failure
    after the UPDATE loses a number: when the final SELECT of the sequence
    fails, the call throws, yet the counter has advanced by one, while the
    other tables are untouched. *)
Theorem internal_allocator_loses_a_number env type c :
  Php.in_array type valid_types = true ->
  fault env SeqTableCheck = false ->
  fault env SeqCreateTable = false ->
  fault env (SeqSelect type (current_year env)) = false ->
  fault env (SeqInsert type (current_year env)) = false ->
  fault env (SeqUpdate type (current_year env)) = false ->
  fault env (SeqFetch type (current_year env)) = true ->
  exists c',
    getNextDocumentNumberInternal env type Php.Null c
    = (Err "Failed to fetch sequence number", c')
    /\ counter type (current_year env) (tables c')
       = (counter type (current_year env) (tables c) + 1)%Z
    /\ business_rows (tables c') = business_rows (tables c).
Proof.
  intros Hty F1 F2 F3 F4 F5 F6. unfold getNextDocumentNumberInternal.
  rewrite Hty. cbn [unless_throw]. rewrite (bind_ok _ _ c tt c eq_refl).
  rewrite (bind_ok _ _ _ _ _ (resolve_year_default env c)).
  destruct (ensure_sequences_table_returns env c F1 F2) as [c1 E1].
  rewrite (bind_ok _ _ _ _ _ E1).
  apply ensure_sequences_table_ok_inv in E1. destruct E1 as [T1 _].
  destruct (next_sequence_fetch_fails env type (current_year env) c1 _ F3 F4 F5 F6
              (f_equal document_sequences T1)) as [c2 [E2 T2]].
  exists c2. split; [apply bind_err; exact E2 |].
  rewrite T2, T1, sequences_after_table_created, with_document_sequences_twice.
  split; [apply counter_sequences_after | reflexivity].
Qed.

Lemma internal_allocator_loses_a_number_witness :
  exists c',
    getNextDocumentNumberInternal (Ledger.env_failing Faults.is_fetch) "INV" Php.Null Ledger.conn
    = (Err "Failed to fetch sequence number", c')
    /\ counter "INV" 2026 (tables c') = 3%Z.
Proof.
  destruct (internal_allocator_loses_a_number (Ledger.env_failing Faults.is_fetch)
              "INV" Ledger.conn eq_refl eq_refl eq_refl eq_refl eq_refl eq_refl eq_refl)
    as [c' [E [K _]]].
  exists c'. split; [exact E | exact K].
Defined.

(** X15: every number the internal allocator hands out is the counter of
    its (type, year) plus one, whatever else fails; two draws in a row for
    the same type therefore return two different document numbers, and
    leave every other counter alone. *)
Theorem consecutive_draws_differ env type c n1 c1 n2 c2 :
  (0 <= counter type (current_year env) (tables c))%Z ->
  getNextDocumentNumberInternal env type Php.Null c = (Ok n1, c1) ->
  getNextDocumentNumberInternal env type Php.Null c1 = (Ok n2, c2) ->
  let y := current_year env in
  let k := counter type y (tables c) in
  n1 = document_number type y (k + 1)
  /\ n2 = document_number type y (k + 2)
  /\ n1 <> n2
  /\ counter type y (tables c2) = (k + 2)%Z
  /\ (forall type' year', (type', year') <> (type, y) ->
                          counter type' year' (tables c2) = counter type' year' (tables c)).
Proof.
  intros Hk E1 E2 y k.
  apply getNextDocumentNumberInternal_ok_inv in E1.
  destruct E1 as [y1 [_ [Y1 [N1 [T1 _]]]]].
  rewrite resolve_year_default in Y1. injection Y1 as <-.
  apply getNextDocumentNumberInternal_ok_inv in E2.
  destruct E2 as [y2 [_ [Y2 [N2 [T2 _]]]]].
  rewrite resolve_year_default in Y2. injection Y2 as <-.
  fold y in N1, N2, T1, T2.
  assert (K1 : counter type y (tables c1) = (k + 1)%Z).
  { rewrite T1. apply counter_sequences_after. }
  rewrite K1 in N2. replace (k + 1 + 1)%Z with (k + 2)%Z in N2 by lia.
  split; [exact N1 |]. split; [exact N2 |]. split; [| split].
  - rewrite N1, N2. intros E. apply document_number_inj in E; unfold k, y in *; lia.
  - rewrite T2, counter_sequences_after, K1. lia.
  - intros type' year' Hne.
    rewrite T2, (counter_sequences_after_other _ _ _ _ _ Hne),
      T1, (counter_sequences_after_other _ _ _ _ _ Hne). reflexivity.
Qed.

Lemma consecutive_draws_differ_witness :
  exists n1 c1 n2 c2,
    getNextDocumentNumberInternal Sample.env_ok "PAY" Php.Null Ledger.conn = (Ok n1, c1)
    /\ getNextDocumentNumberInternal Sample.env_ok "PAY" Php.Null c1 = (Ok n2, c2)
    /\ n1 = "PAY-2026-0006" /\ n2 = "PAY-2026-0007" /\ n1 <> n2.
Proof.
  destruct (getNextDocumentNumberInternal Sample.env_ok "PAY" Php.Null Ledger.conn)
    as [r1 c1] eqn:E1.
  assert (H1 : exists n1, r1 = Ok n1)
    by (vm_compute in E1; injection E1 as <- _; eexists; reflexivity).
  destruct H1 as [n1 ->].
  destruct (getNextDocumentNumberInternal Sample.env_ok "PAY" Php.Null c1) as [r2 c2] eqn:E2.
  assert (H2 : exists n2, r2 = Ok n2).
  { vm_compute in E1. injection E1 as _ <-. vm_compute in E2. injection E2 as <- _.
    eexists. reflexivity. }
  destruct H2 as [n2 ->].
  exists n1, c1, n2, c2. split; [reflexivity |]. split; [exact E2 |].
  destruct (consecutive_draws_differ Sample.env_ok "PAY" Ledger.conn n1 c1 n2 c2)
    as [K1 [K2 [K3 _]]].
  - vm_compute. discriminate.
  - exact E1.
  - exact E2.
  - split; [exact K1 |]. split; [exact K2 | exact K3].
Defined.

(** X16: the HTTP allocator does not look at the result of COMMIT.  When
    only the commit fails, the call still answers with the next number, and
    the transaction it began is left open. *)
Theorem http_allocator_ignores_a_failed_commit env type (raw_year : Php.value) c :
  let year := Php.intval raw_year in
  (forall s, is_sequence_stmt s = true -> fault env s = false) ->
  fault env BeginTransaction = false ->
  fault env CommitTransaction = true ->
  Php.in_array type valid_types_http = true ->
  (2000 <= year <= current_year env + 10)%Z ->
  exists c',
    get_next_document_number env (Some type) raw_year c
    = (Ok {| nr_number := document_number type year (counter type year (tables c) + 1);
             nr_type := type; nr_year := year;
             nr_sequence := (counter type year (tables c) + 1)%Z |}, c')
    /\ counter type year (tables c') = (counter type year (tables c) + 1)%Z
    /\ txn c' <> None.
Proof.
  intros year Hnf Hb Hc Hty Hyear. unfold get_next_document_number.
  rewrite (valid_type_truthy type (valid_types_http_valid type Hty)).
  simpl Php.coalesce. rewrite Hty. simpl unless_throw.
  rewrite (bind_ok _ _ c tt c eq_refl).
  rewrite (bind_ok _ _ c tt c eq_refl).
  rewrite (bind_ok _ _ _ _ _ (resolve_year_valid env raw_year c Hyear)). fold year.
  destruct (ensure_sequences_table_run env Hnf c) as [c1 [E1 [T1 [A1 X1]]]].
  rewrite (bind_ok _ _ _ _ _ E1).
  unfold bind at 1. unfold begin_transaction. rewrite Hb.
  unfold try_catch.
  set (c1' := set_txn (Some (tables c1)) (logged BeginTransaction c1)).
  destruct (next_sequence_run env Hnf type year c1' _
              (f_equal document_sequences T1)) as [c2 [E2 [T2 [A2 X2]]]].
  rewrite (bind_ok _ _ _ _ _ E2).
  unfold bind, commit. rewrite Hc. simpl.
  eexists. split.
  - simpl in T2. rewrite T1, counter_table_created. reflexivity.
  - simpl. simpl in T2, X2. split; [| rewrite X2; discriminate].
    rewrite T2, counter_sequences_after, T1, counter_table_created. reflexivity.
Qed.

Lemma http_allocator_ignores_a_failed_commit_witness :
  exists c',
    get_next_document_number (Ledger.env_failing Faults.is_commit)
      (Some "INV") (Php.Int 2026) Ledger.conn
    = (Ok {| nr_number := "INV-2026-0003"; nr_type := "INV"; nr_year := 2026;
             nr_sequence := 3 |}, c')
    /\ txn c' <> None.
Proof.
  destruct (http_allocator_ignores_a_failed_commit (Ledger.env_failing Faults.is_commit)
              "INV" (Php.Int 2026) Ledger.conn) as [c' [E [_ X]]].
  - intros s Hs. destruct s; simpl in Hs; first [discriminate Hs | reflexivity].
  - reflexivity.
  - reflexivity.
  - reflexivity.
  - split; vm_compute; discriminate.
  - exists c'. split; [exact E | exact X].
Defined.

(** ** Creation, column by column *)

Lemma number_step_inv env (supplied : option string) type message c number c1 :
  (if negb (Php.truthy supplied)
   then try_catch (getNextDocumentNumberInternal env type Php.Null)
          (fun e => throw (message ++ e))
   else ret (Php.coalesce supplied "")) c = (Ok number, c1) ->
  drawn_or_supplied env supplied type c number c1.
Proof.
  unfold drawn_or_supplied. destruct (Php.truthy supplied); cbn [negb]; intros H.
  - left. unfold ret in H. injection H as <- <-. auto.
  - right. split; [reflexivity |].
    apply try_rethrow_ok_inv in H; [exact H | intros e; apply always_throws_throw].
Qed.

Section InsertCounters.

Variable env : Env.

Lemma insert_invoice_ok_autoinc row c r c' :
  insert_invoice env row c = (Ok r, c') -> Php.isset r = true ->
  autoinc c' = {| next_invoice_id := Pos.succ (next_invoice_id (autoinc c));
                  next_payment_id := next_payment_id (autoinc c);
                  next_allocation_id := next_allocation_id (autoinc c);
                  next_receipt_id := next_receipt_id (autoinc c) |}.
Proof.
  unfold insert_invoice. destruct (fault env InsertInvoice); intros H Hr;
    inversion H; subst; [discriminate | reflexivity].
Qed.

Lemma insert_payment_ok_autoinc row c r c' :
  insert_payment env row c = (Ok r, c') -> Php.isset r = true ->
  autoinc c' = {| next_invoice_id := next_invoice_id (autoinc c);
                  next_payment_id := Pos.succ (next_payment_id (autoinc c));
                  next_allocation_id := next_allocation_id (autoinc c);
                  next_receipt_id := next_receipt_id (autoinc c) |}.
Proof.
  unfold insert_payment. destruct (fault env InsertPayment); intros H Hr;
    inversion H; subst; [discriminate | reflexivity].
Qed.

Lemma insert_allocation_ok_autoinc row c r c' :
  insert_allocation env row c = (Ok r, c') -> Php.isset r = true ->
  autoinc c' = {| next_invoice_id := next_invoice_id (autoinc c);
                  next_payment_id := next_payment_id (autoinc c);
                  next_allocation_id := Pos.succ (next_allocation_id (autoinc c));
                  next_receipt_id := next_receipt_id (autoinc c) |}.
Proof.
  unfold insert_allocation. destruct (fault env InsertAllocation); intros H Hr;
    inversion H; subst; [discriminate | reflexivity].
Qed.

Lemma insert_receipt_ok_autoinc row c r c' :
  insert_receipt env row c = (Ok r, c') -> Php.isset r = true ->
  autoinc c' = {| next_invoice_id := next_invoice_id (autoinc c);
                  next_payment_id := next_payment_id (autoinc c);
                  next_allocation_id := next_allocation_id (autoinc c);
                  next_receipt_id := Pos.succ (next_receipt_id (autoinc c)) |}.
Proof.
  unfold insert_receipt. destruct (fault env InsertReceipt); intros H Hr;
    inversion H; subst; [discriminate | reflexivity].
Qed.

Lemma reread_keeps_autoinc {A} s (row : Tables -> option A) c r c' :
  reread env s row c = (r, c') -> autoinc c' = autoinc c.
Proof.
  unfold reread, bind, query_select, ret.
  destruct (fault env s); intros H; inversion H; reflexivity.
Qed.

End InsertCounters.

(** A creation that returns wrote the rows [new_invoice], [new_payment] and
    [new_receipt], with the numbers drawn or supplied. *)
Lemma create_ok_rows env req c resp c' :
  create_receipt_with_items_transaction env req c = (Ok resp, c') ->
  let iid := Z.pos (next_invoice_id (autoinc c)) in
  let pid := Z.pos (next_payment_id (autoinc c)) in
  let rid := Z.pos (next_receipt_id (autoinc c)) in
  exists invoiceNumber paymentNumber c1 c2,
    drawn_or_supplied env (i_invoice_number (req_invoice req)) "INV" c invoiceNumber c1
    /\ drawn_or_supplied env (p_payment_number (req_payment req)) "PAY" c1 paymentNumber c2
    /\ invoices (tables c')
       = (invoices (tables c) ++ [new_invoice env req iid invoiceNumber])%list
    /\ payments (tables c')
       = (payments (tables c) ++ [new_payment env req pid iid paymentNumber])%list
    /\ receipts (tables c') = (receipts (tables c) ++ [new_receipt env req rid pid iid])%list
    /\ document_sequences (tables c') = document_sequences (tables c2)
    /\ payment_audit_log (tables c') = payment_audit_log (tables c)
    /\ credit_note_allocations (tables c') = credit_note_allocations (tables c)
    /\ stock_movements (tables c') = stock_movements (tables c)
    /\ autoinc c' = advanced (autoinc c).
Proof.
  intros H iid pid rid. unfold create_receipt_with_items_transaction in H.
  ok_bind_keep H u1 c0 S1. apply unless_throw_ok_inv in S1. destruct S1 as [_ ->].
  ok_bind_keep H u2 c0 S2. apply unless_throw_ok_inv in S2. destruct S2 as [_ ->].
  ok_bind_keep H invoiceNumber c1 S3.
  pose proof (number_step_inv _ _ _ _ _ _ _ S3) as DS3.
  apply number_step_frame in S3. destruct S3 as [B1 [A1 _]].
  ok_bind_keep H paymentNumber c2 S4.
  pose proof (number_step_inv _ _ _ _ _ _ _ S4) as DS4.
  apply number_step_frame in S4. destruct S4 as [B2 [A2 _]].
  exists invoiceNumber, paymentNumber, c1, c2.
  split; [exact DS3 |]. split; [exact DS4 |]. clear DS3 DS4.
  assert (B : business_rows (tables c2) = business_rows (tables c)) by congruence.
  assert (D : same_documents (tables c) (tables c2)).
  { apply business_rows_same_documents. exact B. }
  destruct D as [D1 [D2 [D3 [D4 [D5 D6]]]]].
  assert (A : autoinc c2 = autoinc c) by congruence.
  clear B1 B2 A1 A2 c1.
  ok_bind_keep H ok c3 S5. ok_bind_keep H u3 c4 S6.
  apply unless_throw_ok_inv in S6. destruct S6 as [Hok ->].
  apply (begin_transaction_ok_inv env) in S5; [| exact Hok]. clear Hok ok.
  apply try_rethrow_ok_inv in H; [| intros e; apply rollback_rethrow_always_throws].
  unfold create_in_transaction in H.
  destruct (determine_invoice_status (Php.coalesce (p_amount (req_payment req)) 0)
              (invoice_amount (req_items req) (req_invoice req)))
    as [[invoiceStatus paidAmount] balanceDue] eqn:S.
  (* Step 1 *)
  ok_bind_keep H r1 d1 I1. ok_bind_keep H v1 d1' U1.
  apply unless_throw_ok_inv in U1. destruct U1 as [R1 ->].
  pose proof (insert_invoice_ok_autoinc env _ _ _ _ I1 R1) as G1.
  destruct (insert_invoice_ok_inv env _ _ _ _ I1 R1) as [_ [-> [T1 _]]].
  cbn [Php.coalesce] in H.
  ok_bind_keep H v2 d1' U2. apply unless_throw_ok_inv in U2. destruct U2 as [_ ->].
  (* Step 2 *)
  ok_bind_keep H v3 d2 L2.
  destruct (insert_invoice_items_ok_inv env _ _ _ _ _ _ L2) as [T2 [A2 _]].
  (* Step 3 *)
  ok_bind_keep H r3 d3 I3. ok_bind_keep H v4 d3' U3.
  apply unless_throw_ok_inv in U3. destruct U3 as [R3 ->].
  pose proof (insert_payment_ok_autoinc env _ _ _ _ I3 R3) as G3.
  destruct (insert_payment_ok_inv env _ _ _ _ I3 R3) as [-> [T3 _]].
  cbn [Php.coalesce] in H.
  ok_bind_keep H v5 d3' U4. apply unless_throw_ok_inv in U4. destruct U4 as [_ ->].
  (* Step 4 *)
  ok_bind_keep H r4 d4 I4. ok_bind_keep H v6 d4' U5.
  apply unless_throw_ok_inv in U5. destruct U5 as [R4 ->].
  pose proof (insert_allocation_ok_autoinc env _ _ _ _ I4 R4) as G4.
  destruct (insert_allocation_ok_inv env _ _ _ _ I4 R4) as [-> [T4 _]].
  cbn [Php.coalesce] in H.
  (* Step 5 *)
  ok_bind_keep H r5 d5 I5. ok_bind_keep H v7 d5' U6.
  apply unless_throw_ok_inv in U6. destruct U6 as [R5 ->].
  pose proof (insert_receipt_ok_autoinc env _ _ _ _ I5 R5) as G5.
  destruct (insert_receipt_ok_inv env _ _ _ _ I5 R5) as [-> [T5 _]].
  cbn [Php.coalesce] in H.
  ok_bind_keep H v8 d5' U7. apply unless_throw_ok_inv in U7. destruct U7 as [_ ->].
  (* Step 6 *)
  ok_bind_keep H v9 d6 L6.
  destruct (insert_receipt_items_ok_inv env _ _ _ _ _ _ L6) as [T6 [A6 _]].
  (* Commit *)
  ok_bind_keep H ok d7 C7. ok_bind_keep H v10 d7' U8.
  apply unless_throw_ok_inv in U8. destruct U8 as [Hok ->].
  apply (commit_ok_inv env) in C7; [| exact Hok]. clear Hok ok.
  (* Response *)
  ok_bind_keep H invoice d8 Q1. ok_bind_keep H payment_record d9 Q2.
  ok_bind_keep H receipt d10 Q3.
  destruct (reread_ok_inv env _ _ _ _ _ Q1) as [T8 _].
  destruct (reread_ok_inv env _ _ _ _ _ Q2) as [T9 _].
  destruct (reread_ok_inv env _ _ _ _ _ Q3) as [T10 _].
  apply reread_keeps_autoinc in Q1, Q2, Q3.
  unfold ret in H. injection H as _ <-.
  assert (T7 : tables d7 = tables d6) by (subst d7; reflexivity).
  assert (A7 : autoinc d7 = autoinc d6) by (subst d7; reflexivity).
  assert (T0 : tables c3 = tables c2) by (subst c3; reflexivity).
  assert (A3 : autoinc c3 = autoinc c) by (subst c3; exact A).
  assert (Gp : next_payment_id (autoinc d2) = next_payment_id (autoinc c))
    by (rewrite A2, G1, A3; reflexivity).
  assert (Gr : next_receipt_id (autoinc d4) = next_receipt_id (autoinc c))
    by (rewrite G4, G3, A2, G1, A3; reflexivity).
  rewrite A3 in *. rewrite Gp in *. rewrite Gr in *.
  fold iid in T1, T2, T3, T4, T5. fold pid in T3, T4, T5. fold rid in T5, T6.
  rewrite T10, T9, T8, T7, T6, T5, T4, T3, T2, T1, T0. conn_fields.
  rewrite D1, D3, D5.
  split; [| split; [| split; [| split; [| split; [| split; [| split]]]]]].
  - unfold new_invoice, payment_date, payment_amount, creation_status,
      creation_paid_amount, creation_balance_due. rewrite S. reflexivity.
  - reflexivity.
  - reflexivity.
  - reflexivity.
  - exact (f_equal payment_audit_log B).
  - exact (f_equal credit_note_allocations B).
  - exact (f_equal stock_movements B).
  - rewrite Q3, Q2, Q1, A7, A6, G5, G4, G3, A2, G1. reflexivity.
Qed.

Lemma counter_ext type year t t' :
  document_sequences t' = document_sequences t -> counter type year t' = counter type year t.
Proof. unfold counter. intros ->. reflexivity. Qed.

Lemma drawn_or_supplied_counters env supplied type c number c1 :
  drawn_or_supplied env supplied type c number c1 ->
  (Php.truthy supplied = true ->
   number = Php.coalesce supplied "" /\ tables c1 = tables c)
  /\ (Php.truthy supplied = false ->
      number = document_number type (current_year env)
                 (counter type (current_year env) (tables c) + 1)
      /\ tables c1
         = with_document_sequences
             (Some (sequences_after type (current_year env) (tables c))) (tables c)).
Proof.
  intros [[H1 [H2 ->]] | [H1 H2]]; (split; intros K; [| try congruence]);
    try congruence; auto.
  apply getNextDocumentNumberInternal_ok_inv in H2.
  destruct H2 as [y [_ [Y [N [T _]]]]].
  rewrite resolve_year_default in Y. injection Y as <-. auto.
Qed.

(** X17: the document numbers of a creation that returns.  A truthy
    invoice number of the request is stored verbatim on the invoice row and
    no INV counter moves; otherwise the number is the INV counter of the
    current year plus one, formatted, and that counter has advanced by one.
    The same holds for the payment number and the PAY counters. *)
Theorem create_numbers env req c resp c' :
  create_receipt_with_items_transaction env req c = (Ok resp, c') ->
  let y := current_year env in
  exists inv pay,
    invoices (tables c') = (invoices (tables c) ++ [inv])%list
    /\ payments (tables c') = (payments (tables c) ++ [pay])%list
    /\ (Php.truthy (i_invoice_number (req_invoice req)) = true ->
        inv_invoice_number inv = Php.coalesce (i_invoice_number (req_invoice req)) ""
        /\ forall year, counter "INV" year (tables c') = counter "INV" year (tables c))
    /\ (Php.truthy (i_invoice_number (req_invoice req)) = false ->
        inv_invoice_number inv = document_number "INV" y (counter "INV" y (tables c) + 1)
        /\ counter "INV" y (tables c') = (counter "INV" y (tables c) + 1)%Z)
    /\ (Php.truthy (p_payment_number (req_payment req)) = true ->
        pay_payment_number pay = Php.coalesce (p_payment_number (req_payment req)) ""
        /\ forall year, counter "PAY" year (tables c') = counter "PAY" year (tables c))
    /\ (Php.truthy (p_payment_number (req_payment req)) = false ->
        pay_payment_number pay = document_number "PAY" y (counter "PAY" y (tables c) + 1)
        /\ counter "PAY" y (tables c') = (counter "PAY" y (tables c) + 1)%Z).
Proof.
  intros H y. apply create_ok_rows in H. cbv zeta in H.
  destruct H as [invoiceNumber [paymentNumber [c1 [c2 [N1 [N2 [I [P [_ [D _]]]]]]]]]].
  apply drawn_or_supplied_counters in N1, N2. fold y in N1, N2.
  destruct N1 as [N1s N1d]. destruct N2 as [N2s N2d].
  eexists. eexists. split; [exact I |]. split; [exact P |].
  cbn [new_invoice new_payment inv_invoice_number pay_payment_number].
  assert (Hinv : forall year, counter "INV" year (tables c2) = counter "INV" year (tables c1)).
  { intros year. destruct (Php.truthy (p_payment_number (req_payment req))).
    - destruct (N2s eq_refl) as [_ ->]. reflexivity.
    - destruct (N2d eq_refl) as [_ ->].
      apply counter_sequences_after_other. intros E. discriminate E. }
  assert (Hpay : forall year, counter "PAY" year (tables c1) = counter "PAY" year (tables c)).
  { intros year. destruct (Php.truthy (i_invoice_number (req_invoice req))).
    - destruct (N1s eq_refl) as [_ ->]. reflexivity.
    - destruct (N1d eq_refl) as [_ ->].
      apply counter_sequences_after_other. intros E. discriminate E. }
  split; [| split; [| split]].
  - intros K. destruct (N1s K) as [-> T]. split; [reflexivity |].
    intros year. rewrite (counter_ext _ _ _ _ D), Hinv, T. reflexivity.
  - intros K. destruct (N1d K) as [-> T]. split; [reflexivity |].
    rewrite (counter_ext _ _ _ _ D), Hinv, T. apply counter_sequences_after.
  - intros K. destruct (N2s K) as [-> T]. split; [reflexivity |].
    intros year. rewrite (counter_ext _ _ _ _ D), T. apply Hpay.
  - intros K. destruct (N2d K) as [-> T]. rewrite Hpay. split; [reflexivity |].
    rewrite (counter_ext _ _ _ _ D), T, counter_sequences_after, Hpay. reflexivity.
Qed.

Lemma create_numbers_witness :
  exists resp c' inv pay,
    create_receipt_with_items_transaction Sample.env_ok Requests.numbered Ledger.conn
    = (Ok resp, c')
    /\ invoices (tables c') = (invoices Ledger.rows ++ [inv])%list
    /\ payments (tables c') = (payments Ledger.rows ++ [pay])%list
    /\ inv_invoice_number inv = "INV-MANUAL-7"
    /\ pay_payment_number pay = "PAY-MANUAL-7"
    /\ counter "INV" 2026 (tables c') = 2%Z
    /\ counter "PAY" 2026 (tables c') = 5%Z.
Proof.
  destruct (create_run Sample.env_ok Requests.numbered Ledger.conn)
    as [resp [c' E]]; [reflexivity | repeat split |].
  destruct (create_numbers _ _ _ _ _ E) as [inv [pay [H1 [H2 [H3 [_ [H5 _]]]]]]].
  destruct (H3 eq_refl) as [K1 K2]. destruct (H5 eq_refl) as [K3 K4].
  exists resp, c', inv, pay.
  split; [exact E |]. split; [exact H1 |]. split; [exact H2 |].
  split; [exact K1 |]. split; [exact K3 |].
  split; [exact (K2 2026%Z) | exact (K4 2026%Z)].
Defined.

(** X18: the three documents of one creation agree with each other: the
    invoice date, the due date, the payment date and the receipt date are
    one date (the payment date of the request, else today); company and
    actor are the same on the three rows; the payment points to the invoice
    and the receipt to both, by the ids AUTO_INCREMENT gave; the receipt
    total is the payment amount; the method defaults to cash. *)
Theorem created_documents_agree env req c resp c' :
  create_receipt_with_items_transaction env req c = (Ok resp, c') ->
  exists inv pay rc,
    invoices (tables c') = (invoices (tables c) ++ [inv])%list
    /\ payments (tables c') = (payments (tables c) ++ [pay])%list
    /\ receipts (tables c') = (receipts (tables c) ++ [rc])%list
    /\ (inv_invoice_date inv = Php.coalesce (p_payment_date (req_payment req)) (today env)
        /\ inv_due_date inv = inv_invoice_date inv
        /\ pay_payment_date pay = inv_invoice_date inv
        /\ rc_receipt_date rc = inv_invoice_date inv)
    /\ (pay_company_id pay = inv_company_id inv /\ rc_company_id rc = inv_company_id inv)
    /\ (pay_created_by pay = inv_created_by inv /\ rc_created_by rc = inv_created_by inv)
    /\ (pay_invoice_id pay = Some (inv_id inv)
        /\ rc_invoice_id rc = Some (inv_id inv)
        /\ rc_payment_id rc = Some (pay_id pay))
    /\ (inv_id inv = Z.pos (next_invoice_id (autoinc c))
        /\ pay_id pay = Z.pos (next_payment_id (autoinc c))
        /\ rc_id rc = Z.pos (next_receipt_id (autoinc c))
        /\ autoinc c' = advanced (autoinc c))
    /\ rc_total_amount rc = pay_amount pay
    /\ pay_payment_method pay = Php.coalesce (p_payment_method (req_payment req)) "cash"
    /\ rc_receipt_type rc = "direct_receipt"
    /\ rc_excess_handling rc = "pending".
Proof.
  intros H. apply create_ok_rows in H. cbv zeta in H.
  destruct H as [invoiceNumber [paymentNumber [c1 [c2 [_ [_ [I [P [R [_ [_ [_ [_ A]]]]]]]]]]]]].
  eexists. eexists. eexists.
  split; [exact I |]. split; [exact P |]. split; [exact R |].
  cbn. repeat split. exact A.
Qed.

Lemma created_documents_agree_witness :
  exists resp c' inv pay rc,
    create_receipt_with_items_transaction Sample.env_ok Requests.numbered Ledger.conn
    = (Ok resp, c')
    /\ invoices (tables c') = (invoices Ledger.rows ++ [inv])%list
    /\ payments (tables c') = (payments Ledger.rows ++ [pay])%list
    /\ receipts (tables c') = (receipts Ledger.rows ++ [rc])%list
    /\ inv_due_date inv = "2026-10-31"
    /\ rc_receipt_date rc = "2026-10-31"
    /\ rc_payment_id rc = Some 6%Z
    /\ rc_invoice_id rc = Some 9%Z.
Proof.
  destruct (create_run Sample.env_ok Requests.numbered Ledger.conn)
    as [resp [c' E]]; [reflexivity | repeat split |].
  destruct (created_documents_agree _ _ _ _ _ E)
    as [inv [pay [rc [H1 [H2 [H3 [[D1 [D2 [_ D4]]] [_ [_ [[_ [L2 L3]] [[J1 [J2 _]] _]]]]]]]]]]].
  exists resp, c', inv, pay, rc.
  split; [exact E |]. split; [exact H1 |]. split; [exact H2 |]. split; [exact H3 |].
  split; [rewrite D2; exact D1 |]. split; [rewrite D4; exact D1 |].
  split; [rewrite L3, J2; reflexivity | rewrite L2, J1; reflexivity].
Defined.

Lemma item_rows_columns invoiceId receiptId items :
  forall index,
    map receipt_item_columns (receipt_item_rows receiptId index items)
    = map invoice_item_columns (invoice_item_rows invoiceId index items).
Proof.
  induction items as [| item rest IH]; intros index; simpl; [reflexivity |].
  rewrite IH. reflexivity.
Qed.

Lemma invoice_item_rows_sort_order invoiceId items :
  forall index,
    map ii_sort_order (invoice_item_rows invoiceId index items)
    = seq (index + 1) (List.length items).
Proof.
  induction items as [| item rest IH]; intros index; simpl; [reflexivity |].
  rewrite IH. replace (S index + 1)%nat with (S (index + 1)) by lia. reflexivity.
Qed.

Lemma receipt_item_rows_receipt receiptId items :
  forall index r, In r (receipt_item_rows receiptId index items) -> ri_receipt_id r = receiptId.
Proof.
  induction items as [| item rest IH]; intros index r; simpl; [contradiction |].
  intros [<- | H]; [reflexivity | exact (IH _ _ H)].
Qed.

(** X19: the receipt items are a snapshot of the invoice items: a creation
    that returns has appended as many rows to receipt_items as to
    invoice_items, one per item of the request and in its order, with the
    same description, quantity, unit price, tax percentage, tax amount, line
    total and sort order; the sort orders count from 1; every receipt item
    carries the id of the new receipt. *)
Theorem receipt_items_snapshot_invoice_items env req c resp c' :
  create_receipt_with_items_transaction env req c = (Ok resp, c') ->
  exists invoice_rows receipt_rows,
    invoice_items (tables c') = (invoice_items (tables c) ++ invoice_rows)%list
    /\ receipt_items (tables c') = (receipt_items (tables c) ++ receipt_rows)%list
    /\ map receipt_item_columns receipt_rows = map invoice_item_columns invoice_rows
    /\ map ii_sort_order invoice_rows = seq 1 (List.length (req_items req))
    /\ (forall r, In r receipt_rows ->
                  ri_receipt_id r = Z.pos (next_receipt_id (autoinc c))).
Proof.
  intros H. apply create_ok_created in H.
  destruct H as [inv [pay [rc [_ [I [_ [_ [_ [R _]]]]]]]]].
  eexists. eexists. split; [exact I |]. split; [exact R |].
  split; [apply item_rows_columns |].
  split; [apply (invoice_item_rows_sort_order _ _ 0%nat) |].
  intros r. apply receipt_item_rows_receipt.
Qed.

Lemma receipt_items_snapshot_invoice_items_witness :
  exists resp c' receipt_rows,
    create_receipt_with_items_transaction Sample.env_ok Requests.numbered Ledger.conn
    = (Ok resp, c')
    /\ receipt_items (tables c') = (receipt_items Ledger.rows ++ receipt_rows)%list
    /\ map ri_sort_order receipt_rows = [1%nat; 2%nat]
    /\ map ri_receipt_id receipt_rows = [5%Z; 5%Z].
Proof.
  destruct (create_run Sample.env_ok Requests.numbered Ledger.conn)
    as [resp [c' E]]; [reflexivity | repeat split |].
  destruct (receipt_items_snapshot_invoice_items _ _ _ _ _ E)
    as [invoice_rows [receipt_rows [_ [H2 _]]]].
  exists resp, c', receipt_rows. split; [exact E |]. split; [exact H2 |].
  assert (K : receipt_rows = receipt_item_rows 5 0 (req_items Requests.numbered)).
  { apply create_ok_created in E.
    destruct E as [inv [pay [rc [_ [_ [_ [_ [_ [R _]]]]]]]]].
    rewrite R in H2. apply app_inv_head in H2. symmetry. exact H2. }
  rewrite K. split; reflexivity.
Defined.

(** ** Creation followed by a deletion *)

Lemma find_all_false {A} (f : A -> bool) (l : list A) :
  (forall x, In x l -> f x = false) -> find f l = None.
Proof.
  induction l as [| a l IH]; simpl; intros H; [reflexivity |].
  rewrite (H a (or_introl eq_refl)). apply IH. intros x Hx. apply H. right. exact Hx.
Qed.

Lemma filter_everything {A} (f : A -> bool) (l : list A) :
  (forall x, In x l -> f x = true) -> filter f l = l.
Proof.
  induction l as [| a l IH]; simpl; intros H; [reflexivity |].
  rewrite (H a (or_introl eq_refl)). f_equal. apply IH. intros x Hx. apply H. right. exact Hx.
Qed.

Lemma filter_keeps_old {A} (f : A -> bool) (old new : list A) :
  (forall x, In x old -> f x = true) -> (forall x, In x new -> f x = false) ->
  filter f (old ++ new) = old.
Proof.
  intros H1 H2. rewrite filter_app, (filter_everything _ _ H1), (filter_nothing _ _ H2).
  apply app_nil_r.
Qed.

Lemma filter_keeps_new {A} (f : A -> bool) (old new : list A) :
  (forall x, In x old -> f x = false) -> (forall x, In x new -> f x = true) ->
  filter f (old ++ new) = new.
Proof.
  intros H1 H2. rewrite filter_app, (filter_nothing _ _ H1), (filter_everything _ _ H2).
  reflexivity.
Qed.

Lemma find_new {A} (f : A -> bool) (old : list A) (y : A) :
  (forall x, In x old -> f x = false) -> f y = true -> find f (old ++ [y]) = Some y.
Proof.
  intros H1 H2. rewrite (find_app_r _ _ _ (find_all_false _ _ H1)). simpl.
  rewrite H2. reflexivity.
Qed.

Lemma one_row {A} (P : A -> Prop) (y : A) : P y -> forall x, In x [y] -> P x.
Proof. intros H x [<- | []]. exact H. Qed.

Lemma Zeqb_false a b : a <> b -> (a =? b)%Z = false.
Proof. apply Z.eqb_neq. Qed.

Lemma negb_Zeqb_false a b : a = b -> negb (a =? b)%Z = false.
Proof. intros ->. rewrite Z.eqb_refl. reflexivity. Qed.

Lemma col_is_false v id : v <> Some id -> col_is v id = false.
Proof.
  intros H. apply not_true_iff_false. rewrite col_is_true. exact H.
Qed.


(** The rows a creation that returned has left, given fresh ids. *)
Lemma created_rows env req c resp c1 :
  create_receipt_with_items_transaction env req c = (Ok resp, c1) ->
  let iid := Z.pos (next_invoice_id (autoinc c)) in
  let pid := Z.pos (next_payment_id (autoinc c)) in
  let aid := Z.pos (next_allocation_id (autoinc c)) in
  let rid := Z.pos (next_receipt_id (autoinc c)) in
  exists invoiceNumber paymentNumber,
    invoices (tables c1)
    = (invoices (tables c) ++ [new_invoice env req iid invoiceNumber])%list
    /\ invoice_items (tables c1)
       = (invoice_items (tables c) ++ invoice_item_rows iid 0 (req_items req))%list
    /\ payments (tables c1)
       = (payments (tables c) ++ [new_payment env req pid iid paymentNumber])%list
    /\ payment_allocations (tables c1)
       = (payment_allocations (tables c)
          ++ [{| pa_id := aid; pa_payment_id := pid; pa_invoice_id := iid;
                 pa_amount := payment_amount req |}])%list
    /\ receipts (tables c1) = (receipts (tables c) ++ [new_receipt env req rid pid iid])%list
    /\ receipt_items (tables c1)
       = (receipt_items (tables c) ++ receipt_item_rows rid 0 (req_items req))%list
    /\ payment_audit_log (tables c1) = payment_audit_log (tables c)
    /\ credit_note_allocations (tables c1) = credit_note_allocations (tables c)
    /\ stock_movements (tables c1) = stock_movements (tables c)
    /\ autoinc c1 = advanced (autoinc c).
Proof.
  intros H iid pid aid rid.
  pose proof (create_ok_created _ _ _ _ _ H) as K.
  destruct K as [inv [pay [rc [_ [I2 [_ [I4 [_ [I6 _]]]]]]]]].
  apply create_ok_rows in H. cbv zeta in H.
  destruct H as [invoiceNumber [paymentNumber [c0 [c2 [_ [_ [R1 [R2 [R3 [_ [R4 [R5 [R6 R7]]]]]]]]]]]]].
  exists invoiceNumber, paymentNumber. repeat split; assumption.
Qed.


Lemma ledger_has_fresh_ids : fresh_ids Ledger.conn.
Proof.
  unfold fresh_ids. cbv zeta.
  repeat match goal with |- _ /\ _ => split end.
  all: intros x Hx; simpl in Hx.
  all: repeat (destruct Hx as [<- | Hx];
               [first [discriminate | split; discriminate | intros K; discriminate] |]).
  all: contradiction.
Qed.


Lemma invoice_item_rows_invoice invoiceId items :
  forall index i, In i (invoice_item_rows invoiceId index items) -> ii_invoice_id i = invoiceId.
Proof.
  intros index i H. exact (proj1 (invoice_item_rows_shape _ _ _ _ H)).
Qed.

(** X21: a creation followed by the deletion of the invoice it made.  With
    fresh ids and no failing statement the deletion returns, counts one
    related payment, and takes back everything the creation wrote: all the
    tables but document_sequences hold their rows from before the creation.
    The numbers drawn and the AUTO_INCREMENT ids are not given back. *)
Theorem create_then_delete_invoice env env' req c resp c1 :
  fresh_ids c ->
  (forall s, fault env' s = false) ->
  create_receipt_with_items_transaction env req c = (Ok resp, c1) ->
  exists resp' c2,
    delete_invoice_with_cascade env' (Some (Z.pos (next_invoice_id (autoinc c)))) c1
    = (Ok resp', c2)
    /\ di_payments_count resp' = 1%nat
    /\ business_rows (tables c2) = business_rows (tables c)
    /\ document_sequences (tables c2) = document_sequences (tables c1)
    /\ autoinc c2 = advanced (autoinc c).
Proof.
  intros Hfresh Hnf H.
  destruct (created_rows _ _ _ _ _ H)
    as [invoiceNumber [paymentNumber [I [II [P [A [R [RI [L [CN [SM AI]]]]]]]]]]].
  destruct Hfresh as [F1 [F2 [F3 [F4 [F5 [F6 [F7 [F8 F9]]]]]]]].
  set (iid := Z.pos (next_invoice_id (autoinc c))) in *.
  set (pid := Z.pos (next_payment_id (autoinc c))) in *.
  set (rid := Z.pos (next_receipt_id (autoinc c))) in *.
  assert (Hiid : iid <> 0%Z) by discriminate.
  clearbody iid pid rid.
  assert (Hrel : related_payment_ids iid (tables c1) = [pid]).
  { unfold related_payment_ids. rewrite P, A.
    rewrite filter_keeps_new; [reflexivity | |].
    - intros p Hp. apply orb_false_iff. split.
      + apply col_is_false. exact (proj2 (F3 p Hp)).
      + rewrite existsb_app. apply orb_false_iff. split.
        * apply not_true_iff_false. rewrite existsb_exists.
          intros [a [Ha Ea]]. apply andb_true_iff in Ea. destruct Ea as [Ea _].
          apply Z.eqb_eq in Ea. exact (proj2 (F4 a Ha) Ea).
        * cbn [existsb pa_invoice_id pa_payment_id]. rewrite orb_false_r.
          apply andb_false_iff. right.
          apply Zeqb_false. intros E. symmetry in E. exact (proj1 (F3 p Hp) E).
    - apply one_row. cbn [new_payment pay_invoice_id col_is].
      rewrite Z.eqb_refl. reflexivity. }
  eexists. eexists.
  split.
  { apply (delete_invoice_returns env' iid c1 (new_invoice env req iid invoiceNumber) Hnf).
    - exact Hiid.
    - rewrite I. apply find_new.
      + intros i Hi. apply Zeqb_false. exact (F1 i Hi).
      + apply Z.eqb_refl. }
  rewrite Hrel. cbn [di_payments_count List.length].
  split; [reflexivity |].
  unfold after_invoice_deletion, invoice_deleted. conn_fields.
  cbn [List.length Nat.eqb negb].
  split; [| split; [reflexivity | exact AI]].
  unfold business_rows. apply tables_ext; conn_fields; try reflexivity.
  - rewrite I. apply filter_keeps_old.
    + intros i Hi. apply negb_Zeqb_true. exact (F1 i Hi).
    + apply one_row. apply negb_Zeqb_false. reflexivity.
  - rewrite II. apply filter_keeps_old.
    + intros i Hi. apply negb_Zeqb_true. exact (F2 i Hi).
    + intros i Hi. apply negb_Zeqb_false. exact (invoice_item_rows_invoice _ _ _ _ Hi).
  - rewrite P. apply filter_keeps_old.
    + intros p Hp. apply negb_col_is_true. exact (proj2 (F3 p Hp)).
    + apply one_row. cbn [new_payment pay_invoice_id col_is].
      rewrite Z.eqb_refl. reflexivity.
  - rewrite A. apply filter_keeps_old.
    + intros a Ha. apply negb_Zeqb_true. exact (proj2 (F4 a Ha)).
    + apply one_row. apply negb_Zeqb_false. reflexivity.
  - rewrite R. apply filter_keeps_old.
    + intros r Hr. apply negb_true_iff, not_true_iff_false. rewrite col_in_true.
      intros [x [E [<- | []]]]. exact (proj2 (F5 r Hr) E).
    + apply one_row. cbn [new_receipt rc_payment_id col_in existsb].
      rewrite Z.eqb_refl. reflexivity.
  - assert (Hrc : receipts_of_payments [pid] (tables c1) = [rid]).
    { unfold receipts_of_payments. rewrite R.
      rewrite filter_keeps_new; [reflexivity | |].
      - intros r Hr. apply not_true_iff_false. rewrite col_in_true.
        intros [x [E [<- | []]]]. exact (proj2 (F5 r Hr) E).
      - apply one_row. cbn [new_receipt rc_payment_id col_in existsb].
        rewrite Z.eqb_refl. reflexivity. }
    rewrite Hrc, RI. apply filter_keeps_old.
    + intros i Hi. cbn [existsb]. rewrite orb_false_r.
      apply negb_Zeqb_true. exact (F6 i Hi).
    + intros i Hi. cbn [existsb]. rewrite orb_false_r. apply negb_Zeqb_false.
      exact (receipt_item_rows_receipt _ _ _ _ Hi).
  - rewrite L. apply filter_everything. intros l Hl.
    apply negb_true_iff, orb_false_iff. split.
    + cbn [existsb]. rewrite orb_false_r. apply Zeqb_false. exact (proj1 (F7 l Hl)).
    + apply col_is_false. exact (proj2 (F7 l Hl)).
  - rewrite CN. apply filter_everything. intros a Ha.
    apply negb_Zeqb_true. exact (F8 a Ha).
  - rewrite SM. apply filter_everything. intros m Hm.
    apply negb_stock_reference_true. intros [E1 E2]. exact (F9 m Hm E1 E2).
Qed.

Lemma create_then_delete_invoice_witness :
  exists resp c1 resp' c2,
    create_receipt_with_items_transaction Sample.env_ok (Sample.request (50 # 1)) Ledger.conn
    = (Ok resp, c1)
    /\ delete_invoice_with_cascade Sample.env_ok (Some 9%Z) c1 = (Ok resp', c2)
    /\ business_rows (tables c2) = business_rows Ledger.rows
    /\ next_invoice_id (autoinc c2) = 10%positive.
Proof.
  destruct (create_run Sample.env_ok (Sample.request (50 # 1)) Ledger.conn)
    as [resp [c1 E]]; [reflexivity | repeat split |].
  destruct (create_then_delete_invoice Sample.env_ok Sample.env_ok
              (Sample.request (50 # 1)) Ledger.conn resp c1
              ledger_has_fresh_ids (fun _ => eq_refl) E)
    as [resp' [c2 [E2 [_ [H2 [_ H4]]]]]].
  exists resp, c1, resp', c2.
  split; [exact E |]. split; [exact E2 |]. split; [exact H2 |].
  rewrite H4. reflexivity.
Defined.

(** ** Authorization *)

Lemma lenient_decode aenv token :
  Php.truthy token = true ->
  match Auth.verifyJWT aenv token with
  | Some d => Some d
  | None =>
      match Auth.explode "."%char (Php.coalesce token "") with
      | [_; payload; _] => Auth.decode aenv payload
      | _ => None
      end
  end
  = match Auth.explode "."%char (Php.coalesce token "") with
    | [_; payload; _] => Auth.decode aenv payload
    | _ => None
    end.
Proof.
  intros Ht. unfold Auth.verifyJWT. rewrite Ht. cbn [negb].
  destruct (Auth.explode "."%char (Php.coalesce token "")) as [| h [| p [| s [| x l]]]];
    try reflexivity.
  destruct (negb (String.eqb s (Auth.sign aenv (h ++ "." ++ p)))); [reflexivity |].
  destruct (Auth.decode aenv p) as [d |]; [| reflexivity].
  destruct (Auth.expired aenv d); reflexivity.
Qed.

(** What the authorization does once the strict and the lenient decoding
    are folded into one. *)
Lemma requireAuthForModification_lenient aenv request action table :
  Auth.requireAuthForModification aenv request action table
  = let token := if negb (Php.truthy (Auth.bearer request))
                 then Auth.post_token request else Auth.bearer request in
    if negb (Php.truthy token) then
      if Auth.bypass_allowed action table then Ok Auth.bypass_user
      else Err "Authentication required. Missing authorization token."
    else
      match match Auth.explode "."%char (Php.coalesce token "") with
            | [_; payload; _] => Auth.decode aenv payload
            | _ => None
            end with
      | None =>
          if Auth.bypass_allowed action table then Ok Auth.bypass_user
          else Err "Invalid or expired authentication token"
      | Some decoded =>
          let user_id := match Auth.cl_id decoded with
                         | Some id => Some id
                         | None => Auth.cl_sub decoded
                         end in
          if negb (Php.truthy user_id) then Err "Invalid token - no user ID"
          else if Auth.prepare_fails aenv then Err "Database error: "
          else
            match Auth.find_profile aenv (Php.coalesce user_id "") with
            | None => Err "User not found"
            | Some profile =>
                if negb (String.eqb (Auth.prof_status profile) "active")
                then Err ("User account is not active. Status: "
                          ++ Auth.prof_status profile)
                else if negb (Auth.stripos_found (Auth.prof_role profile) "admin"
                              || String.eqb (Auth.prof_role profile) "super_admin")
                then Err ("Insufficient permissions. User role must be admin to perform "
                          ++ action ++ ".")
                else Ok (Auth.user_of_profile profile)
            end
      end.
Proof.
  unfold Auth.requireAuthForModification. cbv zeta.
  destruct (Php.truthy (if negb (Php.truthy (Auth.bearer request))
                        then Auth.post_token request else Auth.bearer request)) eqn:Ht;
    cbn [negb]; [| reflexivity].
  rewrite (lenient_decode aenv _ Ht). reflexivity.
Qed.

Lemma super_admin_contains_admin role :
  Auth.stripos_found role "admin" || String.eqb role "super_admin" = true ->
  Auth.stripos_found role "admin" = true.
Proof.
  destruct (Auth.stripos_found role "admin") eqn:E; [reflexivity |].
  cbn [orb]. intros H. apply String.eqb_eq in H. subst role. discriminate E.
Qed.

Lemma bypass_allowed_true action table :
  Auth.bypass_allowed action table = true
  <-> action = "update" /\ (table = "companies" \/ table = "profiles").
Proof.
  unfold Auth.bypass_allowed.
  rewrite andb_true_iff, orb_true_iff, !String.eqb_eq. reflexivity.
Qed.

Lemma truthy_coalesce (v : option string) :
  Php.truthy v = true -> Php.truthy (Some (Php.coalesce v "")) = true.
Proof. destruct v; [auto | discriminate]. Qed.

(** X22: whom the authorization lets through.  A call that returns either
    returns the bypass user, and then the request is an update of companies
    or profiles, or returns the profile found for the id of the token
    payload; that profile has status active and a role that contains
    "admin" in any letter case (the separate test for super_admin adds
    nothing). *)
Theorem authorization_grants_active_admins aenv request action table user :
  Auth.requireAuthForModification aenv request action table = Ok user ->
  (user = Auth.bypass_user
   /\ action = "update" /\ (table = "companies" \/ table = "profiles"))
  \/ (exists id profile,
         Php.truthy (Some id) = true
         /\ Auth.find_profile aenv id = Some profile
         /\ user = Auth.user_of_profile profile
         /\ Auth.prof_status profile = "active"
         /\ Auth.stripos_found (Auth.prof_role profile) "admin" = true).
Proof.
  intros H. rewrite requireAuthForModification_lenient in H. cbv zeta in H.
  destruct (negb (Php.truthy _)).
  { destruct (Auth.bypass_allowed action table) eqn:B; [| discriminate].
    injection H as <-. left. split; [reflexivity | apply bypass_allowed_true; exact B]. }
  destruct (match Auth.explode "."%char _ with [_; payload; _] => _ | _ => None end)
    as [decoded |].
  2: { destruct (Auth.bypass_allowed action table) eqn:B; [| discriminate].
       injection H as <-. left. split; [reflexivity | apply bypass_allowed_true; exact B]. }
  destruct (negb (Php.truthy _)) eqn:Tu; [discriminate |].
  destruct (Auth.prepare_fails aenv); [discriminate |].
  destruct (Auth.find_profile aenv _) as [profile |] eqn:F; [| discriminate].
  destruct (negb (String.eqb (Auth.prof_status profile) "active")) eqn:S; [discriminate |].
  destruct (negb (_ || _)) eqn:A; [discriminate |].
  injection H as <-. right. eexists. exists profile.
  split; [apply truthy_coalesce; apply negb_false_iff; exact Tu |].
  split; [exact F |]. split; [reflexivity |].
  split; [apply String.eqb_eq; apply negb_false_iff; exact S |].
  apply super_admin_contains_admin. apply negb_false_iff. exact A.
Qed.

Lemma authorization_grants_active_admins_witness :
  exists user,
    Auth.requireAuthForModification Tokens.aenv Tokens.forged
      "create_receipt_with_items_transaction" "receipts" = Ok user
    /\ Auth.u_id user = Some "7"
    /\ Auth.u_status user = "active".
Proof.
  exists (Auth.user_of_profile Tokens.admin).
  assert (E : Auth.requireAuthForModification Tokens.aenv Tokens.forged
                "create_receipt_with_items_transaction" "receipts"
              = Ok (Auth.user_of_profile Tokens.admin)) by reflexivity.
  split; [exact E |].
  destruct (authorization_grants_active_admins _ _ _ _ _ E)
    as [[_ [K _]] | [id [profile [_ [_ [U [S _]]]]]]]; [discriminate K |].
  split; [reflexivity |]. rewrite U. exact S.
Defined.

(** X23: neither the signature nor the expiry of a token decides anything:
    two servers that read the same claims from a payload and find the same
    profiles give the same answer to every request, whatever their secrets
    and their clocks. *)
Theorem signature_and_expiry_are_not_enforced aenv aenv' request action table :
  Auth.decode aenv' = Auth.decode aenv ->
  Auth.prepare_fails aenv' = Auth.prepare_fails aenv ->
  Auth.find_profile aenv' = Auth.find_profile aenv ->
  Auth.requireAuthForModification aenv' request action table
  = Auth.requireAuthForModification aenv request action table.
Proof.
  intros Hd Hp Hf. rewrite !requireAuthForModification_lenient.
  rewrite Hd, Hp, Hf. reflexivity.
Qed.

Lemma signature_and_expiry_are_not_enforced_witness :
  Auth.verifyJWT Tokens.aenv (Auth.bearer Tokens.forged) = None
  /\ Auth.requireAuthForModification Tokens.aenv_other_secret Tokens.forged
       "delete_receipt_with_cascade" "receipts"
     = Auth.requireAuthForModification Tokens.aenv Tokens.forged
         "delete_receipt_with_cascade" "receipts"
  /\ Auth.requireAuthForModification Tokens.aenv Tokens.forged
       "delete_receipt_with_cascade" "receipts"
     = Ok (Auth.user_of_profile Tokens.admin).
Proof.
  split; [reflexivity |]. split; [| reflexivity].
  exact (signature_and_expiry_are_not_enforced Tokens.aenv Tokens.aenv_other_secret
           Tokens.forged "delete_receipt_with_cascade" "receipts"
           eq_refl eq_refl eq_refl).
Defined.

Lemma canManageCompany_bypass company_id :
  Auth.canManageCompany Auth.bypass_user company_id = true.
Proof. reflexivity. Qed.

(** X24: the bypass.  A request to update companies or profiles that
    carries no token, or a token whose payload cannot be read (in the
    Authorization header or posted; not made of three parts, or with a
    payload that does not decode), is let through as the bypass user, and
    the bypass user may manage every company; for any other action or table
    such a request is refused. *)
Theorem update_of_companies_needs_no_token aenv request action table :
  let token := request_token request in
  Php.truthy token = false \/ token_claims aenv token = None ->
  (action = "update" /\ (table = "companies" \/ table = "profiles") ->
   Auth.requireAuthForModification aenv request action table = Ok Auth.bypass_user
   /\ forall company_id, Auth.canManageCompany Auth.bypass_user company_id = true)
  /\ (~ (action = "update" /\ (table = "companies" \/ table = "profiles")) ->
      exists message,
        Auth.requireAuthForModification aenv request action table = Err message).
Proof.
  intros token Ht. rewrite requireAuthForModification_lenient. cbv zeta.
  fold (request_token request). fold token. fold (token_claims aenv token).
  split.
  - intros Hu. apply bypass_allowed_true in Hu. split; [| exact canManageCompany_bypass].
    destruct (negb (Php.truthy token)) eqn:E; [rewrite Hu; reflexivity |].
    destruct Ht as [Ht | Ht]; [rewrite Ht in E; discriminate |].
    rewrite Ht, Hu. reflexivity.
  - intros Hn.
    assert (B : Auth.bypass_allowed action table = false).
    { apply not_true_iff_false. rewrite bypass_allowed_true. exact Hn. }
    destruct (negb (Php.truthy token)) eqn:E; [rewrite B; eexists; reflexivity |].
    destruct Ht as [Ht | Ht]; [rewrite Ht in E; discriminate |].
    rewrite Ht, B. eexists. reflexivity.
Qed.

(** No token; a bearer token that is not a JWT; a bearer token of three
    parts whose payload does not decode; a posted token of that kind: on a
    server that reads the payload CLAIMS7, each is let through for an update
    of companies, and refused for a delete. *)
Lemma update_of_companies_needs_no_token_witness :
  Forall
    (fun request =>
       Auth.requireAuthForModification Tokens.aenv request "update" "companies"
       = Ok Auth.bypass_user
       /\ Auth.canManageCompany Auth.bypass_user "42" = true
       /\ exists message,
            Auth.requireAuthForModification Tokens.aenv request "delete" "companies"
            = Err message)
    [Tokens.anonymous; Tokens.bearing (Some "garbage") None;
     Tokens.bearing (Some "a.b.c") None; Tokens.bearing None (Some "x.y.z")].
Proof.
  apply Forall_forall. intros request Hin.
  assert (Ht : Php.truthy (request_token request) = false
               \/ token_claims Tokens.aenv (request_token request) = None).
  { destruct Hin as [<- | [<- | [<- | [<- | []]]]];
      first [left; reflexivity | right; reflexivity]. }
  destruct (update_of_companies_needs_no_token Tokens.aenv request
              "update" "companies" Ht) as [H1 _].
  destruct (update_of_companies_needs_no_token Tokens.aenv request
              "delete" "companies" Ht) as [_ H2].
  destruct (H1 (conj eq_refl (or_introl eq_refl))) as [K1 K2].
  split; [exact K1 |]. split; [exact (K2 "42") |].
  apply H2. intros [E _]. discriminate E.
Defined.

(** ** The receipt actions, with their authorization *)

(** X25: a request without a token never reaches the store through the two
    receipt actions: the creation throws before any statement is sent, and
    the deletion throws inside its try block, so that only a rollback is
    sent.  The rows are untouched. *)
Theorem receipt_actions_refuse_requests_without_token aenv env request c :
  txn c = None ->
  Php.truthy (Auth.bearer request) = false ->
  Php.truthy (Auth.post_token request) = false ->
  (forall req,
      create_receipt_action aenv env request req c
      = (Err "Authentication required. Missing authorization token.", c))
  /\ (forall receipt_id,
         delete_receipt_action aenv env request receipt_id c
         = (Err "Receipt deletion failed: Authentication required. Missing authorization token.",
            untouched c [Rollback])).
Proof.
  intros Hx Hb Hp.
  assert (E : forall action,
             Auth.requireAuthForModification aenv request action "receipts"
             = Err "Authentication required. Missing authorization token.").
  { intros action. unfold Auth.requireAuthForModification. cbv zeta.
    rewrite Hb. cbn [negb]. rewrite Hp. cbn [negb].
    unfold Auth.bypass_allowed. cbn [String.eqb Ascii.eqb Bool.eqb orb].
    rewrite andb_false_r. reflexivity. }
  split.
  - intros req. unfold create_receipt_action. rewrite E. reflexivity.
  - intros receipt_id. unfold delete_receipt_action, try_catch. rewrite E.
    unfold throw at 1. unfold bind, rollback, throw. rewrite Hx. f_equal.
    unfold logged. apply untouched_eq; first [reflexivity | exact Hx].
Qed.

Lemma receipt_actions_refuse_requests_without_token_witness :
  create_receipt_action Tokens.aenv Sample.env_ok Tokens.anonymous
    (Sample.request (50 # 1)) Ledger.conn
  = (Err "Authentication required. Missing authorization token.", Ledger.conn)
  /\ delete_receipt_action Tokens.aenv Sample.env_ok Tokens.anonymous (Php.Int 1) Ledger.conn
     = (Err "Receipt deletion failed: Authentication required. Missing authorization token.",
        untouched Ledger.conn [Rollback]).
Proof.
  destruct (receipt_actions_refuse_requests_without_token Tokens.aenv Sample.env_ok
              Tokens.anonymous Ledger.conn eq_refl eq_refl eq_refl) as [H1 H2].
  split; [exact (H1 _) | exact (H2 _)].
Defined.

Lemma receipts_authorization aenv request action user :
  Auth.requireAuthForModification aenv request action "receipts" = Ok user ->
  exists id profile,
    Auth.find_profile aenv id = Some profile
    /\ user = Auth.user_of_profile profile
    /\ Auth.prof_status profile = "active"
    /\ Auth.stripos_found (Auth.prof_role profile) "admin" = true.
Proof.
  intros H. rewrite requireAuthForModification_lenient in H. cbv zeta in H.
  assert (B : Auth.bypass_allowed action "receipts" = false).
  { unfold Auth.bypass_allowed. cbn [String.eqb Ascii.eqb Bool.eqb orb].
    apply andb_false_r. }
  rewrite B in H.
  destruct (negb (Php.truthy _)); [discriminate |].
  destruct (match Auth.explode "."%char _ with [_; payload; _] => _ | _ => None end)
    as [decoded |]; [| discriminate].
  destruct (negb (Php.truthy _)); [discriminate |].
  destruct (Auth.prepare_fails aenv); [discriminate |].
  destruct (Auth.find_profile aenv _) as [profile |] eqn:F; [| discriminate].
  destruct (negb (String.eqb (Auth.prof_status profile) "active")) eqn:S; [discriminate |].
  destruct (negb (_ || _)) eqn:A; [discriminate |].
  injection H as <-. eexists. exists profile.
  split; [exact F |]. split; [reflexivity |].
  split; [apply String.eqb_eq; apply negb_false_iff; exact S |].
  apply super_admin_contains_admin. apply negb_false_iff. exact A.
Qed.

(** X26: every creation that gets through the action was requested by an
    active admin profile, and the id of that profile is what the invoice,
    the payment and the receipt record as created_by (NULL when the id is
    falsy). *)
Theorem created_rows_record_the_actor aenv env request req c resp c' :
  create_receipt_action aenv env request req c = (Ok resp, c') ->
  exists id profile inv pay rc,
    Auth.find_profile aenv id = Some profile
    /\ Auth.prof_status profile = "active"
    /\ Auth.stripos_found (Auth.prof_role profile) "admin" = true
    /\ invoices (tables c') = (invoices (tables c) ++ [inv])%list
    /\ payments (tables c') = (payments (tables c) ++ [pay])%list
    /\ receipts (tables c') = (receipts (tables c) ++ [rc])%list
    /\ inv_created_by inv
       = (if Php.truthy_str (Auth.prof_id profile) then Some (Auth.prof_id profile)
          else None)
    /\ pay_created_by pay = inv_created_by inv
    /\ rc_created_by rc = inv_created_by inv.
Proof.
  intros H. unfold create_receipt_action in H.
  destruct (Auth.requireAuthForModification aenv request
              "create_receipt_with_items_transaction" "receipts") as [user | e] eqn:E;
    [| discriminate].
  destruct (receipts_authorization _ _ _ _ E) as [id [profile [F [-> [S A]]]]].
  apply create_ok_rows in H. cbv zeta in H.
  destruct H as [invoiceNumber [paymentNumber [c1 [c2 [_ [_ [I [P [R _]]]]]]]]].
  exists id, profile. eexists. eexists. eexists.
  split; [exact F |]. split; [exact S |]. split; [exact A |].
  split; [exact I |]. split; [exact P |]. split; [exact R |].
  repeat split.
Qed.

Lemma created_rows_record_the_actor_witness :
  exists resp c' inv,
    create_receipt_action Tokens.aenv Sample.env_ok Tokens.forged
      (Sample.request (50 # 1)) Ledger.conn = (Ok resp, c')
    /\ invoices (tables c') = (invoices Ledger.rows ++ [inv])%list
    /\ inv_created_by inv = Some "7".
Proof.
  destruct (create_run (with_auth_id (Some "7") Sample.env_ok) (Sample.request (50 # 1))
              Ledger.conn) as [resp [c' E]]; [reflexivity | repeat split |].
  assert (E' : create_receipt_action Tokens.aenv Sample.env_ok Tokens.forged
                 (Sample.request (50 # 1)) Ledger.conn = (Ok resp, c')) by exact E.
  destruct (created_rows_record_the_actor _ _ _ _ _ _ _ E')
    as [id [profile [inv [pay [rc [F [_ [_ [I [_ [_ [B _]]]]]]]]]]]].
  exists resp, c', inv. split; [exact E' |]. split; [exact I |].
  assert (K : inv_created_by inv = Some "7").
  { apply create_ok_rows in E. cbv zeta in E.
    destruct E as [n1 [n2 [c1 [c2 [_ [_ [I' _]]]]]]].
    rewrite I' in I. apply app_inj_tail in I. destruct I as [_ <-]. reflexivity. }
  exact K.
Defined.

(** ** Creation: excess *)



(** X28: the excess in binary64, as the handler computes it.  For a payment
    of 2.1 on three units at 0.7 the total is 3 * 0.7 = 2.0999999999999996
    in binary64, below the payment: the invoice is written as paid, with
    total_amount and paid_amount printed as 2.1 and balance_due 0, while the
    payment less the total is above 0 and printed as 4.4408920985006E-16,
    which is the excess that max(0, ...) keeps for the receipt.  So the paid
    amount and the excess as written do not add up to the payment. *)
Example excess_of_a_rounded_total :
  let req := Sample.seven_tenths in
  let a := Binary64.invoice_amounts req in
  let excess :=
    Binary64.sub (Binary64.floatval (p_amount (req_payment req)))
      (Binary64.invoice_amount (req_items req) (req_invoice req)) in
  Binary64.ia_status a = paid
  /\ Binary64.ia_total_amount a = Some (21 # 10)
  /\ Binary64.ia_paid_amount a = Some (21 # 10)
  /\ Binary64.ia_balance_due a = Some 0
  /\ Binary64.gtb excess Binary64.zero = true
  /\ Php.printed excess = Some (22204460492503 # 5 * 10 ^ 28)
  /\ ~ (21 # 10) + (22204460492503 # 5 * 10 ^ 28) == 21 # 10.
Proof.
  cbv zeta. repeat split; try (vm_compute; reflexivity).
  intros H. vm_compute in H. discriminate.
Qed.
